(** * GLM5Tradingbot: decision / execution pipeline

    A shallow embedding of the trading core of the repository
    (market statistics, Risk Physics, Alpha Ranker, Execution Router,
    Bot State Store, the Immortal Exit shutdown protocol and the signal
    factory) together with the properties its specification states about
    it.

    Numbers.  A TypeScript [number] is modelled by [JsNum.num]: a
    rational, or one of the three special values of IEEE 754 arithmetic
    (+Infinity, -Infinity, NaN).  The operations of [JsNum] are exact on
    finite values and follow the IEEE rules for the special ones: division
    by zero, NaN propagation, comparisons with NaN being false.  They differ
    from the engine's binary64 arithmetic by the rounding of each result
    (and by overflow to an infinity), and there is a single zero.  The
    properties stated over [JsNum] are of the kinds that rounding leaves
    alone: which branch is taken on the stated inputs, which calls are
    made and what is stored, orderings, and bounds by 0 or by another
    binary64 number that a monotone rounding cannot cross.  Where rounding
    decides a property (the sides of take profit and stop loss), the
    function is stated with [Binary64], in which every operation returns
    the exact result rounded to the nearest binary64 number. *)

From Stdlib Require Import ZArith QArith Qround Qabs Qpower Lqa Lia.
From Stdlib Require Import List String Ascii DecimalString Bool.
From Stdlib Require Import Sorting.Permutation Sorting.Sorted.
Import ListNotations.

Local Open Scope Q_scope.

(* ================================================================== *)
(** * JavaScript numbers                                               *)
(* ================================================================== *)

Module JsNum.

Inductive num : Type :=
| Fin (q : Q)
| PInf
| NInf
| NaN.

Definition Qltb (x y : Q) : bool := negb (Qle_bool y x).

Definition zero : num := Fin 0.
Definition one : num := Fin 1.

(** sign of a rational as a comparison with zero *)
Definition Qsign (q : Q) : comparison := q ?= 0.

(** the infinity with the sign of [c]; NaN for a zero sign *)
Definition inf_of_sign (c : comparison) : num :=
  match c with
  | Gt => PInf
  | Lt => NInf
  | Eq => NaN
  end.

Definition neg (a : num) : num :=
  match a with
  | Fin q => Fin (- q)
  | PInf => NInf
  | NInf => PInf
  | NaN => NaN
  end.

Definition add (a b : num) : num :=
  match a, b with
  | NaN, _ | _, NaN => NaN
  | Fin x, Fin y => Fin (x + y)
  | PInf, NInf | NInf, PInf => NaN
  | PInf, _ | _, PInf => PInf
  | NInf, _ | _, NInf => NInf
  end.

Definition sub (a b : num) : num := add a (neg b).

Definition mul (a b : num) : num :=
  match a, b with
  | NaN, _ | _, NaN => NaN
  | Fin x, Fin y => Fin (x * y)
  | Fin x, PInf | PInf, Fin x => inf_of_sign (Qsign x)
  | Fin x, NInf | NInf, Fin x => inf_of_sign (CompOpp (Qsign x))
  | PInf, PInf | NInf, NInf => PInf
  | PInf, NInf | NInf, PInf => NInf
  end.

(** [x / 0] is an infinity with the sign of [x], and [0 / 0] is NaN *)
Definition div (a b : num) : num :=
  match a, b with
  | NaN, _ | _, NaN => NaN
  | Fin x, Fin y =>
      if Qeq_bool y 0 then inf_of_sign (Qsign x) else Fin (x / y)
  | Fin _, PInf | Fin _, NInf => Fin 0
  | PInf, Fin y => if Qltb y 0 then NInf else PInf
  | NInf, Fin y => if Qltb y 0 then PInf else NInf
  | PInf, PInf | PInf, NInf | NInf, PInf | NInf, NInf => NaN
  end.

(** [Math.abs] *)
Definition abs (a : num) : num :=
  match a with
  | Fin q => Fin (Qabs q)
  | PInf | NInf => PInf
  | NaN => NaN
  end.

(** [a < b]; every comparison with NaN is false *)
Definition ltb (a b : num) : bool :=
  match a, b with
  | NaN, _ | _, NaN => false
  | Fin x, Fin y => Qltb x y
  | _, NInf => false
  | NInf, _ => true
  | PInf, _ => false
  | Fin _, PInf => true
  end.

(** [a <= b] *)
Definition leb (a b : num) : bool :=
  match a, b with
  | NaN, _ | _, NaN => false
  | Fin x, Fin y => Qle_bool x y
  | NInf, _ => true
  | _, PInf => true
  | _, NInf => false
  | PInf, _ => false
  end.

Definition gtb (a b : num) : bool := ltb b a.
Definition geb (a b : num) : bool := leb b a.

(** [a === b] on numbers *)
Definition eqb (a b : num) : bool :=
  match a, b with
  | Fin x, Fin y => Qeq_bool x y
  | PInf, PInf | NInf, NInf => true
  | _, _ => false
  end.

Definition is_nan (a : num) : bool :=
  match a with NaN => true | _ => false end.

(** [Math.min] and [Math.max] return NaN as soon as an argument is NaN *)
Definition min (a b : num) : num :=
  if is_nan a || is_nan b then NaN else if leb a b then a else b.

Definition max (a b : num) : num :=
  if is_nan a || is_nan b then NaN else if leb a b then b else a.

(** [Math.floor], [Math.ceil], [Math.round] *)
Definition floor (a : num) : num :=
  match a with
  | Fin q => Fin (inject_Z (Qfloor q))
  | _ => a
  end.

Definition ceil (a : num) : num :=
  match a with
  | Fin q => Fin (inject_Z (Qceiling q))
  | _ => a
  end.

Definition round (a : num) : num :=
  match a with
  | Fin q => Fin (inject_Z (Qfloor (q + (1 # 2))))
  | _ => a
  end.

(** JavaScript truthiness of a number: [0] and [NaN] are falsy *)
Definition truthy (a : num) : bool :=
  match a with
  | Fin q => negb (Qeq_bool q 0)
  | PInf | NInf => true
  | NaN => false
  end.

(** [10 ^ z] for an integer exponent *)
Definition pow10Z (z : Z) : Q := Qpower 10 z.

(** [floor (log10 q)] for [0 < q], by search: the exponent [k] with
    [10^k <= q < 10^(k+1)].  The fuel bounds the search by the size of
    the numerator (upwards) or of the denominator (downwards). *)
Fixpoint log10_up (fuel : nat) (k : Z) (q : Q) : Z :=
  match fuel with
  | O => k
  | S f => if Qle_bool (pow10Z (k + 1)) q then log10_up f (k + 1)%Z q else k
  end.

Fixpoint log10_down (fuel : nat) (m : Z) (q : Q) : Z :=
  match fuel with
  | O => m
  | S f => if Qle_bool 1 (q * pow10Z m) then m else log10_down f (m + 1)%Z q
  end.

Definition floor_log10 (q : Q) : Z :=
  if Qle_bool 1 q
  then log10_up (S (Z.to_nat (Z.log2 (Qnum q)))) 0%Z q
  else (- log10_down (S (Pos.to_nat (Pos.size (Qden q)))) 1%Z q)%Z.

(** [Math.ceil(-Math.log10(a))], the number of decimals of a tick or
    step.  The logarithm itself is irrational in general; the composite
    is an integer for every finite positive argument. *)
Definition ceil_neg_log10 (a : num) : num :=
  match a with
  | Fin q =>
      match Qsign q with
      | Gt => Fin (inject_Z (- floor_log10 q))
      | Eq => PInf
      | Lt => NaN
      end
  | PInf => NInf
  | NInf | NaN => NaN
  end.

(** [Math.pow(10, a)] for the integral exponents the router produces
    (the finite case truncates the exponent, which is an integer at
    every call site) *)
Definition pow10 (a : num) : num :=
  match a with
  | Fin q => Fin (pow10Z (Qfloor q))
  | PInf => PInf
  | NInf => Fin 0
  | NaN => NaN
  end.

(** Outcome of an operation that may throw *)
Inductive result (A : Type) : Type :=
| Ok (a : A)
| Throw (msg : string).
Arguments Ok {A} a.
Arguments Throw {A} msg.

(** [Number(x.toFixed(digits))].  [toFixed] throws a RangeError unless
    [0 <= digits <= 100] (a NaN digit count counts as 0); a non-finite
    receiver and a receiver of magnitude [>= 10^21] print as themselves;
    otherwise the receiver is rounded to the nearest multiple of
    [10^-digits], a tie going to the larger magnitude. *)
Definition to_fixed_number (x digits : num) : result num :=
  let f := match digits with
           | Fin d => Some (if Qle_bool 0 d then Qfloor d else Qceiling d)
           | NaN => Some 0%Z
           | PInf | NInf => None
           end in
  match f with
  | None => Throw "toFixed() digits argument must be between 0 and 100"
  | Some f =>
      if (f <? 0)%Z || (100 <? f)%Z
      then Throw "toFixed() digits argument must be between 0 and 100"
      else
        match x with
        | Fin q =>
            if Qle_bool (pow10Z 21) (Qabs q) then Ok (Fin q)
            else
              let n := Qfloor (Qabs q * pow10Z f + (1 # 2)) in
              let r := inject_Z n / pow10Z f in
              Ok (Fin (if Qltb q 0 then - r else r))
        | _ => Ok x
        end
  end.

End JsNum.

Export JsNum.

(* ================================================================== *)
(** * Binary64 rounding                                                *)
(* ================================================================== *)

(** The engine computes in IEEE 754 binary64: each arithmetic operation
    returns the exact result rounded to the nearest representable number,
    a tie going to the even significand, and a result of magnitude
    [2^1024] or more becoming an infinity.  [Binary64] gives the four
    operations in that reading, as the rounding of the exact result of
    [JsNum].  The two zeros of binary64 are not told apart. *)
Module Binary64.

Definition pow2 (z : Z) : Q := Qpower 2 z.

(** the nearest integer, a tie going to the even one *)
Definition round_half_even (q : Q) : Z :=
  let f := Qfloor q in
  match Qcompare (q - inject_Z f) (1 # 2) with
  | Lt => f
  | Gt => (f + 1)%Z
  | Eq => if Z.even f then f else (f + 1)%Z
  end.

(** [floor (log2 a)] for [0 < a] *)
Definition exponent (a : Q) : Z :=
  let e := (Z.log2 (Qnum a) - Z.log2 (Zpos (Qden a)))%Z in
  if Qle_bool (pow2 e) a then e else (e - 1)%Z.

(** the binary exponent of the last place of [a]: 53 significant bits,
    and no place below [2^-1074], the spacing of the subnormal numbers *)
Definition quantum (a : Q) : Z := Z.max (exponent a - 52) (-1074).

(** the multiple of the last place nearest to a positive rational *)
Definition nearest (a : Q) : Q :=
  inject_Z (round_half_even (a / pow2 (quantum a))) * pow2 (quantum a).

(** rounding of a positive rational *)
Definition round_magnitude (a : Q) : num :=
  if Qle_bool (pow2 1024) (nearest a) then PInf else Fin (nearest a).

Definition round64 (q : Q) : num :=
  match Qcompare q 0 with
  | Eq => Fin 0
  | Gt => round_magnitude q
  | Lt => neg (round_magnitude (- q))
  end.

Definition rounded (a : num) : num :=
  match a with
  | Fin q => round64 q
  | _ => a
  end.


Definition add (a b : num) : num := rounded (JsNum.add a b).
Definition sub (a b : num) : num := rounded (JsNum.sub a b).
Definition mul (a b : num) : num := rounded (JsNum.mul a b).
Definition div (a b : num) : num := rounded (JsNum.div a b).



End Binary64.

(* ================================================================== *)
(** * Market statistics library (utils.ts)                             *)
(* ================================================================== *)

Module Utils.

Record Candle : Type := mkCandle {
  timestamp : Z;
  open : num;
  high : num;
  low : num;
  close : num;
  volume : num;
}.

(** the true ranges of [calculate_atr]'s first loop: one per candle
    after the first, paired with its predecessor *)
Fixpoint true_ranges (previous : Candle) (rest : list Candle) : list num :=
  match rest with
  | [] => []
  | current :: rest' =>
      let highLow := sub (high current) (low current) in
      let highPrevClose := abs (sub (high current) (close previous)) in
      let lowPrevClose := abs (sub (low current) (close previous)) in
      max (max highLow highPrevClose) lowPrevClose
        :: true_ranges current rest'
  end.

(** [arr.slice(0, e)] for an integer [e]: a negative end counts from
    the back *)
Definition slice0 {A} (l : list A) (e : Z) : list A :=
  if (e <? 0)%Z
  then firstn (Z.to_nat (Z.max 0 (Z.of_nat (List.length l) + e))) l
  else firstn (Z.to_nat e) l.

(** [arr[i]] used as a number: an index outside the array reads
    [undefined], which arithmetic turns into NaN *)
Definition index_num (l : list num) (i : Z) : num :=
  if (i <? 0)%Z then NaN else nth (Z.to_nat i) l NaN.

(** Wilder smoothing loop: [for (i = start; i < len; i++)] *)
Fixpoint wilder (fuel : nat) (trs : list num) (period : Z) (i : Z) (atr : num)
  : num :=
  match fuel with
  | O => atr
  | S f =>
      if (i <? Z.of_nat (List.length trs))%Z
      then wilder f trs period (i + 1)%Z
             (div (add (mul atr (Fin (inject_Z (period - 1))))
                       (index_num trs i))
                  (Fin (inject_Z period)))
      else atr
  end.

(** [calculate_atr(candles, period)]; [period] is an integer count at
    every call site (default 14) *)
Definition calculate_atr (candles : list Candle) (period : Z) : num :=
  if (Z.of_nat (List.length candles) <? period + 1)%Z then Fin 0
  else
    let trueRanges :=
      match candles with
      | [] => []
      | c :: rest => true_ranges c rest
      end in
    if (Z.of_nat (List.length trueRanges) <? period)%Z then Fin 0
    else
      let atr0 :=
        div (fold_left (fun sum tr => add sum tr) (slice0 trueRanges period) (Fin 0))
            (Fin (inject_Z period)) in
      wilder (Z.to_nat (Z.of_nat (List.length trueRanges) - period)) trueRanges
             period period atr0.

Inductive RoundingMode : Type := Up | Down | Nearest.

(** [round_to_qty_step(quantity, qtyStep, roundingMode)] *)
Definition round_to_qty_step (quantity qtyStep : num) (roundingMode : RoundingMode)
  : result num :=
  if leb qtyStep (Fin 0)
  then Throw "Quantity step must be positive"
  else
    let precision := max (Fin 0) (ceil_neg_log10 qtyStep) in
    let multiplier := div (Fin 1) qtyStep in
    let rounded :=
      match roundingMode with
      | Up => div (ceil (mul quantity multiplier)) multiplier
      | Down => div (floor (mul quantity multiplier)) multiplier
      | Nearest => div (round (mul quantity multiplier)) multiplier
      end in
    to_fixed_number rounded precision.

End Utils.

(* ================================================================== *)
(** * Trading types (types.ts)                                         *)
(* ================================================================== *)

Inductive SignalDirection : Type := LONG | SHORT.
Inductive MarketRegime : Type := TRENDING | RANGING.
Inductive Exchange : Type := mexc | bybit.

Definition Exchange_eqb (a b : Exchange) : bool :=
  match a, b with
  | mexc, mexc | bybit, bybit => true
  | _, _ => false
  end.

(** [a ?? b] *)
Definition nullish {A} (a : option A) (b : A) : A :=
  match a with Some v => v | None => b end.

Module Signal.
Record t : Type := mk {
  id : option string;
  symbol : string;
  strategy : string;
  direction : SignalDirection;
  win_probability : num;
  expected_move_pct : num;
  regime : MarketRegime;
  ev_score : option num;
  kelly_score : option num;
  confidence : option num;
  entry_price : option num;
  stop_loss : option num;
  take_profit : option num;
  current_price : option num;
  atr : option num;
  timestamp : Z;
  spread_penalty : option num;
  signal_strength : option num;
}.
End Signal.

Module OrderBookLevel.
Record t : Type := mk { price : num; quantity : num }.
End OrderBookLevel.

Module OrderBook.
Record t : Type := mk {
  symbol : string;
  exchange : Exchange;
  bids : list OrderBookLevel.t;
  asks : list OrderBookLevel.t;
  timestamp : Z;
}.
End OrderBook.

Module RiskPhysicsConfig.
Record t : Type := mk {
  maxCapitalPerTrade : num;
  maxLeverage : num;
  minRiskReward : num;
  takerFee : num;
  defaultAtrMultiplierTp : num;
  defaultAtrMultiplierSl : num;
}.
End RiskPhysicsConfig.

Definition DEFAULT_RISK_PHYSICS_CONFIG : RiskPhysicsConfig.t :=
  RiskPhysicsConfig.mk (Fin 15) (Fin 10) (Fin (15 # 10)) (Fin (55 # 100000))
                       (Fin 2) (Fin (15 # 10)).

Module RiskLevels.
Record t : Type := mk {
  entryPrice : num;
  takeProfitPrice : num;
  stopLossPrice : num;
  breakEvenPrice : num;
  riskRewardRatio : num;
  atrMultiplier : num;
}.
End RiskLevels.

Module PositionSizing.
Record t : Type := mk {
  capital : num;
  positionSize : num;
  quantity : num;
  leverage : num;
}.
End PositionSizing.

Module AlphaRankerConfig.
Record t : Type := mk {
  minEvScore : num;
  minKellyScore : num;
  takerFee : num;
  slippageBuffer : num;
}.
End AlphaRankerConfig.

Definition DEFAULT_ALPHA_RANKER_CONFIG : AlphaRankerConfig.t :=
  AlphaRankerConfig.mk (Fin (2 # 100)) (Fin 0) (Fin (55 # 100000)) (Fin (5 # 100)).

(** [EvaluatedSignal extends Signal]: the spread of the signal plus the
    computed metrics (which shadow the optional fields of the same name) *)
Module EvaluatedSignal.
Record t : Type := mk {
  signal : Signal.t;
  spread_penalty : num;
  gross_roi : num;
  round_trip_fees : num;
  net_roi : num;
  ev_score : num;
  kelly_score : num;
  reward_to_risk : num;
  risk_pct : num;
}.
End EvaluatedSignal.

(* ================================================================== *)
(** * Risk Physics (risk-physics.ts)                                   *)
(* ================================================================== *)

Module RiskPhysics.
Import Utils.

Section WithConfig.
Variable config : RiskPhysicsConfig.t.

Definition calculate_break_even (entryPrice : num) (direction : SignalDirection)
  : num :=
  let totalFeePct := mul (RiskPhysicsConfig.takerFee config) (Fin 2) in
  match direction with
  | LONG => mul entryPrice (add (Fin 1) totalFeePct)
  | SHORT => mul entryPrice (sub (Fin 1) totalFeePct)
  end.

Definition calculate_tp_sl (signal : Signal.t)
           (customTpMultiplier customSlMultiplier : option num)
  : result RiskLevels.t :=
  let entryPrice :=
    nullish (Signal.current_price signal)
            (nullish (Signal.entry_price signal) (Fin 0)) in
  let atr := nullish (Signal.atr signal) (Fin 0) in
  if eqb entryPrice (Fin 0)
  then Throw "Signal must have current_price or entry_price for TP/SL calculation"
  else if eqb atr (Fin 0)
  then Throw "Signal must have atr for TP/SL calculation"
  else
    let tpMultiplier :=
      nullish customTpMultiplier (RiskPhysicsConfig.defaultAtrMultiplierTp config) in
    let slMultiplier :=
      nullish customSlMultiplier (RiskPhysicsConfig.defaultAtrMultiplierSl config) in
    let tpDistance := mul atr tpMultiplier in
    let slDistance := mul atr slMultiplier in
    let '(takeProfitPrice, stopLossPrice) :=
      match Signal.direction signal with
      | LONG => (add entryPrice tpDistance, sub entryPrice slDistance)
      | SHORT => (sub entryPrice tpDistance, add entryPrice slDistance)
      end in
    let breakEvenPrice :=
      calculate_break_even entryPrice (Signal.direction signal) in
    let riskRewardRatio :=
      if gtb slDistance (Fin 0) then div tpDistance slDistance else Fin 0 in
    Ok (RiskLevels.mk entryPrice takeProfitPrice stopLossPrice
                      breakEvenPrice riskRewardRatio slMultiplier).

(** default arguments of [calculate_position_size] *)
Definition default_tickSize : num := Fin (1 # 100).
Definition default_qtyStep : num := Fin (1 # 1000).

Definition calculate_position_size (signal : Signal.t)
           (riskLevels : RiskLevels.t) (tickSize qtyStep : num)
  : result PositionSizing.t :=
  let maxCapital := RiskPhysicsConfig.maxCapitalPerTrade config in
  let currentPrice :=
    nullish (Signal.current_price signal)
            (nullish (Signal.entry_price signal) (Fin 0)) in
  if eqb currentPrice (Fin 0)
  then Throw "Signal must have current_price or entry_price for position sizing"
  else
    let riskDistance :=
      abs (sub currentPrice (RiskLevels.stopLossPrice riskLevels)) in
    let riskPct := div riskDistance currentPrice in
    let maxRiskPerTrade := mul maxCapital (Fin (2 # 100)) in
    let positionSize0 := div maxRiskPerTrade riskDistance in
    let maxPositionByCapital := div maxCapital currentPrice in
    let positionSize := min positionSize0 maxPositionByCapital in
    match round_to_qty_step positionSize qtyStep Down with
    | Throw msg => Throw msg
    | Ok quantity =>
        let positionValue := mul quantity currentPrice in
        let leverage :=
          if gtb positionValue maxCapital
          then ceil (div positionValue maxCapital)
          else Fin 1 in
        Ok (PositionSizing.mk maxCapital positionValue quantity
              (min leverage (RiskPhysicsConfig.maxLeverage config)))
    end.

End WithConfig.
End RiskPhysics.

(** [calculate_break_even] and [calculate_tp_sl] with the arithmetic of
    binary64: the same text, each operation rounded *)
Module RiskPhysics64.

Section WithConfig.
Variable config : RiskPhysicsConfig.t.

Definition calculate_break_even (entryPrice : num) (direction : SignalDirection)
  : num :=
  let totalFeePct := Binary64.mul (RiskPhysicsConfig.takerFee config) (Fin 2) in
  match direction with
  | LONG => Binary64.mul entryPrice (Binary64.add (Fin 1) totalFeePct)
  | SHORT => Binary64.mul entryPrice (Binary64.sub (Fin 1) totalFeePct)
  end.

Definition calculate_tp_sl (signal : Signal.t)
           (customTpMultiplier customSlMultiplier : option num)
  : result RiskLevels.t :=
  let entryPrice :=
    nullish (Signal.current_price signal)
            (nullish (Signal.entry_price signal) (Fin 0)) in
  let atr := nullish (Signal.atr signal) (Fin 0) in
  if eqb entryPrice (Fin 0)
  then Throw "Signal must have current_price or entry_price for TP/SL calculation"
  else if eqb atr (Fin 0)
  then Throw "Signal must have atr for TP/SL calculation"
  else
    let tpMultiplier :=
      nullish customTpMultiplier (RiskPhysicsConfig.defaultAtrMultiplierTp config) in
    let slMultiplier :=
      nullish customSlMultiplier (RiskPhysicsConfig.defaultAtrMultiplierSl config) in
    let tpDistance := Binary64.mul atr tpMultiplier in
    let slDistance := Binary64.mul atr slMultiplier in
    let '(takeProfitPrice, stopLossPrice) :=
      match Signal.direction signal with
      | LONG => (Binary64.add entryPrice tpDistance,
                 Binary64.sub entryPrice slDistance)
      | SHORT => (Binary64.sub entryPrice tpDistance,
                  Binary64.add entryPrice slDistance)
      end in
    let breakEvenPrice :=
      calculate_break_even entryPrice (Signal.direction signal) in
    let riskRewardRatio :=
      if gtb slDistance (Fin 0) then Binary64.div tpDistance slDistance
      else Fin 0 in
    Ok (RiskLevels.mk entryPrice takeProfitPrice stopLossPrice
                      breakEvenPrice riskRewardRatio slMultiplier).

End WithConfig.
End RiskPhysics64.

(* ================================================================== *)
(** * Alpha Ranker (alpha-ranker.ts)                                   *)
(* ================================================================== *)

(** [Array.prototype.sort(compareFn)].  The sort is stable and places [a]
    before [b] whenever the comparator is negative on [(a, b)]; a NaN
    comparator value counts as 0.  For a consistent comparator this fixes
    the result, computed here by stable insertion: an element moves past
    the elements the comparator puts strictly before it. *)
Section JsSort.
Context {A : Type}.
Variable compareFn : A -> A -> num.

Fixpoint sort_insert (x : A) (l : list A) : list A :=
  match l with
  | [] => [x]
  | y :: l' =>
      if gtb (compareFn x y) (Fin 0)
      then y :: sort_insert x l'
      else x :: l
  end.

Definition js_sort (l : list A) : list A :=
  fold_right sort_insert [] l.
End JsSort.

Module AlphaRanker.

(** [levels[0]?.price ?? 0] *)
Definition best_price (levels : list OrderBookLevel.t) : num :=
  match levels with
  | [] => Fin 0
  | l :: _ => OrderBookLevel.price l
  end.

Section WithConfig.
Variable config : AlphaRankerConfig.t.

Definition calculate_spread_penalty (orderBook : OrderBook.t) : num :=
  let bestBid := best_price (OrderBook.bids orderBook) in
  let bestAsk := best_price (OrderBook.asks orderBook) in
  if eqb bestBid (Fin 0) || eqb bestAsk (Fin 0) then Fin 0
  else
    let midPrice := div (add bestBid bestAsk) (Fin 2) in
    let spread := sub bestAsk bestBid in
    mul (div spread midPrice) (Fin 100).

(** returns [(entryPrice, spreadCost)] *)
Definition calculate_effective_entry (direction : SignalDirection)
           (orderBook : OrderBook.t) : num * num :=
  let bestBid := best_price (OrderBook.bids orderBook) in
  let bestAsk := best_price (OrderBook.asks orderBook) in
  if eqb bestBid (Fin 0) || eqb bestAsk (Fin 0) then (Fin 0, Fin 0)
  else
    let midPrice := div (add bestBid bestAsk) (Fin 2) in
    let slippagePct := AlphaRankerConfig.slippageBuffer config in
    match direction with
    | LONG =>
        let entryPrice :=
          mul bestAsk (add (Fin 1) (div slippagePct (Fin 100))) in
        (entryPrice, sub entryPrice midPrice)
    | SHORT =>
        let entryPrice :=
          mul bestBid (sub (Fin 1) (div slippagePct (Fin 100))) in
        (entryPrice, sub midPrice entryPrice)
    end.

Definition calculate_round_trip_fees (entryValue : num) : num :=
  let entryFee := mul entryValue (AlphaRankerConfig.takerFee config) in
  let exitFee := mul entryValue (AlphaRankerConfig.takerFee config) in
  add entryFee exitFee.

Definition evaluate_signal (signal : Signal.t) (orderBook : OrderBook.t)
  : EvaluatedSignal.t :=
  let entryPrice :=
    fst (calculate_effective_entry (Signal.direction signal) orderBook) in
  let spreadPenalty := calculate_spread_penalty orderBook in
  let moveMultiplier := div (Signal.expected_move_pct signal) (Fin 100) in
  let targetPrice :=
    match Signal.direction signal with
    | LONG => mul entryPrice (add (Fin 1) moveMultiplier)
    | SHORT => mul entryPrice (sub (Fin 1) moveMultiplier)
    end in
  let capital := Fin 15 in
  let positionValue := capital in
  let grossRoi := Signal.expected_move_pct signal in
  let roundTripFees := calculate_round_trip_fees positionValue in
  let feesAsPct := mul (div roundTripFees positionValue) (Fin 100) in
  let netRoi := sub (sub grossRoi spreadPenalty) feesAsPct in
  let atr := nullish (Signal.atr signal) (Fin 0) in
  let currentPrice := nullish (Signal.current_price signal) (Fin 0) in
  let riskPct :=
    if gtb atr (Fin 0) && gtb currentPrice (Fin 0)
    then mul (div atr currentPrice) (Fin 100)
    else div (Signal.expected_move_pct signal) (Fin 2) in
  let rewardToRisk :=
    if gtb riskPct (Fin 0) then div netRoi riskPct else Fin 0 in
  let winProb := Signal.win_probability signal in
  let lossProb := sub (Fin 1) winProb in
  let evScore := sub (mul winProb netRoi) (mul lossProb riskPct) in
  let kellyScore :=
    if gtb rewardToRisk (Fin 0)
    then max (Fin 0)
             (min (Fin (25 # 100)) (sub winProb (div lossProb rewardToRisk)))
    else Fin 0 in
  EvaluatedSignal.mk signal spreadPenalty grossRoi feesAsPct netRoi
                     evScore kellyScore rewardToRisk riskPct.

(** the combined score of the comparator of [evaluate_and_sort] *)
Definition combined_score (s : EvaluatedSignal.t) : num :=
  add (mul (EvaluatedSignal.ev_score s) (Fin (6 # 10)))
      (mul (mul (EvaluatedSignal.kelly_score s) (Fin 100)) (Fin (4 # 10))).

Definition evaluate_and_sort (signals : list Signal.t) (orderBook : OrderBook.t)
  : list EvaluatedSignal.t :=
  let evaluatedSignals :=
    map (fun signal => evaluate_signal signal orderBook) signals in
  let filteredSignals :=
    filter (fun signal =>
              let meetsMinEv :=
                geb (EvaluatedSignal.ev_score signal)
                    (AlphaRankerConfig.minEvScore config) in
              let meetsMinKelly :=
                geb (EvaluatedSignal.kelly_score signal)
                    (AlphaRankerConfig.minKellyScore config) in
              let positiveNetRoi :=
                gtb (EvaluatedSignal.net_roi signal) (Fin 0) in
              meetsMinEv && meetsMinKelly && positiveNetRoi)
           evaluatedSignals in
  js_sort (fun a b => sub (combined_score b) (combined_score a))
          filteredSignals.

Definition pick_apex_signal (evaluatedSignals : list EvaluatedSignal.t)
  : option EvaluatedSignal.t :=
  match evaluatedSignals with
  | [] => None
  | s :: _ => Some s
  end.

Definition calculate_kelly_fraction (winProbability rewardToRisk : num) : num :=
  if leb rewardToRisk (Fin 0) then Fin 0
  else
    let fullKelly :=
      sub winProbability (div (sub (Fin 1) winProbability) rewardToRisk) in
    let halfKelly := div fullKelly (Fin 2) in
    max (Fin 0) (min (Fin (25 # 100)) halfKelly).

End WithConfig.
End AlphaRanker.

(* ================================================================== *)
(** * The outside world: venue clients and the notification channel   *)
(* ================================================================== *)

Module InstrumentInfo.
Record t : Type := mk { tickSize : num; qtyStep : num; minNotional : num }.
End InstrumentInfo.

(** acknowledgement of [placeOrder]; numeric strings are held parsed,
    [None] standing for an absent or empty field *)
Module OrderAck.
Record t : Type := mk {
  orderId : string;
  orderLinkId : string;
  symbol : string;
  side : string;
  type : string;
  qty : option num;
  price : option num;
  takeProfit : option num;
  stopLoss : option num;
  status : string;
}.
End OrderAck.

(** a position as a venue client reports it ([positionAmt] / [size] parsed) *)
Module ClientPosition.
Record t : Type := mk {
  symbol : string;
  side : string;
  amount : num;
  entryPrice : num;
  unrealizedPnl : num;
}.
End ClientPosition.

(** a kline of either venue, prices parsed *)
Module Kline.
Record t : Type := mk {
  startTime : Z;
  openPrice : num;
  highPrice : num;
  lowPrice : num;
  closePrice : num;
  volume : num;
}.
End Kline.

(** every operation invoked on an external collaborator *)
Inductive Call : Type :=
| CGetInstrumentInfo (e : Exchange) (symbol : string)
| CSetLeverage (symbol : string) (buyLeverage sellLeverage : num)
| CPlaceOrder (e : Exchange) (symbol side : string) (qty : num)
              (takeProfit stopLoss : option num)
| CGetPositions (e : Exchange)
| CSetTradingStop (symbol : string) (takeProfit stopLoss : option num)
| CGetKlines (e : Exchange) (symbol : string)
| CSendMessage (text : string).

(** the calls that reach an exchange venue (all but the notification) *)
Definition is_venue_call (c : Call) : bool :=
  match c with
  | CSendMessage _ => false
  | _ => true
  end.

(** calls that submit or alter something on the venue *)
Definition is_order_call (c : Call) : bool :=
  match c with
  | CPlaceOrder _ _ _ _ _ _ | CSetLeverage _ _ _ => true
  | _ => false
  end.

(** The behaviour of the collaborators: what each operation answers (a
    value, or a thrown error) given the calls made so far. *)
Module Venue.
Record t : Type := mk {
  getInstrumentInfo :
    list Call -> Exchange -> string -> result (option InstrumentInfo.t);
  setLeverage : list Call -> string -> num -> num -> result unit;
  placeOrder :
    list Call -> Exchange -> string -> string -> num -> option num ->
    option num -> result OrderAck.t;
  getPositions : list Call -> Exchange -> result (list ClientPosition.t);
  setTradingStop :
    list Call -> string -> option num -> option num -> result unit;
  getKlines : list Call -> Exchange -> string -> result (list Kline.t);
  sendMessage : list Call -> string -> result unit;
  now : Z;
}.
End Venue.

(* ================================================================== *)
(** * Positions and the Bot State Store (bot-state.ts)                 *)
(* ================================================================== *)

Inductive PositionStatus : Type := open | closed | liquidated.

Module Position.
Record t : Type := mk {
  id : string;
  symbol : string;
  exchange : Exchange;
  side : SignalDirection;
  size : num;
  entry_price : num;
  current_price : option num;
  leverage : num;
  margin : num;
  unrealized_pnl : option num;
  realized_pnl : option num;
  stop_loss : option num;
  take_profit : option num;
  status : PositionStatus;
}.

Definition with_current_price (p : t) (v : num) : t :=
  mk (id p) (symbol p) (exchange p) (side p) (size p) (entry_price p)
     (Some v) (leverage p) (margin p) (unrealized_pnl p) (realized_pnl p)
     (stop_loss p) (take_profit p) (status p).

Definition with_tp_sl (p : t) (sl tp : option num) : t :=
  mk (id p) (symbol p) (exchange p) (side p) (size p) (entry_price p)
     (current_price p) (leverage p) (margin p) (unrealized_pnl p)
     (realized_pnl p) sl tp (status p).
End Position.

Inductive BotStateStatus : Type :=
| idle | running | paused | stopping | error | shutting_down | stopped.

Module ShutdownState.
Record t : Type := mk {
  isShuttingDown : bool;
  shutdownTimestamp : option Z;
  shutdownReason : option string;
  positionsBeforeShutdown : list Position.t;
  positionsUpdated : list Position.t;
  errors : list string;
  shutdownComplete : bool;
}.

Definition initial : t := mk false None None [] [] [] false.
End ShutdownState.

(** The part of [BotStateManager] the shutdown protocol touches: the
    status, the active positions (in insertion order, keyed by id) and the
    shutdown state. *)
Module BotStateManager.
Record t : Type := mk {
  status : BotStateStatus;
  activePositions : list (string * Position.t);
  shutdownState : ShutdownState.t;
}.

Definition setStatus (st : BotStateStatus) (b : t) : t :=
  mk st (activePositions b) (shutdownState b).

Definition getActivePositions (b : t) : list Position.t :=
  map snd (activePositions b).

Definition getOpenPositions (b : t) : list Position.t :=
  getActivePositions b.

Definition set_shutdown (s : ShutdownState.t) (b : t) : t :=
  mk (status b) (activePositions b) s.

Definition initiateShutdown (now : Z) (reason : string) (b : t) : t :=
  let s := shutdownState b in
  setStatus stopping
    (set_shutdown
       (ShutdownState.mk true (Some now) (Some reason)
          (getActivePositions b)
          (ShutdownState.positionsUpdated s)
          []
          false) b).

Definition setShutdownPositionsFetched (positions : list Position.t) (b : t) : t :=
  let s := shutdownState b in
  set_shutdown
    (ShutdownState.mk (ShutdownState.isShuttingDown s)
       (ShutdownState.shutdownTimestamp s) (ShutdownState.shutdownReason s)
       positions (ShutdownState.positionsUpdated s)
       (ShutdownState.errors s) (ShutdownState.shutdownComplete s)) b.

Definition addShutdownPositionUpdated (position : Position.t)
           (newSL newTP : option num) (b : t) : t :=
  let s := shutdownState b in
  let updatedPosition :=
    Position.with_tp_sl position
      (match newSL with Some v => Some v | None => Position.stop_loss position end)
      (match newTP with Some v => Some v | None => Position.take_profit position end) in
  set_shutdown
    (ShutdownState.mk (ShutdownState.isShuttingDown s)
       (ShutdownState.shutdownTimestamp s) (ShutdownState.shutdownReason s)
       (ShutdownState.positionsBeforeShutdown s)
       (ShutdownState.positionsUpdated s ++ [updatedPosition])
       (ShutdownState.errors s) (ShutdownState.shutdownComplete s)) b.

Definition addShutdownError (err : string) (b : t) : t :=
  let s := shutdownState b in
  set_shutdown
    (ShutdownState.mk (ShutdownState.isShuttingDown s)
       (ShutdownState.shutdownTimestamp s) (ShutdownState.shutdownReason s)
       (ShutdownState.positionsBeforeShutdown s)
       (ShutdownState.positionsUpdated s)
       (ShutdownState.errors s ++ [err]) (ShutdownState.shutdownComplete s)) b.

Definition completeShutdown (b : t) : t :=
  let s := shutdownState b in
  setStatus idle
    (set_shutdown
       (ShutdownState.mk false
          (ShutdownState.shutdownTimestamp s) (ShutdownState.shutdownReason s)
          (ShutdownState.positionsBeforeShutdown s)
          (ShutdownState.positionsUpdated s)
          (ShutdownState.errors s) true) b).
End BotStateManager.

(* ================================================================== *)
(** * Effects: system state and a state-and-exception monad            *)
(* ================================================================== *)

(** What the asynchronous code reads and writes between calls: the log of
    calls made on the collaborators, the router's instrument cache, the
    Bot State Store singleton and the activity log (event names). *)
Module Sys.
Record t : Type := mk {
  calls : list Call;
  instrumentCache : list ((Exchange * string) * InstrumentInfo.t);
  botState : BotStateManager.t;
  activity : list string;
}.
End Sys.

Definition M (A : Type) : Type := Sys.t -> result A * Sys.t.

Definition ret {A} (a : A) : M A := fun s => (Ok a, s).

Definition throw {A} (msg : string) : M A := fun s => (Throw msg, s).

Definition bind {A B} (m : M A) (k : A -> M B) : M B :=
  fun s =>
    match m s with
    | (Ok a, s') => k a s'
    | (Throw msg, s') => (Throw msg, s')
    end.

(** [try { m } catch (error) { handler(error.message) }] *)
Definition try_catch {A} (m : M A) (handler : string -> M A) : M A :=
  fun s =>
    match m s with
    | (Ok a, s') => (Ok a, s')
    | (Throw msg, s') => handler msg s'
    end.

Declare Scope monad_scope.
Delimit Scope monad_scope with monad.
Notation "x <- m ;; k" := (bind m (fun x => k))
  (at level 61, m at next level, right associativity) : monad_scope.
Notation "m ;;; k" := (bind m (fun _ => k))
  (at level 61, right associativity) : monad_scope.
Local Open Scope monad_scope.

(** an update of the Bot State Store *)
Definition on_store (f : BotStateManager.t -> BotStateManager.t) : M unit :=
  fun s =>
    (Ok tt, Sys.mk (Sys.calls s) (Sys.instrumentCache s) (f (Sys.botState s))
                   (Sys.activity s)).

Definition get_store : M BotStateManager.t := fun s => (Ok (Sys.botState s), s).

(** [activityLogger.log(event, ...)] *)
Definition log_activity (event : string) : M unit :=
  fun s =>
    (Ok tt, Sys.mk (Sys.calls s) (Sys.instrumentCache s) (Sys.botState s)
                   (event :: Sys.activity s)).

(** an awaited operation of a collaborator: the call is recorded, and the
    collaborator answers from the calls made before it *)
Definition perform {A} (c : Call) (answer : list Call -> result A) : M A :=
  fun s =>
    (answer (Sys.calls s),
     Sys.mk (Sys.calls s ++ [c]) (Sys.instrumentCache s) (Sys.botState s)
            (Sys.activity s)).

(* ================================================================== *)
(** * Execution Router (execution-router.ts)                           *)
(* ================================================================== *)

Module TradeSignal.
Inductive t : Type := LONG | SHORT | CLOSE_LONG | CLOSE_SHORT.

(** [signal === 'LONG' || signal === 'CLOSE_SHORT'] *)
Definition is_buy (s : t) : bool :=
  match s with
  | LONG | CLOSE_SHORT => true
  | _ => false
  end.
End TradeSignal.

Module TradeParams.
Record t : Type := mk {
  signal : TradeSignal.t;
  symbol : string;
  currentPrice : num;
  atr : num;
  walletBalance : num;
  leverage : option num;
  riskPercent : option num;
  rewardRiskRatio : option num;
}.
End TradeParams.

(** the [RiskPhysics] interface of the router (not the Risk Sizer class) *)
Module RouterRisk.
Record t : Type := mk {
  entryPrice : num;
  stopLoss : num;
  takeProfit : num;
  positionSize : num;
  positionValue : num;
  riskAmount : num;
  rewardAmount : num;
  riskPercent : num;
  leverage : num;
  liquidationPrice : num;
  isValid : bool;
  validationErrors : list string;
}.
End RouterRisk.

(** the uniform result record (the timestamp is left out) *)
Module TradeResult.
Record t : Type := mk {
  success : bool;
  exchange : Exchange;
  orderId : option string;
  symbol : string;
  side : string;
  type : string;
  quantity : num;
  price : option num;
  takeProfit : option num;
  stopLoss : option num;
  status : string;
  message : string;
  riskPhysics : option RouterRisk.t;
}.
End TradeResult.

Module ExecutionRouterConfig.
Record t : Type := mk {
  defaultExchange : Exchange;
  defaultLeverage : num;
  defaultRiskPercent : num;
  defaultRewardRiskRatio : num;
  maxCapitalPerTrade : num;
  minCapitalRequired : num;
}.
End ExecutionRouterConfig.

Module ExecutionRouter.
Local Open Scope string_scope.

(** a router: its configuration and which venue clients the constructor
    created (a client exists only when its credentials were given) *)
Record t : Type := mk {
  config : ExecutionRouterConfig.t;
  mexcClient : bool;
  bybitClient : bool;
}.

Section WithVenue.
Variable venue : Venue.t.
Variable router : t.

Let cfg := config router.

Definition cache_key_eqb (a b : Exchange * string) : bool :=
  Exchange_eqb (fst a) (fst b) && String.eqb (snd a) (snd b).

Fixpoint cache_get (key : Exchange * string)
         (cache : list ((Exchange * string) * InstrumentInfo.t))
  : option InstrumentInfo.t :=
  match cache with
  | [] => None
  | (k, v) :: rest => if cache_key_eqb key k then Some v else cache_get key rest
  end.

Definition cache_set (key : Exchange * string) (v : InstrumentInfo.t) : M unit :=
  fun s =>
    (Ok tt, Sys.mk (Sys.calls s) ((key, v) :: Sys.instrumentCache s)
                   (Sys.botState s) (Sys.activity s)).

Definition default_instrument : InstrumentInfo.t :=
  InstrumentInfo.mk (Fin (1 # 100)) (Fin (1 # 1000)) (Fin 5).

(** the venue is asked only on a cache miss and only when the client of
    the exchange exists *)
Definition getInstrumentInfo (exchange : Exchange) (symbol : string)
  : M InstrumentInfo.t :=
  fun s =>
    match cache_get (exchange, symbol) (Sys.instrumentCache s) with
    | Some info => (Ok info, s)
    | None =>
        (instrumentInfo <-
           (if Exchange_eqb exchange mexc && mexcClient router
            then perform (CGetInstrumentInfo mexc symbol)
                   (fun h => Venue.getInstrumentInfo venue h mexc symbol)
            else if Exchange_eqb exchange bybit && bybitClient router
            then perform (CGetInstrumentInfo bybit symbol)
                   (fun h => Venue.getInstrumentInfo venue h bybit symbol)
            else ret None) ;;
         match instrumentInfo with
         | Some info => cache_set (exchange, symbol) info ;;; ret info
         | None => ret default_instrument
         end) s
    end.

(** validation messages carry the amounts in the source; only their
    fixed text is kept *)
Definition calculateRiskPhysics (signal : TradeSignal.t)
           (currentPrice atr walletBalance : num)
           (leverage riskPercent rewardRiskRatio : option num)
  : RouterRisk.t :=
  let leverage := nullish leverage (ExecutionRouterConfig.defaultLeverage cfg) in
  let riskPercent :=
    nullish riskPercent (ExecutionRouterConfig.defaultRiskPercent cfg) in
  let rewardRiskRatio :=
    nullish rewardRiskRatio (ExecutionRouterConfig.defaultRewardRiskRatio cfg) in
  let riskAmount := mul walletBalance (div riskPercent (Fin 100)) in
  let atrMultiplier := Fin (15 # 10) in
  let stopLossDistance := mul atr atrMultiplier in
  let '(stopLoss0, takeProfit) :=
    if TradeSignal.is_buy signal
    then (sub currentPrice stopLossDistance,
          add currentPrice (mul stopLossDistance rewardRiskRatio))
    else (add currentPrice stopLossDistance,
          sub currentPrice (mul stopLossDistance rewardRiskRatio)) in
  let '(stopLoss, errors1) :=
    if leb stopLoss0 (Fin 0)
    then (mul currentPrice (Fin (95 # 100)),
          ["Stop loss calculated as negative, using 5% fallback"%string])
    else (stopLoss0, []) in
  let stopLossPercent := div (abs (sub currentPrice stopLoss)) currentPrice in
  let positionSize0 := div riskAmount stopLossDistance in
  let positionValue := mul positionSize0 currentPrice in
  let marginRequired := div positionValue leverage in
  let errors2 :=
    if ltb marginRequired (ExecutionRouterConfig.minCapitalRequired cfg)
    then (errors1 ++ ["Margin required is below minimum"])%list
    else errors1 in
  let '(positionSize, errors3) :=
    if gtb positionValue (ExecutionRouterConfig.maxCapitalPerTrade cfg)
    then (div (ExecutionRouterConfig.maxCapitalPerTrade cfg) currentPrice,
          (errors2 ++ ["Position size scaled down to max capital"])%list)
    else (positionSize0, errors2) in
  let liquidationPrice :=
    match signal with
    | TradeSignal.LONG =>
        mul currentPrice (sub (Fin 1) (div (Fin (9 # 10)) leverage))
    | _ => mul currentPrice (add (Fin 1) (div (Fin (9 # 10)) leverage))
    end in
  let rewardAmount := mul riskAmount rewardRiskRatio in
  let isValid :=
    (Nat.eqb (List.length errors3) 0)
    && geb marginRequired (ExecutionRouterConfig.minCapitalRequired cfg)
    && gtb positionSize (Fin 0) in
  RouterRisk.mk currentPrice stopLoss takeProfit positionSize
                (mul positionSize currentPrice) riskAmount rewardAmount
                riskPercent leverage liquidationPrice isValid errors3.

Definition roundPrice (price tickSize : num) : num :=
  let precision := ceil_neg_log10 tickSize in
  let multiplier := pow10 precision in
  div (round (mul price multiplier)) multiplier.

Definition roundQty (qty qtyStep : num) : num :=
  let precision := ceil_neg_log10 qtyStep in
  let multiplier := pow10 precision in
  div (floor (mul qty multiplier)) multiplier.

Definition side_upper (signal : TradeSignal.t) : string :=
  if TradeSignal.is_buy signal then "BUY" else "SELL".

Definition side_capitalised (signal : TradeSignal.t) : string :=
  if TradeSignal.is_buy signal then "Buy" else "Sell".

(** [executeMexcTrade]: an [async] method, so its guard throws inside
    the promise it returns *)
Definition executeMexcTrade (params : TradeParams.t)
           (qty price takeProfit stopLoss : num) (riskPhysics : RouterRisk.t)
  : M TradeResult.t :=
  if negb (mexcClient router) then throw "MEXC client not configured"
  else
    let side := side_upper (TradeParams.signal params) in
    try_catch
      (order <- perform
                  (CPlaceOrder mexc (TradeParams.symbol params) side qty
                               (Some takeProfit) (Some stopLoss))
                  (fun h => Venue.placeOrder venue h mexc
                              (TradeParams.symbol params) side qty
                              (Some takeProfit) (Some stopLoss)) ;;
       ret (TradeResult.mk true mexc (Some (OrderAck.orderId order))
              (OrderAck.symbol order) (OrderAck.side order)
              (OrderAck.type order)
              (nullish (OrderAck.qty order) qty)
              (Some (nullish (OrderAck.price order) price))
              (Some takeProfit) (Some stopLoss)
              (OrderAck.status order)
              "Order placed successfully on MEXC" (Some riskPhysics)))
      (fun errorMessage =>
         ret (TradeResult.mk false mexc None (TradeParams.symbol params)
                side "MARKET" qty None None None "ERROR"
                ("MEXC order error: " ++ errorMessage) (Some riskPhysics))).

Definition executeBybitTrade (params : TradeParams.t)
           (qty price takeProfit stopLoss : num) (riskPhysics : RouterRisk.t)
  : M TradeResult.t :=
  if negb (bybitClient router) then throw "Bybit client not configured"
  else
    let side := side_capitalised (TradeParams.signal params) in
    try_catch
      (perform (CSetLeverage (TradeParams.symbol params)
                             (RouterRisk.leverage riskPhysics)
                             (RouterRisk.leverage riskPhysics))
               (fun h => Venue.setLeverage venue h (TradeParams.symbol params)
                           (RouterRisk.leverage riskPhysics)
                           (RouterRisk.leverage riskPhysics)) ;;;
       order <- perform
                  (CPlaceOrder bybit (TradeParams.symbol params) side qty
                               (Some takeProfit) (Some stopLoss))
                  (fun h => Venue.placeOrder venue h bybit
                              (TradeParams.symbol params) side qty
                              (Some takeProfit) (Some stopLoss)) ;;
       ret (TradeResult.mk true bybit (Some (OrderAck.orderId order))
              (OrderAck.symbol order) (OrderAck.side order)
              (OrderAck.type order)
              (nullish (OrderAck.qty order) qty)
              (Some (nullish (OrderAck.price order) price))
              (Some (nullish (OrderAck.takeProfit order) takeProfit))
              (Some (nullish (OrderAck.stopLoss order) stopLoss))
              (OrderAck.status order)
              "Order placed successfully on Bybit" (Some riskPhysics)))
      (fun errorMessage =>
         ret (TradeResult.mk false bybit None (TradeParams.symbol params)
                side "Market" qty None None None "ERROR"
                ("Bybit order error: " ++ errorMessage) (Some riskPhysics))).

(** What the [try] block of [executeTrade] evaluates to: a result it
    returns itself, or the promise of the venue-specific method, which
    it returns without awaiting it. *)
Inductive Returned : Type :=
| Value (r : TradeResult.t)
| Promise (p : M TradeResult.t).

Definition executeTrade (params : TradeParams.t) : M TradeResult.t :=
  let exchange := ExecutionRouterConfig.defaultExchange cfg in
  let side := side_upper (TradeParams.signal params) in
  let rejected qty message riskPhysics :=
    TradeResult.mk false exchange None (TradeParams.symbol params) side
                   "MARKET" qty None None None "REJECTED" message
                   (Some riskPhysics) in
  returned <-
    try_catch
      (let riskPhysics :=
         calculateRiskPhysics (TradeParams.signal params)
           (TradeParams.currentPrice params) (TradeParams.atr params)
           (TradeParams.walletBalance params) (TradeParams.leverage params)
           (TradeParams.riskPercent params)
           (TradeParams.rewardRiskRatio params) in
       if negb (RouterRisk.isValid riskPhysics)
       then ret (Value (rejected (RouterRisk.positionSize riskPhysics)
                          "Risk validation failed" riskPhysics))
       else
         instrumentInfo <- getInstrumentInfo exchange (TradeParams.symbol params) ;;
         let roundedQty :=
           roundQty (RouterRisk.positionSize riskPhysics)
                    (InstrumentInfo.qtyStep instrumentInfo) in
         let roundedPrice :=
           roundPrice (TradeParams.currentPrice params)
                      (InstrumentInfo.tickSize instrumentInfo) in
         let roundedTP :=
           roundPrice (RouterRisk.takeProfit riskPhysics)
                      (InstrumentInfo.tickSize instrumentInfo) in
         let roundedSL :=
           roundPrice (RouterRisk.stopLoss riskPhysics)
                      (InstrumentInfo.tickSize instrumentInfo) in
         let notionalValue := mul roundedQty roundedPrice in
         if ltb notionalValue (InstrumentInfo.minNotional instrumentInfo)
         then ret (Value (rejected roundedQty
                            "Notional value below minimum" riskPhysics))
         else if ltb notionalValue (ExecutionRouterConfig.minCapitalRequired cfg)
         then ret (Value (rejected roundedQty
                            "Trade value below minimum capital requirement"
                            riskPhysics))
         else
           match exchange with
           | mexc =>
               ret (Promise (executeMexcTrade params roundedQty roundedPrice
                                              roundedTP roundedSL riskPhysics))
           | bybit =>
               ret (Promise (executeBybitTrade params roundedQty roundedPrice
                                               roundedTP roundedSL riskPhysics))
           end)
      (fun errorMessage =>
         ret (Value (TradeResult.mk false exchange None
                       (TradeParams.symbol params) side "MARKET" (Fin 0)
                       None None None "ERROR"
                       ("Trade execution error: " ++ errorMessage) None))) ;;
  match returned with
  | Value r => ret r
  | Promise p => p
  end.

(** [getPositions]: the loop over the client's answer keeps the
    positions of non-zero size; any error leaves the list empty *)
Definition getPositions (exchange : Exchange) : M (list ClientPosition.t) :=
  try_catch
    (if Exchange_eqb exchange mexc && mexcClient router
     then
       mexcPositions <- perform (CGetPositions mexc)
                          (fun h => Venue.getPositions venue h mexc) ;;
       ret (map (fun pos =>
                   ClientPosition.mk (ClientPosition.symbol pos)
                     (ClientPosition.side pos)
                     (abs (ClientPosition.amount pos))
                     (ClientPosition.entryPrice pos)
                     (ClientPosition.unrealizedPnl pos))
                (filter (fun pos => negb (eqb (ClientPosition.amount pos) (Fin 0)))
                        mexcPositions))
     else if Exchange_eqb exchange bybit && bybitClient router
     then
       bybitPositions <- perform (CGetPositions bybit)
                           (fun h => Venue.getPositions venue h bybit) ;;
       ret (filter (fun pos => negb (eqb (ClientPosition.amount pos) (Fin 0)))
                   bybitPositions)
     else ret [])
    (fun _ => ret []).

(** the part of the uniform result that [updateTpSl]'s caller reads *)
Definition updateTpSl (symbol : string) (takeProfit stopLoss : option num)
           (exchange : Exchange) : M (bool * string) :=
  try_catch
    (if Exchange_eqb exchange bybit && bybitClient router
     then
       perform (CSetTradingStop symbol takeProfit stopLoss)
               (fun h => Venue.setTradingStop venue h symbol takeProfit stopLoss) ;;;
       ret (true, "TP/SL updated successfully"%string)
     else if Exchange_eqb exchange mexc && mexcClient router
     then ret (false, "MEXC TP/SL update requires separate orders"%string)
     else throw "Exchange client not configured")
    (fun errorMessage =>
       ret (false, ("TP/SL update error: " ++ errorMessage)%string)).

End WithVenue.
End ExecutionRouter.

(* ================================================================== *)
(** * Immortal Exit Protocol (immortal-exit.ts)                        *)
(* ================================================================== *)

Module ImmortalExitConfig.
Record t : Type := mk {
  exchange : Exchange;
  defaultAtrMultiplierSL : num;
  defaultAtrMultiplierTP : num;
  maxRetries : Z;
  retryDelayMs : Z;
}.
End ImmortalExitConfig.

Module ReevaluatedPosition.
Record t : Type := mk {
  position : Position.t;
  newSL : num;
  newTP : num;
  oldSL : option num;
  oldTP : option num;
  updated : bool;
  error : option string;
}.

Definition with_error (r : t) (msg : string) : t :=
  mk (position r) (newSL r) (newTP r) (oldSL r) (oldTP r) (updated r) (Some msg).
End ReevaluatedPosition.

Module ImmortalExitProtocol.
Local Open Scope string_scope.

Definition DEFAULT_CONFIG : ImmortalExitConfig.t :=
  ImmortalExitConfig.mk bybit (Fin (15 # 10)) (Fin 2) 3 1000.

(** a protocol object: the re-entrancy flag, the router it was given,
    whether a Telegram bot was given, and its configuration *)
Record t : Type := mk {
  isShuttingDown : bool;
  router : ExecutionRouter.t;
  telegramBot : bool;
  config : ImmortalExitConfig.t;
}.

(** [new ImmortalExitProtocol(router, telegramBot, config)] *)
Definition new (router : ExecutionRouter.t) (telegramBot : bool)
           (config : ImmortalExitConfig.t) : t :=
  mk false router telegramBot config.

(** [createImmortalExit] *)
Definition createImmortalExit := new.

(** [this.isShuttingDown = true] *)
Definition mark_shutting_down (p : t) : t :=
  mk true (router p) (telegramBot p) (config p).

Definition to_upper_ascii (c : ascii) : ascii :=
  let n := nat_of_ascii c in
  if (97 <=? n)%nat && (n <=? 122)%nat then ascii_of_nat (n - 32) else c.

Fixpoint toUpperCase (s : string) : string :=
  match s with
  | EmptyString => EmptyString
  | String c r => String (to_upper_ascii c) (toUpperCase r)
  end.

Definition show_Z (z : Z) : string := NilZero.string_of_int (Z.to_int z).

(** [x || 0] on an optional number *)
Definition or_zero (x : option num) : num :=
  match x with
  | Some v => if truthy v then v else Fin 0
  | None => Fin 0
  end.

(** [!old || Math.abs(old - fresh) / old > 0.01] *)
Definition level_changed (old : option num) (fresh : num) : bool :=
  match old with
  | None => true
  | Some v => negb (truthy v) || gtb (div (abs (sub v fresh)) v) (Fin (1 # 100))
  end.

Section WithVenue.
Variable venue : Venue.t.
Variable this : t.

Let cfg := config this.
Let exchange := ImmortalExitConfig.exchange cfg.

(** the conversion of the venue's positions in [fetchOpenPositions] *)
Fixpoint convert_positions (index : nat) (ps : list ClientPosition.t)
  : list Position.t :=
  match ps with
  | [] => []
  | p :: rest =>
      let side := toUpperCase (ClientPosition.side p) in
      Position.mk
        (ClientPosition.symbol p ++ "-" ++ show_Z (Venue.now venue) ++ "-"
           ++ show_Z (Z.of_nat index))
        (ClientPosition.symbol p)
        exchange
        (if String.eqb side "BUY" || String.eqb side "LONG" then LONG else SHORT)
        (ClientPosition.amount p)
        (ClientPosition.entryPrice p)
        (Some (ClientPosition.entryPrice p))
        (Fin 1)
        (mul (ClientPosition.amount p) (ClientPosition.entryPrice p))
        (Some (ClientPosition.unrealizedPnl p))
        None None None open
      :: convert_positions (S index) rest
  end.

(** the retry loop of [fetchOpenPositions]; [None] when every attempt
    failed *)
Fixpoint fetch_attempts (remaining : nat) : M (option (list Position.t)) :=
  match remaining with
  | O => ret None
  | S remaining' =>
      attempt <-
        try_catch
          (positions <- ExecutionRouter.getPositions venue (router this) exchange ;;
           ret (Some (convert_positions 0 positions)))
          (fun _ => ret None) ;;
      match attempt with
      | Some positions => ret (Some positions)
      | None => fetch_attempts remaining'
      end
  end.

Definition fetchOpenPositions : M (list Position.t) :=
  fetched <- fetch_attempts (Z.to_nat (ImmortalExitConfig.maxRetries cfg)) ;;
  match fetched with
  | Some positions => ret positions
  | None =>
      store <- get_store ;;
      ret (BotStateManager.getOpenPositions store)
  end.

Definition candle_of_kline (k : Kline.t) : Utils.Candle :=
  Utils.mkCandle (Kline.startTime k) (Kline.openPrice k) (Kline.highPrice k)
                 (Kline.lowPrice k) (Kline.closePrice k) (Kline.volume k).

(** [fetchMarketData]: [(currentPrice, atr)], or [None] for [null] *)
Definition fetchMarketData (symbol : string) : M (option (num * num)) :=
  try_catch
    (if Exchange_eqb exchange bybit && ExecutionRouter.bybitClient (router this)
     then
       klines <- perform (CGetKlines bybit symbol)
                   (fun h => Venue.getKlines venue h bybit symbol) ;;
       if (List.length klines <? 15)%nat then ret None
       else
         let candles := map candle_of_kline klines in
         let atr := Utils.calculate_atr candles 14 in
         let currentPrice :=
           match klines with
           | k :: _ => Kline.closePrice k
           | [] => NaN
           end in
         ret (Some (currentPrice, atr))
     else if Exchange_eqb exchange mexc && ExecutionRouter.mexcClient (router this)
     then
       klines <- perform (CGetKlines mexc symbol)
                   (fun h => Venue.getKlines venue h mexc symbol) ;;
       if (List.length klines <? 15)%nat then ret None
       else
         let candles := map candle_of_kline klines in
         let atr := Utils.calculate_atr candles 14 in
         let currentPrice :=
           match rev klines with
           | k :: _ => Kline.closePrice k
           | [] => NaN
           end in
         ret (Some (currentPrice, atr))
     else ret None)
    (fun _ => ret None).

(** the record both failure paths of [reevaluatePosition] return *)
Definition not_reevaluated (position : Position.t) (msg : string)
  : ReevaluatedPosition.t :=
  ReevaluatedPosition.mk position
    (or_zero (Position.stop_loss position))
    (or_zero (Position.take_profit position))
    None None false (Some msg).

Definition reevaluatePosition (position : Position.t) : M ReevaluatedPosition.t :=
  try_catch
    (marketData <- fetchMarketData (Position.symbol position) ;;
     match marketData with
     | None => ret (not_reevaluated position "Failed to fetch market data")
     | Some (currentPrice, atr) =>
         let signalForCalc :=
           Signal.mk (Some (Position.id position)) (Position.symbol position)
             "IMMORTAL_EXIT" (Position.side position) (Fin (1 # 2))
             (mul (div atr currentPrice) (Fin 100)) RANGING
             (Some (Fin 0)) (Some (Fin 0)) (Some (Fin 1)) None None None
             (Some currentPrice) (Some atr) (Venue.now venue) None None in
         match RiskPhysics.calculate_tp_sl DEFAULT_RISK_PHYSICS_CONFIG
                 signalForCalc
                 (Some (ImmortalExitConfig.defaultAtrMultiplierTP cfg))
                 (Some (ImmortalExitConfig.defaultAtrMultiplierSL cfg)) with
         | Throw msg => throw msg
         | Ok riskLevels =>
             let newSL := RiskLevels.stopLossPrice riskLevels in
             let newTP := RiskLevels.takeProfitPrice riskLevels in
             let oldSL := Position.stop_loss position in
             let oldTP := Position.take_profit position in
             let slChanged := level_changed oldSL newSL in
             let tpChanged := level_changed oldTP newTP in
             let needsUpdate := slChanged || tpChanged in
             ret (ReevaluatedPosition.mk
                    (Position.with_current_price position currentPrice)
                    newSL newTP oldSL oldTP needsUpdate None)
         end
     end)
    (fun errorMessage => ret (not_reevaluated position errorMessage)).

(** the retry loop of [updatePositionOnExchange] *)
Fixpoint update_attempts (remaining : nat) (lastError : option string)
         (position : Position.t) (newSL newTP : num) : M unit :=
  match remaining with
  | O => throw (nullish lastError "Failed to update position")
  | S remaining' =>
      failure <-
        try_catch
          (result <- ExecutionRouter.updateTpSl venue (router this)
                       (Position.symbol position) (Some newTP) (Some newSL)
                       exchange ;;
           if fst result
           then log_activity "POSITION_TPSL_UPDATED" ;;; ret None
           else throw (snd result))
          (fun errorMessage => ret (Some errorMessage)) ;;
      match failure with
      | None => ret tt
      | Some errorMessage =>
          update_attempts remaining' (Some errorMessage) position newSL newTP
      end
  end.

Definition updatePositionOnExchange (position : Position.t) (newSL newTP : num)
  : M unit :=
  update_attempts (Z.to_nat (ImmortalExitConfig.maxRetries cfg)) None
                  position newSL newTP.

(** the text of the notification, without the formatting of sizes and
    prices: reason, updated symbols, and at most five errors cut to
    fifty characters *)
Definition notification_text (s : ShutdownState.t) (positions : list Position.t)
  : string :=
  "IMMORTAL EXIT PROTOCOL COMPLETE; Reason: "
    ++ nullish (ShutdownState.shutdownReason s) "null"
    ++ "; POSITIONS UPDATED: "
    ++ String.concat ", " (map Position.symbol positions)
    ++ "; ERRORS: "
    ++ String.concat ", "
         (map (fun e => substring 0 50 e) (firstn 5 (ShutdownState.errors s))).

Definition sendFinalNotification (positions : list Position.t) : M unit :=
  if negb (telegramBot this) then ret tt
  else
    try_catch
      (store <- get_store ;;
       let message :=
         notification_text (BotStateManager.shutdownState store) positions in
       perform (CSendMessage message)
               (fun h => Venue.sendMessage venue h message))
      (fun _ => ret tt).

Definition logShutdown (positions : list Position.t) : M unit :=
  log_activity "IMMORTAL_EXIT_COMPLETE".

(** step 2 of [execute]: the loop over the fetched positions *)
Fixpoint reevaluate_all (positions : list Position.t)
  : M (list ReevaluatedPosition.t) :=
  match positions with
  | [] => ret []
  | position :: rest =>
      reevaluated <-
        try_catch
          (reevaluatePosition position)
          (fun errorMessage =>
             on_store (BotStateManager.addShutdownError errorMessage) ;;;
             ret (not_reevaluated position errorMessage)) ;;
      others <- reevaluate_all rest ;;
      ret (reevaluated :: others)
  end.

(** step 3 of [execute]: the loop pushing the new levels to the venue;
    a failed update sets the entry's [error] in place *)
Fixpoint update_all (reevaluatedPositions : list ReevaluatedPosition.t)
  : M (list ReevaluatedPosition.t) :=
  match reevaluatedPositions with
  | [] => ret []
  | reevaluated :: rest =>
      reevaluated' <-
        (if ReevaluatedPosition.updated reevaluated
         then
           try_catch
             (updatePositionOnExchange
                (ReevaluatedPosition.position reevaluated)
                (ReevaluatedPosition.newSL reevaluated)
                (ReevaluatedPosition.newTP reevaluated) ;;;
              on_store (BotStateManager.addShutdownPositionUpdated
                          (ReevaluatedPosition.position reevaluated)
                          (Some (ReevaluatedPosition.newSL reevaluated))
                          (Some (ReevaluatedPosition.newTP reevaluated))) ;;;
              ret reevaluated)
             (fun errorMessage =>
                on_store (BotStateManager.addShutdownError errorMessage) ;;;
                ret (ReevaluatedPosition.with_error reevaluated errorMessage))
         else ret reevaluated) ;;
      others <- update_all rest ;;
      ret (reevaluated' :: others)
  end.

(** everything [execute] does once past the re-entrancy guard *)
Definition run_protocol (reason : string) : M unit :=
  on_store (BotStateManager.initiateShutdown (Venue.now venue) reason) ;;;
  log_activity "IMMORTAL_EXIT_STARTED" ;;;
  try_catch
    (positions <- fetchOpenPositions ;;
     on_store (BotStateManager.setShutdownPositionsFetched positions) ;;;
     if Nat.eqb (List.length positions) 0
     then
       sendFinalNotification [] ;;;
       logShutdown [] ;;;
       on_store BotStateManager.completeShutdown
     else
       reevaluatedPositions <- reevaluate_all positions ;;
       reevaluatedPositions <- update_all reevaluatedPositions ;;
       sendFinalNotification
         (map ReevaluatedPosition.position
              (filter ReevaluatedPosition.updated reevaluatedPositions)) ;;;
       logShutdown positions ;;;
       on_store BotStateManager.completeShutdown)
    (fun errorMessage =>
       on_store (BotStateManager.addShutdownError errorMessage) ;;;
       log_activity "IMMORTAL_EXIT_ERROR" ;;;
       sendFinalNotification [] ;;;
       on_store BotStateManager.completeShutdown).

(** [execute(reason)]: returns the protocol object as the call leaves
    it.  The flag is set before the first awaited operation, so during
    the whole run the object is [mark_shutting_down this]. *)
Definition execute (reason : string) : M t :=
  if isShuttingDown this then ret this
  else
    run_protocol reason ;;;
    ret (mark_shutting_down this).

End WithVenue.
End ImmortalExitProtocol.

(* ================================================================== *)
(** * Observing an execution                                           *)
(* ================================================================== *)

Definition is_throw {A} (r : result A) : bool :=
  match r with Throw _ => true | Ok _ => false end.

(** whether the collaborator answers call [c], made after the calls [h],
    with an error *)
Definition answer_threw (venue : Venue.t) (h : list Call) (c : Call) : bool :=
  match c with
  | CGetInstrumentInfo e symbol =>
      is_throw (Venue.getInstrumentInfo venue h e symbol)
  | CSetLeverage symbol b s => is_throw (Venue.setLeverage venue h symbol b s)
  | CPlaceOrder e symbol side qty tp sl =>
      is_throw (Venue.placeOrder venue h e symbol side qty tp sl)
  | CGetPositions e => is_throw (Venue.getPositions venue h e)
  | CSetTradingStop symbol tp sl =>
      is_throw (Venue.setTradingStop venue h symbol tp sl)
  | CGetKlines e symbol => is_throw (Venue.getKlines venue h e symbol)
  | CSendMessage text => is_throw (Venue.sendMessage venue h text)
  end.


Module TradeChecks.
Section WithRouter.
Variable venue : Venue.t.
Variable router : ExecutionRouter.t.


(** the risk physics [executeTrade] computes for a request *)
Definition riskPhysics_of (params : TradeParams.t) : RouterRisk.t :=
  ExecutionRouter.calculateRiskPhysics router (TradeParams.signal params)
    (TradeParams.currentPrice params) (TradeParams.atr params)
    (TradeParams.walletBalance params) (TradeParams.leverage params)
    (TradeParams.riskPercent params) (TradeParams.rewardRiskRatio params).

(** [notionalValue] of [executeTrade] for given instrument precision *)
Definition notionalValue (params : TradeParams.t) (info : InstrumentInfo.t)
  : num :=
  mul (ExecutionRouter.roundQty
         (RouterRisk.positionSize (riskPhysics_of params))
         (InstrumentInfo.qtyStep info))
      (ExecutionRouter.roundPrice (TradeParams.currentPrice params)
                                  (InstrumentInfo.tickSize info)).

End WithRouter.
End TradeChecks.

(* ================================================================== *)
(** * Callers of the protocol                                          *)
(* ================================================================== *)

(** [TradingEngine]: the engine owns a protocol object of its own
    (trading-engine.ts) and [stop] runs it *)
Module TradingEngine.
Record t : Type := mk { immortalExit : ImmortalExitProtocol.t }.

Definition stop (venue : Venue.t) (engine : t) (reason : string) : M t :=
  bind (ImmortalExitProtocol.execute venue (immortalExit engine) reason)
       (fun p => ret (mk p)).
End TradingEngine.

(** [POST /api/trading/shutdown] (shutdown/route.ts): unless the store
    says the bot is shutting down, stopped or idle, the handler logs the
    request, creates a protocol object of its own, stops the running engine,
    executes its own protocol object and logs the completion.  Whatever is
    thrown on the way is caught by the handler, logged and answered with
    status 500.  [router] is the router the handler builds from the stored
    credentials, [exchange] and [reason] are the fields of the request body
    after their defaults. *)
Module ShutdownRoute.
Inductive Response : Type :=
| Conflict
| AlreadyStopped
| Executed (shutdownState : ShutdownState.t)
| Failed (errorMessage : string).

Definition POST (venue : Venue.t) (tradingEngineInstance : option TradingEngine.t)
           (router : ExecutionRouter.t) (telegramBot : bool)
           (exchange : Exchange) (reason : string)
  : M (Response * option TradingEngine.t) :=
  try_catch
    (bind get_store (fun store =>
     match BotStateManager.status store with
     | shutting_down => ret (Conflict, tradingEngineInstance)
     | stopped | idle => ret (AlreadyStopped, tradingEngineInstance)
     | _ =>
         bind (log_activity "SHUTDOWN_API_CALLED") (fun _ =>
         let immortalExit :=
           ImmortalExitProtocol.createImmortalExit router telegramBot
             (ImmortalExitConfig.mk exchange (Fin (15 # 10)) (Fin 2) 3 1000) in
         bind (match tradingEngineInstance with
               | Some engine =>
                   try_catch
                     (bind (TradingEngine.stop venue engine reason)
                           (fun e => ret (Some e)))
                     (fun _ => bind (log_activity "ENGINE_STOP_ERROR")
                                    (fun _ => ret tradingEngineInstance))
               | None => ret None
               end) (fun engine' =>
         bind (ImmortalExitProtocol.execute venue immortalExit reason) (fun _ =>
         bind get_store (fun store' =>
         bind (log_activity "SHUTDOWN_API_COMPLETE") (fun _ =>
         ret (Executed (BotStateManager.shutdownState store'), engine'))))))
     end))
    (fun errorMessage =>
       bind (log_activity "SHUTDOWN_API_ERROR") (fun _ =>
       ret (Failed errorMessage, tradingEngineInstance))).
End ShutdownRoute.

(* ================================================================== *)
(** * Vocabulary of the properties                                     *)
(* ================================================================== *)

Section ScoreOrder.
Context {A : Type}.
Variable score : A -> num.



End ScoreOrder.

(** two values denote the same number *)
Definition same_number (a b : num) : Prop :=
  match a, b with
  | Fin x, Fin y => x == y
  | PInf, PInf | NInf, NInf | NaN, NaN => True
  | _, _ => False
  end.

(** [m] always returns a value *)
Definition returns {A} (m : M A) : Prop :=
  forall s, exists a s', m s = (Ok a, s').

(** whenever [m] returns a value, [P] holds of the state it leaves *)
Definition ends_with {A} (P : Sys.t -> Prop) (m : M A) : Prop :=
  forall s a s', m s = (Ok a, s') -> P s'.

(** [m] leaves the Bot State Store as it found it, whatever its outcome *)
Definition keeps_store {A} (m : M A) : Prop :=
  forall s, Sys.botState (snd (m s)) = Sys.botState s.

(** the terminal shutdown state: complete and no longer shutting down *)
Definition shutdown_done (s : Sys.t) : Prop :=
  let st := BotStateManager.shutdownState (Sys.botState s) in
  ShutdownState.shutdownComplete st = true /\
  ShutdownState.isShuttingDown st = false.


(* ================================================================== *)
(** * Concrete inputs used by the examples                             *)
(* ================================================================== *)

Module Fixtures.
Local Open Scope string_scope.

Definition fourteen_candles : list Utils.Candle :=
  repeat (Utils.mkCandle 0 (Fin 100) (Fin 110) (Fin 90) (Fin 105) (Fin 1)) 14.

Definition long_signal (price atr : Q) : Signal.t :=
  Signal.mk None "BTCUSDT" "MOMENTUM" LONG (Fin (6 # 10)) (Fin 2) TRENDING
            None None None None None None (Some (Fin price)) (Some (Fin atr))
            0 None None.

Definition long_signal_50000 : Signal.t := long_signal 50000 100.

(** a LONG signal at 40 with the stop 0.5 below *)
Definition signal_at_40 : Signal.t := long_signal 40 1.

Definition levels_at_40 : RiskLevels.t :=
  RiskLevels.mk (Fin 40) (Fin 42) (Fin (395 # 10)) (Fin 40) (Fin 4) (Fin (5 # 10)).

(** a book at 100 / 100.1 and candidates that differ in their expected
    move *)
Definition tight_book : OrderBook.t :=
  OrderBook.mk "BTCUSDT" bybit
               [OrderBookLevel.mk (Fin 100) (Fin 1)]
               [OrderBookLevel.mk (Fin (1001 # 10)) (Fin 1)] 0.

Definition named_signal (name : string) (move : Q) : Signal.t :=
  Signal.mk None name "MOMENTUM" LONG (Fin (6 # 10)) (Fin move) TRENDING
            None None None None None None (Some (Fin 100)) (Some (Fin 1))
            0 None None.

Definition four_signals : list Signal.t :=
  [named_signal "A" 2; named_signal "D" (1 # 10); named_signal "B" 2;
   named_signal "C" 3].

(** a store of a running bot without positions, nothing called yet *)
Definition running_store : BotStateManager.t :=
  BotStateManager.mk running [] ShutdownState.initial.

Definition sys0 : Sys.t := Sys.mk [] [] running_store [].

Definition router_config (e : Exchange) : ExecutionRouterConfig.t :=
  ExecutionRouterConfig.mk e (Fin 10) (Fin 1) (Fin 2) (Fin 100) (Fin 15).

(** a router on Bybit with credentials, and one on MEXC without *)
Definition router_bybit : ExecutionRouter.t :=
  ExecutionRouter.mk (router_config bybit) false true.

Definition router_mexc_no_client : ExecutionRouter.t :=
  ExecutionRouter.mk (router_config mexc) false false.

Definition filled_order : OrderAck.t :=
  OrderAck.mk "1" "" "BTCUSDT" "Buy" "Market" None None None None "Filled".

Definition kline_105 : Kline.t :=
  Kline.mk 0 (Fin 100) (Fin 110) (Fin 90) (Fin 105) (Fin 1).

Definition btc_position : ClientPosition.t :=
  ClientPosition.mk "BTCUSDT" "Buy" (Fin 1) (Fin 50000) (Fin 0).

Definition eth_position : ClientPosition.t :=
  ClientPosition.mk "ETHUSDT" "Buy" (Fin 2) (Fin 100) (Fin 0).

(** a venue with two open positions whose kline request for BTCUSDT
    throws; everything else succeeds.  Instruments demand a notional of
    1000. *)
Definition venue_btc_klines_down : Venue.t :=
  Venue.mk
    (fun _ _ _ =>
       Ok (Some (InstrumentInfo.mk (Fin (1 # 100)) (Fin (1 # 1000)) (Fin 1000))))
    (fun _ _ _ _ => Ok tt)
    (fun _ _ _ _ _ _ _ => Ok filled_order)
    (fun _ _ => Ok [btc_position; eth_position])
    (fun _ _ _ _ => Ok tt)
    (fun _ _ symbol =>
       if String.eqb symbol "BTCUSDT" then Throw "Request timeout"
       else Ok (repeat kline_105 15))
    (fun _ _ => Ok tt)
    0.

(** a request that passes risk validation on the routers above: size
    0.5 at 100, margin 50 at leverage 1 *)
Definition small_trade : TradeParams.t :=
  TradeParams.mk TradeSignal.LONG "BTCUSDT" (Fin 100) (Fin 1) (Fin 75)
                 (Some (Fin 1)) (Some (Fin 1)) None.

(** the protocol object of a trading engine, and the one the shutdown
    route creates *)
Definition engine_protocol : ImmortalExitProtocol.t :=
  ImmortalExitProtocol.new router_bybit false
    (ImmortalExitConfig.mk bybit (Fin (15 # 10)) (Fin 2) 3 1000).

Definition route_protocol : ImmortalExitProtocol.t :=
  ImmortalExitProtocol.createImmortalExit router_bybit false
    (ImmortalExitConfig.mk bybit (Fin (15 # 10)) (Fin 2) 3 1000).

End Fixtures.
Import Fixtures.

(* ================================================================== *)
(** * Market statistics library, continued (utils.ts)                  *)
(* ================================================================== *)

Module MarketStatistics.
Import Utils.

(** [arr.slice(start)] for an integer [start]: a negative start counts
    from the back, and [slice(-0)] is the whole array *)
Definition slice_from {A} (l : list A) (start : Z) : list A :=
  if (start <? 0)%Z
  then skipn (Z.to_nat (Z.max 0 (Z.of_nat (List.length l) + start))) l
  else skipn (Z.to_nat start) l.

(** [round_to_tick_size(price, tickSize, roundingMode)]: unlike
    [round_to_qty_step] the precision is not clamped at 0 *)
Definition round_to_tick_size (price tickSize : num) (roundingMode : RoundingMode)
  : result num :=
  if leb tickSize (Fin 0)
  then Throw "Tick size must be positive"
  else
    let precision := ceil_neg_log10 tickSize in
    let multiplier := div (Fin 1) tickSize in
    let rounded :=
      match roundingMode with
      | Up => div (ceil (mul price multiplier)) multiplier
      | Down => div (floor (mul price multiplier)) multiplier
      | Nearest => div (round (mul price multiplier)) multiplier
      end in
    to_fixed_number rounded precision.

(** [values.reduce((sum, v) => sum + v, 0)] *)
Definition sum_of (values : list num) : num :=
  fold_left (fun sum v => add sum v) values (Fin 0).

(** [calculate_sma(values, period)] *)
Definition calculate_sma (values : list num) (period : Z) : num :=
  if (Z.of_nat (List.length values) <? period)%Z then Fin 0
  else
    let slice := slice_from values (- period) in
    div (sum_of slice) (Fin (inject_Z period)).

End MarketStatistics.

(** a number that is not below zero: a finite one from 0 on, +Infinity,
    or NaN (which compares as false with everything) *)
Definition not_negative (v : num) : Prop := ltb v (Fin 0) = false.

(** the inputs at which [calculate_kelly_fraction] has no numeric answer:
    a reward-to-risk that is NaN; a NaN win probability beside a positive
    reward-to-risk; an infinite win probability beside a reward-to-risk of
    +Infinity *)
Definition kelly_inputs_undefined (winProbability rewardToRisk : num) : bool :=
  is_nan rewardToRisk
  || (gtb rewardToRisk (Fin 0) && is_nan winProbability)
  || (eqb rewardToRisk PInf && eqb (abs winProbability) PInf).

(* ================================================================== *)
(** * Risk Physics, continued (risk-physics.ts)                        *)
(* ================================================================== *)

(** The messages of [validate_trade] are template strings; they are kept
    as constructors carrying the numbers the templates interpolate. *)
Inductive TradeError : Type :=
| LeverageExceedsMaximum (leverage maxLeverage : num).

Inductive TradeWarning : Type :=
| RiskRewardBelowMinimum (riskRewardRatio minRiskReward : num)
| PotentialLoss (lossPct leverage : num)
| NegativeExpectedValue
| LowKellyScore.

Module TradeValidation.
Record t : Type := mk {
  valid : bool;
  errors : list TradeError;
  warnings : list TradeWarning;
}.
End TradeValidation.

Module RiskPhysicsTrade.

Section WithConfig.
Variable config : RiskPhysicsConfig.t.

(** [validate_trade(signal, riskLevels, positionSizing)] *)
Definition validate_trade (signal : EvaluatedSignal.t)
           (riskLevels : RiskLevels.t) (positionSizing : PositionSizing.t)
  : TradeValidation.t :=
  let warnings1 :=
    if ltb (RiskLevels.riskRewardRatio riskLevels)
           (RiskPhysicsConfig.minRiskReward config)
    then [RiskRewardBelowMinimum (RiskLevels.riskRewardRatio riskLevels)
                                 (RiskPhysicsConfig.minRiskReward config)]
    else [] in
  let errors :=
    if gtb (PositionSizing.leverage positionSizing)
           (RiskPhysicsConfig.maxLeverage config)
    then [LeverageExceedsMaximum (PositionSizing.leverage positionSizing)
                                 (RiskPhysicsConfig.maxLeverage config)]
    else [] in
  let currentPrice :=
    nullish (Signal.current_price (EvaluatedSignal.signal signal))
            (nullish (Signal.entry_price (EvaluatedSignal.signal signal))
                     (Fin 0)) in
  let warnings2 :=
    if gtb currentPrice (Fin 0)
    then
      let lossPct :=
        div (abs (sub currentPrice (RiskLevels.stopLossPrice riskLevels)))
            currentPrice in
      if gtb lossPct (Fin (1 # 2))
         && gtb (PositionSizing.leverage positionSizing) (Fin 1)
      then (warnings1
              ++ [PotentialLoss lossPct (PositionSizing.leverage positionSizing)])%list
      else warnings1
    else warnings1 in
  let warnings3 :=
    if ltb (EvaluatedSignal.ev_score signal) (Fin 0)
    then (warnings2 ++ [NegativeExpectedValue])%list
    else warnings2 in
  let warnings4 :=
    if ltb (EvaluatedSignal.kelly_score signal) (Fin (5 # 100))
    then (warnings3 ++ [LowKellyScore])%list
    else warnings3 in
  TradeValidation.mk (Nat.eqb (List.length errors) 0) errors warnings4.

End WithConfig.

(** one turn of the loop of [calculate_max_drawdown] over the state
    [(peak, maxDrawdown, cumulative)] *)
Definition drawdown_step (state : num * num * num) (result : num)
  : num * num * num :=
  let '(peak, maxDrawdown, cumulative) := state in
  let cumulative := add cumulative result in
  let peak := max peak cumulative in
  let drawdown := sub peak cumulative in
  (peak, max maxDrawdown drawdown, cumulative).

(** [calculate_max_drawdown(tradeResults)] *)
Definition calculate_max_drawdown (tradeResults : list num) : num :=
  if Nat.eqb (List.length tradeResults) 0 then Fin 0
  else
    let '(_, maxDrawdown, _) :=
      fold_left drawdown_step tradeResults (Fin 0, Fin 0, Fin 0) in
    maxDrawdown.

End RiskPhysicsTrade.

(* ================================================================== *)
(** * Alpha Ranker, helper functions (alpha-ranker.ts)                 *)
(* ================================================================== *)

Module AlphaRankerHelpers.

(** default [maxAccountRisk] of [calculate_optimal_leverage] *)
Definition default_maxAccountRisk : num := Fin (2 # 100).

(** [calculate_optimal_leverage(kellyFraction, maxAccountRisk)] *)
Definition calculate_optimal_leverage (kellyFraction maxAccountRisk : num) : num :=
  let leverage := div kellyFraction maxAccountRisk in
  min (Fin 20) (max (Fin 1) leverage).

End AlphaRankerHelpers.

(* ================================================================== *)
(** * Vocabulary for the calls of an execution                         *)
(* ================================================================== *)

(** the calls the shutdown protocol has a use for: reading positions and
    klines, setting protective levels, and the notification *)
Definition is_shutdown_call (c : Call) : bool :=
  match c with
  | CGetPositions _ | CGetKlines _ _ | CSetTradingStop _ _ _ | CSendMessage _ =>
      true
  | _ => false
  end.

Definition is_trading_stop_call (c : Call) : bool :=
  match c with
  | CSetTradingStop _ _ _ => true
  | _ => false
  end.

(** every call [m] makes satisfies [allowed], whatever its outcome; the
    calls made before are kept *)
Definition only_calls {A} (allowed : Call -> bool) (m : M A) : Prop :=
  forall s, exists made,
    Sys.calls (snd (m s)) = Sys.calls s ++ made /\
    forallb allowed made = true.

(** the positions recorded as updated by a shutdown *)
Definition positions_updated (s : Sys.t) : list Position.t :=
  ShutdownState.positionsUpdated (BotStateManager.shutdownState (Sys.botState s)).

(** the errors recorded by a shutdown *)
Definition shutdown_errors (s : Sys.t) : list string :=
  ShutdownState.errors (BotStateManager.shutdownState (Sys.botState s)).

(** [m] leaves the list of positions recorded as updated as it found it,
    whatever its outcome *)
Definition keeps_updated {A} (m : M A) : Prop :=
  forall s, positions_updated (snd (m s)) = positions_updated s.

(** [m] always throws *)
Definition always_throws {A} (m : M A) : Prop :=
  forall s, is_throw (fst (m s)) = true.

(* ================================================================== *)
(** * Further scenarios                                                *)
(* ================================================================== *)

Module Scenarios.
Local Open Scope string_scope.

(** a venue whose position request fails; everything else succeeds *)
Definition venue_positions_down : Venue.t :=
  Venue.mk
    (fun _ _ _ => Ok None)
    (fun _ _ _ _ => Ok tt)
    (fun _ _ _ _ _ _ _ => Ok filled_order)
    (fun _ _ => Throw "Request timeout")
    (fun _ _ _ _ => Ok tt)
    (fun _ _ _ => Ok (repeat kline_105 15))
    (fun _ _ => Ok tt)
    0.

(** a position the store knows about *)
Definition stored_position : Position.t :=
  Position.mk "p1" "BTCUSDT" bybit LONG (Fin 1) (Fin 50000) (Some (Fin 50000))
              (Fin 1) (Fin 50000) None None None None open.

Definition sys_with_position : Sys.t :=
  Sys.mk [] []
         (BotStateManager.mk running [("p1", stored_position)]
                             ShutdownState.initial)
         [].

(** a protocol object on MEXC, with and without a MEXC client *)
Definition router_mexc : ExecutionRouter.t :=
  ExecutionRouter.mk (router_config mexc) true false.

Definition mexc_protocol : ImmortalExitProtocol.t :=
  ImmortalExitProtocol.new router_mexc true
    (ImmortalExitConfig.mk mexc (Fin (15 # 10)) (Fin 2) 3 1000).

(** a request at the router's default leverage of 10: a margin of the
    minimum 15 would need a position of 150, above the cap of 100 *)
Definition oversized_trade : TradeParams.t :=
  TradeParams.mk TradeSignal.LONG "BTCUSDT" (Fin 100) (Fin 1) (Fin 75)
                 None None None.

(** the system once the Bybit router has looked BTCUSDT up on
    [venue_btc_klines_down]: one call made, its answer cached *)
Definition sys_after_lookup : Sys.t :=
  Sys.mk [CGetInstrumentInfo bybit "BTCUSDT"]
         [((bybit, "BTCUSDT"),
           InstrumentInfo.mk (Fin (1 # 100)) (Fin (1 # 1000)) (Fin 1000))]
         running_store [].

End Scenarios.

Import Scenarios.

(* ================================================================== *)
(** * Signal generation (sentinels.ts)                                 *)
(* ================================================================== *)

Inductive VolatilityState : Type := LOW | NORMAL | HIGH.

Module RegimeStats.
Record t : Type := mk {
  regime : MarketRegime;
  hurstExponent : num;
  trendStrength : num;
  volatilityState : VolatilityState;
}.
End RegimeStats.

Module VolumeProfile.
Record t : Type := mk {
  pocPrice : num;
  pocVolume : num;
  valueAreaHigh : num;
  valueAreaLow : num;
  totalVolume : num;
}.
End VolumeProfile.

Module SentinelsConfig.
Record t : Type := mk {
  hurstLookback : Z;
  volumeProfileBuckets : Z;
  whaleThresholdUsdt : num;
  obiLookback : Z;
  obiImbalanceThreshold : num;
}.
End SentinelsConfig.

Definition DEFAULT_SENTINELS_CONFIG : SentinelsConfig.t :=
  SentinelsConfig.mk 100 24 (Fin 50000) 20 (Fin (15 # 10)).

Module Sentinels.
Import Utils MarketStatistics.
Local Open Scope string_scope.

(** [candles[candles.length - 1]] *)
Definition last_candle (candles : list Candle) : option Candle :=
  match rev candles with
  | c :: _ => Some c
  | [] => None
  end.

(** the loop of the RSI step over [recentCloses]: one gain and one loss
    per change between neighbours *)
Fixpoint gains_and_losses (previous : num) (rest : list num)
  : list num * list num :=
  match rest with
  | [] => ([], [])
  | current :: rest' =>
      let change := sub current previous in
      let '(gains, losses) := gains_and_losses current rest' in
      if gtb change (Fin 0)
      then (change :: gains, Fin 0 :: losses)
      else (Fin 0 :: gains, abs change :: losses)
  end.

(** The Hurst exponent (logarithms and a square root) and the volume
    profile are computed by functions that always return; their results
    are taken as they come. *)
Section WithEstimators.
Variable calculate_hurst_exponent : list num -> num.
Variable calculate_volume_profile : list Candle -> Z -> VolumeProfile.t.

(** [calculate_regime_stats(candles, lookback)] *)
Definition calculate_regime_stats (candles : list Candle) (lookback : Z)
  : RegimeStats.t :=
  if (List.length candles <? 20)%nat
  then RegimeStats.mk RANGING (Fin (1 # 2)) (Fin 0) NORMAL
  else
    let prices := map close (slice_from candles (- lookback)) in
    let hurstExponent := calculate_hurst_exponent prices in
    let '(regime, trendStrength) :=
      if gtb hurstExponent (Fin (55 # 100))
      then (TRENDING, mul (sub hurstExponent (Fin (1 # 2))) (Fin 2))
      else if ltb hurstExponent (Fin (45 # 100))
      then (RANGING, mul (sub (Fin (1 # 2)) hurstExponent) (Fin 2))
      else (RANGING, Fin 0) in
    let atr := calculate_atr (slice_from candles (- 14)) 14 in
    let currentPrice :=
      match last_candle candles with
      | Some c => close c
      | None => Fin 0
      end in
    let atrPct :=
      if gtb currentPrice (Fin 0)
      then mul (div atr currentPrice) (Fin 100)
      else Fin 0 in
    let volatilityState :=
      if ltb atrPct (Fin 1) then LOW
      else if gtb atrPct (Fin 3) then HIGH
      else NORMAL in
    RegimeStats.mk regime hurstExponent trendStrength volatilityState.

(** [SignalFactory.calculate_win_probability]; reading the close of a
    candle of an empty array throws a TypeError *)
Definition calculate_win_probability (candles : list Candle)
           (direction : SignalDirection) (regimeStats : RegimeStats.t)
           (volumeProfile : VolumeProfile.t) (currentPrice : num)
  : result num :=
  let probability := Fin (1 # 2) in
  let trend :=
    match RegimeStats.regime regimeStats with
    | TRENDING =>
        match last_candle candles, candles with
        | Some last, first :: _ =>
            let priceChange := sub (close last) (close first) in
            let isTrendUp := gtb priceChange (Fin 0) in
            if match direction with LONG => isTrendUp | SHORT => negb isTrendUp end
            then Ok (add probability
                         (mul (RegimeStats.trendStrength regimeStats)
                              (Fin (15 # 100))))
            else Ok (sub probability
                         (mul (RegimeStats.trendStrength regimeStats)
                              (Fin (1 # 10))))
        | _, _ => Throw "Cannot read properties of undefined (reading 'close')"
        end
    | RANGING => Ok probability
    end in
  match trend with
  | Throw msg => Throw msg
  | Ok probability =>
      let vpocDistance :=
        div (abs (sub currentPrice (VolumeProfile.pocPrice volumeProfile)))
            currentPrice in
      let probability :=
        if gtb vpocDistance (Fin (2 # 100))
        then
          if match direction with
             | LONG => ltb currentPrice (VolumeProfile.pocPrice volumeProfile)
             | SHORT => gtb currentPrice (VolumeProfile.pocPrice volumeProfile)
             end
          then add probability (Fin (5 # 100))
          else probability
        else probability in
      let probability :=
        if gtb currentPrice (VolumeProfile.valueAreaLow volumeProfile)
           && ltb currentPrice (VolumeProfile.valueAreaHigh volumeProfile)
        then add probability (Fin (2 # 100))
        else probability in
      let recentCloses := map close (slice_from candles (- 14)) in
      let '(gains, losses) :=
        match recentCloses with
        | [] => ([], [])
        | first :: rest => gains_and_losses first rest
        end in
      let avgGain := calculate_sma gains 14 in
      let avgLoss := calculate_sma losses 14 in
      let rs := if gtb avgLoss (Fin 0) then div avgGain avgLoss else Fin 0 in
      let rsi := sub (Fin 100) (div (Fin 100) (add (Fin 1) rs)) in
      let probability :=
        match direction with
        | LONG =>
            if ltb rsi (Fin 30) then add probability (Fin (8 # 100))
            else if gtb rsi (Fin 70) then sub probability (Fin (8 # 100))
            else probability
        | SHORT =>
            if gtb rsi (Fin 70) then add probability (Fin (8 # 100))
            else if ltb rsi (Fin 30) then sub probability (Fin (8 # 100))
            else probability
        end in
      Ok (max (Fin (3 # 10)) (min (Fin (8 # 10)) probability))
  end.

(** [SignalFactory.calculate_expected_move] *)
Definition calculate_expected_move (candles : list Candle)
           (direction : SignalDirection) (atr currentPrice : num)
           (regimeStats : RegimeStats.t) : num :=
  let atrPct := mul (div atr currentPrice) (Fin 100) in
  let multiplier :=
    match RegimeStats.regime regimeStats with
    | TRENDING =>
        add (Fin (12 # 10))
            (mul (RegimeStats.trendStrength regimeStats) (Fin (3 # 10)))
    | RANGING => Fin (8 # 10)
    end in
  mul atrPct multiplier.

(** [SignalFactory.calculate_signal_strength] *)
Definition calculate_signal_strength (winProbability expectedMovePct : num)
           (regimeStats : RegimeStats.t) (spreadPenalty : num) : num :=
  let probScore := mul (sub winProbability (Fin (1 # 2))) (Fin 2) in
  let moveScore := min (Fin 1) (div expectedMovePct (Fin 3)) in
  let regimeScore :=
    match RegimeStats.regime regimeStats with
    | TRENDING => RegimeStats.trendStrength regimeStats
    | RANGING => Fin (3 # 10)
    end in
  let spreadPenaltyScore :=
    max (Fin 0) (sub (Fin 1) (mul spreadPenalty (Fin 10))) in
  let strength :=
    add (add (add (mul probScore (Fin (4 # 10)))
                  (mul moveScore (Fin (25 # 100))))
             (mul regimeScore (Fin (2 # 10))))
        (mul spreadPenaltyScore (Fin (15 # 100))) in
  max (Fin 0) (min (Fin 1) strength).

(** [SignalFactory.generate_signal]; [now] is [Date.now()], [None] is
    [null].  The metadata of the signal is left out. *)
Definition generate_signal (config : SentinelsConfig.t) (now : Z)
           (symbol : string) (candles : list Candle) (orderBook : OrderBook.t)
           (strategy : string) (direction : SignalDirection)
  : result (option Signal.t) :=
  if (List.length candles <? 20)%nat then Ok None
  else
    let regimeStats :=
      calculate_regime_stats candles (SentinelsConfig.hurstLookback config) in
    let atr := calculate_atr (slice_from candles (- 14)) 14 in
    let volumeProfile :=
      calculate_volume_profile (slice_from candles (- 50))
                               (SentinelsConfig.volumeProfileBuckets config) in
    let lastClose :=
      match last_candle candles with
      | Some c => close c
      | None => NaN
      end in
    let bestBid :=
      match OrderBook.bids orderBook with
      | level :: _ => OrderBookLevel.price level
      | [] => lastClose
      end in
    let bestAsk :=
      match OrderBook.asks orderBook with
      | level :: _ => OrderBookLevel.price level
      | [] => lastClose
      end in
    let currentPrice := div (add bestBid bestAsk) (Fin 2) in
    let spreadPenalty := mul (div (sub bestAsk bestBid) currentPrice) (Fin 100) in
    match calculate_win_probability candles direction regimeStats volumeProfile
                                    currentPrice with
    | Throw msg => Throw msg
    | Ok winProbability =>
        let expectedMovePct :=
          calculate_expected_move candles direction atr currentPrice regimeStats in
        let signalStrength :=
          calculate_signal_strength winProbability expectedMovePct regimeStats
                                    spreadPenalty in
        Ok (Some (Signal.mk None symbol strategy direction winProbability
                            expectedMovePct (RegimeStats.regime regimeStats)
                            None None None None None None
                            (Some currentPrice) (Some atr) now
                            (Some spreadPenalty) (Some signalStrength)))
    end.

End WithEstimators.
End Sentinels.

(** a signal that [SignalFactory.generate_signal] can return *)
Definition factory_signal (signal : Signal.t) : Prop :=
  exists hurst profile config now symbol candles orderBook strategy direction,
    Sentinels.generate_signal hurst profile config now symbol candles orderBook
                              strategy direction = Ok (Some signal).

(** the number zero, or NaN *)
Definition zero_or_nan (v : num) : Prop :=
  match v with
  | Fin q => q == 0
  | NaN => True
  | _ => False
  end.

Module SignalScenarios.
Local Open Scope string_scope.

Definition flat_hurst (prices : list num) : num := Fin (1 # 2).

Definition flat_profile (candles : list Utils.Candle) (buckets : Z)
  : VolumeProfile.t :=
  VolumeProfile.mk (Fin 100) (Fin 1) (Fin 101) (Fin 99) (Fin 20).

(** twenty candles around 100 with a range of 2 *)
Definition twenty_candles : list Utils.Candle :=
  repeat (Utils.mkCandle 0 (Fin 100) (Fin 101) (Fin 99) (Fin 100) (Fin 1)) 20.

(** what the factory makes of them for a long momentum signal *)
Definition generated : result (option Signal.t) :=
  Sentinels.generate_signal flat_hurst flat_profile DEFAULT_SENTINELS_CONFIG 0
                            "BTCUSDT" twenty_candles tight_book "MOMENTUM" LONG.

Definition generated_signal : Signal.t :=
  match generated with
  | Ok (Some signal) => signal
  | _ => named_signal "none" 0
  end.

(** two candle arrays that rise from a close of 100 to a close of 105 and
    differ in length and in everything else *)
Definition rising_candles : list Utils.Candle :=
  [Utils.mkCandle 0 (Fin 100) (Fin 101) (Fin 99) (Fin 100) (Fin 1);
   Utils.mkCandle 1 (Fin 100) (Fin 104) (Fin 100) (Fin 103) (Fin 1);
   Utils.mkCandle 2 (Fin 103) (Fin 106) (Fin 102) (Fin 105) (Fin 1)].

Definition other_rising_candles : list Utils.Candle :=
  [Utils.mkCandle 5 (Fin 90) (Fin 120) (Fin 80) (Fin 100) (Fin 7);
   Utils.mkCandle 6 (Fin 100) (Fin 100) (Fin 60) (Fin 70) (Fin 9);
   Utils.mkCandle 7 (Fin 70) (Fin 200) (Fin 70) (Fin 180) NaN;
   Utils.mkCandle 8 (Fin 180) (Fin 181) (Fin 104) (Fin 105) (Fin 3)].

End SignalScenarios.

Import SignalScenarios.

(** the store says the bot is idle *)
Definition store_idle (s : Sys.t) : Prop :=
  BotStateManager.status (Sys.botState s) = idle.

(* ================================================================== *)
(** * Properties                                                       *)
(* ================================================================== *)

(** ** Comparisons on rationals and numbers *)

Lemma Qltb_lt (x y : Q) : Qltb x y = true <-> x < y.
Proof.
  unfold Qltb. rewrite negb_true_iff.
  split; intro H.
  - apply Qnot_le_lt. intro Hle. apply Qle_bool_iff in Hle. congruence.
  - destruct (Qle_bool y x) eqn:E; [|reflexivity].
    apply Qle_bool_iff in E. exfalso. apply (Qlt_not_le _ _ H E).
Qed.

Lemma Qltb_ge (x y : Q) : Qltb x y = false <-> y <= x.
Proof.
  unfold Qltb. rewrite negb_false_iff. apply Qle_bool_iff.
Qed.

Lemma Qle_bool_gt (x y : Q) : Qle_bool x y = false <-> y < x.
Proof.
  split; intro H.
  - apply Qnot_le_lt. intro Hle. apply Qle_bool_iff in Hle. congruence.
  - destruct (Qle_bool x y) eqn:E; [|reflexivity].
    apply Qle_bool_iff in E. exfalso. apply (Qlt_not_le _ _ H E).
Qed.

Lemma Qeq_bool_false_of_pos (x : Q) : 0 < x -> Qeq_bool x 0 = false.
Proof.
  intro H. destruct (Qeq_bool x 0) eqn:E; [|reflexivity].
  apply Qeq_bool_iff in E. rewrite E in H. exfalso. apply (Qlt_irrefl _ H).
Qed.

Lemma leb_Fin (x y : Q) : leb (Fin x) (Fin y) = true <-> x <= y.
Proof. simpl. apply Qle_bool_iff. Qed.

Lemma ltb_Fin (x y : Q) : ltb (Fin x) (Fin y) = true <-> x < y.
Proof. simpl. apply Qltb_lt. Qed.

Lemma gtb_Fin (x y : Q) : gtb (Fin x) (Fin y) = true <-> y < x.
Proof. unfold gtb. apply ltb_Fin. Qed.

(** clamping a finite number to [[lo, hi]] with [Math.max(lo, Math.min(hi, x))] *)
Lemma clamp_Fin (lo hi x : Q) :
  lo <= hi ->
  exists q, max (Fin lo) (min (Fin hi) (Fin x)) = Fin q /\ lo <= q <= hi.
Proof.
  intro Hlh. unfold min, max. simpl.
  destruct (Qle_bool hi x) eqn:E1; simpl.
  - apply Qle_bool_iff in Hlh. rewrite Hlh. apply Qle_bool_iff in Hlh.
    exists hi. split; [reflexivity|]. split; [assumption | apply Qle_refl].
  - apply Qle_bool_gt in E1.
    destruct (Qle_bool lo x) eqn:E2.
    + apply Qle_bool_iff in E2. exists x. split; [reflexivity|].
      split; [assumption | apply Qlt_le_weak; assumption].
    + exists lo. split; [reflexivity|]. split; [apply Qle_refl | assumption].
Qed.

(** ** Numbers that are not negative *)

Lemma not_negative_Fin (x : Q) : not_negative (Fin x) <-> 0 <= x.
Proof.
  unfold not_negative. cbn [ltb]. unfold Qltb. rewrite negb_false_iff.
  apply Qle_bool_iff.
Qed.

Lemma not_negative_add (a b : num) :
  not_negative a -> not_negative b -> not_negative (add a b).
Proof.
  destruct a as [x| | |], b as [y| | |]; intros Ha Hb;
    try reflexivity; try discriminate Ha; try discriminate Hb.
  apply not_negative_Fin in Ha, Hb. cbn [add]. apply not_negative_Fin. lra.
Qed.

Lemma not_negative_mul_const (a : num) (c : Q) :
  0 <= c -> not_negative a -> not_negative (mul a (Fin c)).
Proof.
  intros Hc Ha. destruct a as [x| | |]; try reflexivity; try discriminate Ha.
  - apply not_negative_Fin in Ha. cbn [mul]. apply not_negative_Fin. nra.
  - cbn [mul]. unfold Qsign.
    destruct (c ?= 0) eqn:E; try reflexivity.
    apply Qlt_alt in E. lra.
Qed.

Lemma not_negative_div_const (a : num) (c : Q) :
  0 < c -> not_negative a -> not_negative (div a (Fin c)).
Proof.
  intros Hc Ha. destruct a as [x| | |]; try reflexivity; try discriminate Ha.
  - apply not_negative_Fin in Ha. cbn [div].
    rewrite (Qeq_bool_false_of_pos c Hc). apply not_negative_Fin.
    apply Qle_shift_div_l; [exact Hc | lra].
  - cbn [div].
    replace (Qltb c 0) with false; [reflexivity|].
    symmetry. unfold Qltb. apply negb_false_iff, Qle_bool_iff. lra.
Qed.

Lemma not_negative_abs (a : num) : not_negative (abs a).
Proof.
  destruct a as [x| | |]; try reflexivity.
  cbn [abs]. apply not_negative_Fin. apply Qabs_nonneg.
Qed.

(** [Math.max] is not below a bound that one of its arguments is not
    below *)
Lemma ltb_max_r (a b x : num) : ltb b x = false -> ltb (max a b) x = false.
Proof.
  intro Hb. unfold max.
  destruct a as [p| | |], b as [q| | |]; cbn [is_nan orb leb];
    try exact Hb; try reflexivity;
    try (destruct x; first [reflexivity | discriminate Hb]; fail).
  destruct (Qle_bool p q) eqn:E; [exact Hb|].
  apply Qle_bool_gt in E.
  destruct x as [y| | |]; try reflexivity; try discriminate Hb.
  cbn [ltb] in *. unfold Qltb in *. apply negb_false_iff, Qle_bool_iff.
  apply negb_false_iff, Qle_bool_iff in Hb. lra.
Qed.

Lemma ltb_max_l (a b x : num) : ltb a x = false -> ltb (max a b) x = false.
Proof.
  intro Ha. unfold max.
  destruct a as [p| | |], b as [q| | |]; cbn [is_nan orb leb];
    try exact Ha; try reflexivity;
    try (destruct x; first [reflexivity | discriminate Ha]; fail).
  destruct (Qle_bool p q) eqn:E; [|exact Ha].
  apply Qle_bool_iff in E.
  destruct x as [y| | |]; try reflexivity; try discriminate Ha.
  cbn [ltb] in *. unfold Qltb in *. apply negb_false_iff, Qle_bool_iff.
  apply negb_false_iff, Qle_bool_iff in Ha. lra.
Qed.

(** the distance from a running maximum down to the current value *)
Lemma not_negative_sub_max (p c : num) : not_negative (sub (max p c) c).
Proof.
  unfold max.
  destruct p as [x| | |], c as [y| | |]; cbn [is_nan orb leb];
    try reflexivity.
  - destruct (Qle_bool x y) eqn:E; cbn [sub neg add]; apply not_negative_Fin.
    + lra.
    + apply Qle_bool_gt in E. lra.
  - cbn [sub neg add]. apply not_negative_Fin. lra.
Qed.

(** with a peak that is not negative, the drawdown is not below the loss *)
Lemma sub_not_below_neg (p c : num) :
  not_negative p -> ltb (sub p c) (neg c) = false.
Proof.
  intro Hp.
  destruct p as [x| | |], c as [y| | |]; try reflexivity; try discriminate Hp.
  apply not_negative_Fin in Hp. cbn [sub neg add ltb]. unfold Qltb.
  apply negb_false_iff, Qle_bool_iff. lra.
Qed.

(** ** Alpha Ranker: the Kelly fraction *)

Lemma calculate_kelly_fraction_value (w r : Q) :
  exists k,
    AlphaRanker.calculate_kelly_fraction (Fin w) (Fin r) = Fin k /\
    0 <= k <= 25 # 100.
Proof.
  unfold AlphaRanker.calculate_kelly_fraction. cbn [leb].
  destruct (Qle_bool r 0) eqn:Er.
  - exists 0. split; [reflexivity|]. split; [apply Qle_refl | discriminate].
  - apply Qle_bool_gt in Er.
    cbv zeta. unfold sub. cbn [neg add div].
    rewrite (Qeq_bool_false_of_pos r Er). cbn [neg add div].
    replace (Qeq_bool 2 0) with false by reflexivity.
    apply clamp_Fin. discriminate.
Qed.

(** C9 as the code has it.  [calculate_kelly_fraction] returns a number in
    the closed interval [[0, 0.25]] for every win probability and every
    reward-to-risk value, zero, negative and infinite ones included,
    except at the inputs [kelly_inputs_undefined] lists: a reward-to-risk
    that is NaN, a NaN win probability beside a positive reward-to-risk,
    and an infinite win probability beside an infinite reward-to-risk.
    There the result is NaN, which lies in no interval. *)
Theorem calculate_kelly_fraction_range :
  forall (winProbability rewardToRisk : num),
    let k := AlphaRanker.calculate_kelly_fraction winProbability rewardToRisk in
    if kelly_inputs_undefined winProbability rewardToRisk
    then k = NaN
    else leb (Fin 0) k = true /\ leb k (Fin (25 # 100)) = true.
Proof.
  intros w r.
  destruct r as [r| | |].
  - (* a finite reward-to-risk *)
    destruct w as [w| | |].
    + destruct (calculate_kelly_fraction_value w r) as [k [Ek [H0 H1]]].
      cbv zeta. rewrite Ek.
      unfold kelly_inputs_undefined. cbn [is_nan eqb abs andb orb].
      rewrite andb_false_r. cbn [orb leb].
      split; apply Qle_bool_iff; assumption.
    + unfold kelly_inputs_undefined, AlphaRanker.calculate_kelly_fraction, gtb.
      cbn [is_nan eqb abs andb orb leb ltb].
      rewrite andb_false_r. cbn [orb]. unfold Qltb.
      destruct (Qle_bool r 0) eqn:Er; cbn [negb].
      * split; reflexivity.
      * assert (Hn : Qltb r 0 = false).
        { unfold Qltb. apply negb_false_iff, Qle_bool_iff.
          apply Qle_bool_gt in Er. lra. }
        cbn [sub neg add div]. rewrite Hn. cbn [neg add div].
        split; reflexivity.
    + unfold kelly_inputs_undefined, AlphaRanker.calculate_kelly_fraction, gtb.
      cbn [is_nan eqb abs andb orb leb ltb].
      rewrite andb_false_r. cbn [orb]. unfold Qltb.
      destruct (Qle_bool r 0) eqn:Er; cbn [negb].
      * split; reflexivity.
      * assert (Hn : Qltb r 0 = false).
        { unfold Qltb. apply negb_false_iff, Qle_bool_iff.
          apply Qle_bool_gt in Er. lra. }
        cbn [sub neg add div]. rewrite Hn. cbn [neg add div].
        split; reflexivity.
    + unfold kelly_inputs_undefined, AlphaRanker.calculate_kelly_fraction, gtb.
      cbn [is_nan eqb abs andb orb leb ltb]. unfold Qltb.
      destruct (Qle_bool r 0) eqn:Er; cbn [negb andb orb].
      * split; reflexivity.
      * reflexivity.
  - (* reward-to-risk +Infinity *)
    destruct w as [w| | |]; try reflexivity.
    unfold kelly_inputs_undefined, AlphaRanker.calculate_kelly_fraction, gtb.
    cbn [is_nan eqb abs andb orb leb ltb sub neg add div].
    destruct (clamp_Fin 0 (25 # 100) ((w + - 0) / 2)) as [k [Ek [H0 H1]]];
      [discriminate|].
    replace (Qeq_bool 2 0) with false by reflexivity.
    rewrite Ek. split; apply Qle_bool_iff; assumption.
  - (* reward-to-risk -Infinity *)
    destruct w; split; reflexivity.
  - (* reward-to-risk NaN *)
    destruct w; reflexivity.
Qed.

(** the original sentence fails at the inputs without a numeric answer:
    a NaN win probability, and Infinity over Infinity *)
Lemma calculate_kelly_fraction_not_a_number :
  let k := AlphaRanker.calculate_kelly_fraction NaN (Fin 2) in
  let k' := AlphaRanker.calculate_kelly_fraction PInf PInf in
  k = NaN /\ leb (Fin 0) k = false /\ leb k (Fin (25 # 100)) = false /\
  k' = NaN /\ leb (Fin 0) k' = false /\ leb k' (Fin (25 # 100)) = false.
Proof. vm_compute. repeat split; reflexivity. Qed.

(** ** Market statistics: ATR on short input *)

(** C10.  For every period [p >= 1] and every candle list with fewer than
    [p + 1] candles, [calculate_atr] returns 0 (the insufficient-data
    value) instead of failing. *)
Theorem calculate_atr_insufficient_data :
  forall (candles : list Utils.Candle) (period : Z),
    (1 <= period)%Z ->
    (Z.of_nat (List.length candles) < period + 1)%Z ->
    Utils.calculate_atr candles period = Fin 0.
Proof.
  intros candles period _ Hlen. unfold Utils.calculate_atr.
  apply Z.ltb_lt in Hlen. rewrite Hlen. reflexivity.
Qed.

Lemma calculate_atr_insufficient_data_witness :
  Utils.calculate_atr fourteen_candles 14 = Fin 0.
Proof.
  apply (calculate_atr_insufficient_data fourteen_candles 14).
  - lia.
  - vm_compute. reflexivity.
Defined.

(** with one more candle the same series has a positive ATR *)
Example calculate_atr_fifteen_candles :
  exists q,
    Utils.calculate_atr
      (Utils.mkCandle 0 (Fin 100) (Fin 110) (Fin 90) (Fin 105) (Fin 1)
         :: fourteen_candles) 14 = Fin q /\ q == 20.
Proof. eexists. split; [vm_compute; reflexivity | reflexivity]. Qed.

(** ** Quantity rounding *)

(** C5, at the input where the code departs from it.  With a step of
    0.125 the function derives one decimal of precision, floors 0.375 to
    0.375 and then [toFixed(1)] rounds that to 0.4: rounding "down" returns
    more than the quantity. *)
Theorem round_to_qty_step_down_exceeds_quantity :
  exists r,
    Utils.round_to_qty_step (Fin (3 # 8)) (Fin (1 # 8)) Utils.Down = Ok (Fin r) /\
    r == 4 # 10 /\
    gtb (Fin r) (Fin (3 # 8)) = true.
Proof. eexists. vm_compute. repeat split; reflexivity. Qed.

(** the third scenario of the specification: 0.12345 at step 0.001 *)
Example round_to_qty_step_scenario :
  exists r,
    Utils.round_to_qty_step (Fin (12345 # 100000)) (Fin (1 # 1000)) Utils.Down
      = Ok (Fin r) /\ r == 123 # 1000.
Proof. eexists. vm_compute. repeat split; reflexivity. Qed.

(** C3, at the input where the code departs from it.  Capital 15, price
    40: the capital cap allows 0.375 units; at a quantity step of 0.125
    the rounding returns 0.4 units, a position of 16. *)
Theorem calculate_position_size_exceeds_capital :
  exists ps,
    RiskPhysics.calculate_position_size DEFAULT_RISK_PHYSICS_CONFIG
      signal_at_40 levels_at_40 RiskPhysics.default_tickSize (Fin (1 # 8)) = Ok ps /\
    eqb (PositionSizing.quantity ps) (Fin (4 # 10)) = true /\
    eqb (PositionSizing.positionSize ps) (Fin 16) = true /\
    gtb (PositionSizing.positionSize ps)
        (RiskPhysicsConfig.maxCapitalPerTrade DEFAULT_RISK_PHYSICS_CONFIG) = true.
Proof. eexists. vm_compute. repeat split; reflexivity. Qed.

(** the same request at the default step of 0.001 stays at the cap *)
Example calculate_position_size_default_step :
  exists ps,
    RiskPhysics.calculate_position_size DEFAULT_RISK_PHYSICS_CONFIG
      signal_at_40 levels_at_40 RiskPhysics.default_tickSize
      RiskPhysics.default_qtyStep = Ok ps /\
    eqb (PositionSizing.positionSize ps) (Fin 15) = true.
Proof. eexists. vm_compute. repeat split; reflexivity. Qed.

(** ** Sorting with a score comparator *)






Section SortByScore.
Context {A : Type}.
Variable score : A -> num.







End SortByScore.

(** ** Binary64 rounding is monotone *)

















(** ** Risk Physics: sides of the protective levels *)












(** the levels of that scenario *)
Example calculate_tp_sl_scenario :
  exists r,
    RiskPhysics64.calculate_tp_sl DEFAULT_RISK_PHYSICS_CONFIG long_signal_50000
                                  None None = Ok r /\
    eqb (RiskLevels.takeProfitPrice r) (Fin 50200) = true /\
    eqb (RiskLevels.stopLossPrice r) (Fin 49850) = true.
Proof. eexists. split; [reflexivity|]. vm_compute. split; reflexivity. Qed.


(** ** Alpha Ranker: filtering and ranking *)





(** the comparator's score is the formula of the specification *)
Lemma combined_score_formula (e : EvaluatedSignal.t) :
  same_number
    (AlphaRanker.combined_score e)
    (add (mul (Fin (6 # 10)) (EvaluatedSignal.ev_score e))
         (mul (Fin (4 # 10)) (mul (EvaluatedSignal.kelly_score e) (Fin 100)))).
Proof.
  unfold AlphaRanker.combined_score.
  destruct (EvaluatedSignal.ev_score e) as [v| | |],
           (EvaluatedSignal.kelly_score e) as [k| | |];
    cbn; try exact I.
  ring.
Qed.

(** four candidates: the third ties with the first, the second has no
    positive net ROI *)
Example evaluate_and_sort_ranking :
  map (fun e => Signal.symbol (EvaluatedSignal.signal e))
      (AlphaRanker.evaluate_and_sort DEFAULT_ALPHA_RANKER_CONFIG
         four_signals tight_book)
  = ["C"; "A"; "B"]%string.
Proof. vm_compute. reflexivity. Qed.

(** the second scenario of the specification: the Kelly score of a signal
    with win probability 0.6 and reward-to-risk 1.5 is capped at 0.25 *)
Example evaluate_signal_kelly_capped :
  eqb (EvaluatedSignal.kelly_score
         (AlphaRanker.evaluate_signal DEFAULT_ALPHA_RANKER_CONFIG
            (named_signal "C" 3) tight_book))
      (Fin (25 # 100)) = true.
Proof. vm_compute. reflexivity. Qed.


(** ** Reasoning about effectful code *)

Lemma returns_ret {A} (a : A) : returns (ret a).
Proof. intro s. exists a, s. reflexivity. Qed.

Lemma returns_on_store f : returns (on_store f).
Proof. intro s. eexists. eexists. reflexivity. Qed.

Lemma returns_log_activity e : returns (log_activity e).
Proof. intro s. eexists. eexists. reflexivity. Qed.

Lemma returns_bind {A B} (m : M A) (k : A -> M B) :
  returns m -> (forall a, returns (k a)) -> returns (bind m k).
Proof.
  intros Hm Hk s. unfold bind.
  destruct (Hm s) as [a [s1 E]]. rewrite E. apply Hk.
Qed.

Lemma returns_try_catch {A} (m : M A) (h : string -> M A) :
  (forall msg, returns (h msg)) -> returns (try_catch m h).
Proof.
  intros Hh s. unfold try_catch.
  destruct (m s) as [[a|msg] s1].
  - exists a, s1. reflexivity.
  - apply Hh.
Qed.

Lemma try_catch_of_value {A} (m : M A) (h : string -> M A) s a s' :
  m s = (Ok a, s') -> try_catch m h s = (Ok a, s').
Proof. intro E. unfold try_catch. rewrite E. reflexivity. Qed.

Lemma ends_with_bind {A B} P (m : M A) (k : A -> M B) :
  (forall a, ends_with P (k a)) -> ends_with P (bind m k).
Proof.
  intros Hk s b s' E. unfold bind in E.
  destruct (m s) as [[a|msg] s1]; [|discriminate].
  eapply Hk. eassumption.
Qed.

Lemma keeps_store_ret {A} (a : A) : keeps_store (ret a).
Proof. intro s. reflexivity. Qed.

Lemma keeps_store_throw {A} msg : keeps_store (@throw A msg).
Proof. intro s. reflexivity. Qed.

Lemma keeps_store_perform {A} c (answer : list Call -> result A) :
  keeps_store (perform c answer).
Proof. intro s. reflexivity. Qed.

Lemma keeps_store_bind {A B} (m : M A) (k : A -> M B) :
  keeps_store m -> (forall a, keeps_store (k a)) -> keeps_store (bind m k).
Proof.
  intros Hm Hk s. unfold bind. specialize (Hm s).
  destruct (m s) as [[a|msg] s1]; cbn [snd] in *.
  - rewrite Hk. assumption.
  - assumption.
Qed.

Lemma keeps_store_try_catch {A} (m : M A) (h : string -> M A) :
  keeps_store m -> (forall msg, keeps_store (h msg)) -> keeps_store (try_catch m h).
Proof.
  intros Hm Hh s. unfold try_catch. specialize (Hm s).
  destruct (m s) as [[a|msg] s1]; cbn [snd] in *.
  - assumption.
  - rewrite Hh. assumption.
Qed.

(** ** Immortal Exit: completion *)

Lemma completeShutdown_done :
  ends_with shutdown_done (on_store BotStateManager.completeShutdown).
Proof.
  intros s a s' E. inversion E; subst. split; reflexivity.
Qed.

Lemma sendFinalNotification_returns venue this positions :
  returns (ImmortalExitProtocol.sendFinalNotification venue this positions).
Proof.
  unfold ImmortalExitProtocol.sendFinalNotification.
  destruct (negb (ImmortalExitProtocol.telegramBot this)).
  - apply returns_ret.
  - apply returns_try_catch. intro msg. apply returns_ret.
Qed.

(** past the guard, the protocol always returns and leaves the shutdown
    state terminal *)
Lemma run_protocol_completes venue this reason s :
  exists s',
    ImmortalExitProtocol.run_protocol venue this reason s = (Ok tt, s') /\
    shutdown_done s'.
Proof.
  unfold ImmortalExitProtocol.run_protocol.
  unfold bind at 1. cbn [on_store]. unfold bind at 1. cbn [log_activity].
  match goal with
  | |- exists s', try_catch ?body ?handler ?s0 = _ /\ _ =>
      assert (Hbody : ends_with shutdown_done body);
      [| assert (Hhandler : forall msg s1, exists s2,
                   handler msg s1 = (Ok tt, s2) /\ shutdown_done s2)]
  end.
  - apply ends_with_bind. intro positions.
    apply ends_with_bind. intros _.
    destruct (Nat.eqb (List.length positions) 0);
      repeat (apply ends_with_bind; intro);
      apply completeShutdown_done.
  - intros msg s1.
    match goal with
    | |- exists s2, ?h s1 = _ /\ _ =>
        assert (Hr : returns h);
        [| destruct (Hr s1) as [[] [s2 E]]; exists s2; split; [exact E|]]
    end.
    + repeat (apply returns_bind;
              [first [apply returns_on_store | apply returns_log_activity
                     | apply sendFinalNotification_returns] | intro]).
      apply returns_on_store.
    + revert E. generalize s1 tt s2.
      change (ends_with shutdown_done
                (on_store (BotStateManager.addShutdownError msg) ;;;
                 log_activity "IMMORTAL_EXIT_ERROR" ;;;
                 ImmortalExitProtocol.sendFinalNotification venue this [] ;;;
                 on_store BotStateManager.completeShutdown)%monad).
      repeat (apply ends_with_bind; intro). apply completeShutdown_done.
  - unfold try_catch.
    match goal with
    | |- exists s', match ?b ?s0 with _ => _ end = _ /\ _ =>
        destruct (b s0) as [[[]|msg] s1] eqn:E
    end.
    + exists s1. split; [reflexivity|]. eapply Hbody. exact E.
    + apply Hhandler.
Qed.

(** C1.  For every shutdown reason, every store and every behaviour of
    the venue and of the notification channel (so whatever positions are
    open and whichever fetches or per-position updates fail), a call of
    [execute(reason)] on a protocol object as its constructor builds it
    returns, and when it has returned the store's shutdown state has
    [shutdownComplete = true] and [isShuttingDown = false]; a later call
    on the same object returns with that state untouched. *)
Theorem execute_completes_shutdown :
  forall (venue : Venue.t) (router : ExecutionRouter.t) (telegramBot : bool)
         (config : ImmortalExitConfig.t) (reason : string) (s : Sys.t),
    exists p' s',
      ImmortalExitProtocol.execute venue
        (ImmortalExitProtocol.new router telegramBot config) reason s
      = (Ok p', s') /\
      ShutdownState.shutdownComplete
        (BotStateManager.shutdownState (Sys.botState s')) = true /\
      ShutdownState.isShuttingDown
        (BotStateManager.shutdownState (Sys.botState s')) = false /\
      forall (venue2 : Venue.t) (reason2 : string),
        ImmortalExitProtocol.execute venue2 p' reason2 s' = (Ok p', s').
Proof.
  intros venue router telegramBot config reason s.
  unfold ImmortalExitProtocol.execute at 1, ImmortalExitProtocol.new.
  cbn [ImmortalExitProtocol.isShuttingDown].
  destruct (run_protocol_completes venue
              (ImmortalExitProtocol.mk false router telegramBot config) reason s)
    as [s' [E [Hc Hs]]].
  unfold bind. rewrite E. eexists. exists s'. split; [reflexivity|].
  split; [assumption|]. split; [assumption|].
  intros venue2 reason2. reflexivity.
Qed.

(** the second scenario of section 8 of the specification, on the store:
    two open positions, one kline request failing *)
Example execute_completes_with_failed_fetch :
  shutdown_done
    (snd (ImmortalExitProtocol.execute venue_btc_klines_down engine_protocol
            "SIGTERM (kill command)" sys0)).
Proof. vm_compute. split; reflexivity. Qed.

(** ** Immortal Exit: the re-entrancy guard *)

Lemma execute_guarded venue p reason s :
  ImmortalExitProtocol.isShuttingDown p = true ->
  ImmortalExitProtocol.execute venue p reason s = (Ok p, s).
Proof.
  intro H. unfold ImmortalExitProtocol.execute. rewrite H. reflexivity.
Qed.

Lemma execute_outcome venue p reason s :
  exists p' s',
    ImmortalExitProtocol.execute venue p reason s = (Ok p', s') /\
    ImmortalExitProtocol.isShuttingDown p' = true /\
    (ImmortalExitProtocol.isShuttingDown p = true -> p' = p /\ s' = s) /\
    (ImmortalExitProtocol.isShuttingDown p = false ->
     p' = ImmortalExitProtocol.mark_shutting_down p).
Proof.
  unfold ImmortalExitProtocol.execute.
  destruct (ImmortalExitProtocol.isShuttingDown p) eqn:E.
  - exists p, s. repeat split; try assumption; discriminate.
  - destruct (run_protocol_completes venue p reason s) as [s' [E' _]].
    unfold bind. rewrite E'. eexists. exists s'.
    repeat split; try reflexivity; discriminate.
Qed.

(** C8 as the code has it.  On one protocol object [execute] runs its
    sequence at most once: every call returns with the object marked as
    shutting down, and a call that finds the mark (on the object as it is
    while a first call is in flight, or as a finished call left it)
    returns at once, whatever the state of the system at that moment,
    without any call on the venue or the notification channel and without
    touching the store. *)
Theorem execute_runs_once_per_object :
  forall (venue : Venue.t) (p : ImmortalExitProtocol.t) (reason : string)
         (s : Sys.t),
    exists p' s',
      ImmortalExitProtocol.execute venue p reason s = (Ok p', s') /\
      ImmortalExitProtocol.isShuttingDown p' = true /\
      forall (venue2 : Venue.t) (reason2 : string) (s2 : Sys.t),
        ImmortalExitProtocol.execute venue2
          (ImmortalExitProtocol.mark_shutting_down p) reason2 s2
        = (Ok (ImmortalExitProtocol.mark_shutting_down p), s2) /\
        ImmortalExitProtocol.execute venue2 p' reason2 s2 = (Ok p', s2).
Proof.
  intros venue p reason s.
  destruct (execute_outcome venue p reason s) as [p' [s' [E [Hp' _]]]].
  exists p', s'. split; [assumption|]. split; [assumption|].
  intros venue2 reason2 s2. split; apply execute_guarded.
  - reflexivity.
  - assumption.
Qed.

(** The guard belongs to the object, not to the process.  The trading
    engine holds one protocol object and the shutdown route creates
    another: run one after the other in the same process, both perform the
    whole sequence on the venue. *)
Lemma second_protocol_object_runs_again :
  let first := ImmortalExitProtocol.execute venue_btc_klines_down
                 engine_protocol "API shutdown request" sys0 in
  let second := ImmortalExitProtocol.execute venue_btc_klines_down
                  route_protocol "API shutdown request" (snd first) in
  filter is_venue_call (Sys.calls (snd first)) <> [] /\
  Sys.calls (snd second) = Sys.calls (snd first) ++ Sys.calls (snd first).
Proof. vm_compute. split; [discriminate | reflexivity]. Qed.

(** the same through the route handler: with a running engine, one POST
    runs the sequence twice *)
Example shutdown_route_runs_protocol_twice :
  let first := ImmortalExitProtocol.execute venue_btc_klines_down
                 engine_protocol "API shutdown request" sys0 in
  Sys.calls
    (snd (ShutdownRoute.POST venue_btc_klines_down
            (Some (TradingEngine.mk engine_protocol)) router_bybit false bybit
            "API shutdown request" sys0))
  = Sys.calls (snd first) ++ Sys.calls (snd first).
Proof. vm_compute. reflexivity. Qed.

(** ** Immortal Exit: failures while re-evaluating *)

Lemma fetchMarketData_keeps_store venue this symbol :
  keeps_store (ImmortalExitProtocol.fetchMarketData venue this symbol).
Proof.
  unfold ImmortalExitProtocol.fetchMarketData.
  apply keeps_store_try_catch; [|intro; apply keeps_store_ret].
  repeat match goal with
         | |- keeps_store (if ?c then _ else _) => destruct c
         | |- keeps_store (bind _ _) =>
             apply keeps_store_bind; [apply keeps_store_perform | intro]
         | |- keeps_store (ret _) => apply keeps_store_ret
         end.
Qed.

(** [reevaluatePosition] never throws: it returns a record for the
    position it was given and leaves the store alone, a failure being
    reported in the record only *)
Lemma reevaluatePosition_outcome venue this position s :
  exists r s',
    ImmortalExitProtocol.reevaluatePosition venue this position s = (Ok r, s') /\
    Sys.botState s' = Sys.botState s /\
    Position.symbol (ReevaluatedPosition.position r) = Position.symbol position.
Proof.
  unfold ImmortalExitProtocol.reevaluatePosition, try_catch, bind.
  pose proof (fetchMarketData_keeps_store venue this (Position.symbol position) s)
    as Hk.
  destruct (ImmortalExitProtocol.fetchMarketData venue this
              (Position.symbol position) s) as [[[[currentPrice atr]|]|msg] s1];
    cbn [snd] in Hk.
  - match goal with
    | |- context [RiskPhysics.calculate_tp_sl ?c ?sg ?a ?b] =>
        destruct (RiskPhysics.calculate_tp_sl c sg a b)
    end; eexists; exists s1; repeat split; assumption || reflexivity.
  - eexists. exists s1. repeat split; assumption || reflexivity.
  - eexists. exists s1. repeat split; assumption || reflexivity.
Qed.

(** Step 2 of the protocol processes every position and never writes to
    the store: its [catch] branch, the only place where it would record a
    shutdown error, cannot be reached. *)
Lemma reevaluate_all_outcome venue this positions :
  forall s,
  exists rs s',
    ImmortalExitProtocol.reevaluate_all venue this positions s = (Ok rs, s') /\
    Sys.botState s' = Sys.botState s /\
    map (fun r => Position.symbol (ReevaluatedPosition.position r)) rs
    = map Position.symbol positions.
Proof.
  induction positions as [|position rest IH]; intro s.
  - exists [], s. repeat split.
  - cbn [ImmortalExitProtocol.reevaluate_all].
    destruct (reevaluatePosition_outcome venue this position s)
      as [r [s1 [E1 [Hs1 Hsym]]]].
    destruct (IH s1) as [rs [s2 [E2 [Hs2 Hsyms]]]].
    exists (r :: rs), s2. split.
    + unfold bind at 1. rewrite (try_catch_of_value _ _ _ _ _ E1).
      unfold bind. rewrite E2. reflexivity.
    + split; [congruence|]. cbn [map]. congruence.
Qed.

(** C2, at the input where the code departs from it: two open positions,
    the kline request for the first one throwing.  Both positions are
    re-evaluated (both kline requests are made) and the run completes, but
    the error list of the shutdown state stays empty: the failure of
    BTCUSDT is not recorded there. *)
Theorem shutdown_fetch_failure_not_recorded :
  let run := ImmortalExitProtocol.execute venue_btc_klines_down
               engine_protocol "SIGINT (Ctrl+C)" sys0 in
  let st := BotStateManager.shutdownState (Sys.botState (snd run)) in
  answer_threw venue_btc_klines_down [CGetPositions bybit]
               (CGetKlines bybit "BTCUSDT") = true /\
  filter (fun c => match c with CGetKlines _ _ => true | _ => false end)
         (Sys.calls (snd run))
  = [CGetKlines bybit "BTCUSDT"; CGetKlines bybit "ETHUSDT"] /\
  map Position.symbol (ShutdownState.positionsBeforeShutdown st)
  = ["BTCUSDT"; "ETHUSDT"]%string /\
  map Position.symbol (ShutdownState.positionsUpdated st) = ["ETHUSDT"%string] /\
  ShutdownState.errors st = [] /\
  ShutdownState.shutdownComplete st = true.
Proof. vm_compute. repeat split; reflexivity. Qed.

(** ** Execution Router: outcomes of a trade request *)











(** On a router whose default venue has no client the same request passes
    every check and the promise of the venue-specific method, returned
    without being awaited, rejects: the error leaves [executeTrade]. *)
Example executeTrade_without_client_throws :
  fst (ExecutionRouter.executeTrade venue_btc_klines_down router_mexc_no_client
         small_trade sys0)
  = Throw "MEXC client not configured".
Proof. vm_compute. reflexivity. Qed.

(* ================================================================== *)
(** * Further properties of the code                                   *)
(* ================================================================== *)

(** ** Decimal precision of a tick or step *)

Lemma log10_up_ge (fuel : nat) (k : Z) (q : Q) : (k <= log10_up fuel k q)%Z.
Proof.
  revert k. induction fuel as [|f IH]; intro k; cbn [log10_up].
  - lia.
  - destruct (Qle_bool (pow10Z (k + 1)) q); [|lia].
    specialize (IH (k + 1)%Z). lia.
Qed.

Lemma log10_down_ge (fuel : nat) (m : Z) (q : Q) : (m <= log10_down fuel m q)%Z.
Proof.
  revert m. induction fuel as [|f IH]; intro m; cbn [log10_down].
  - lia.
  - destruct (Qle_bool 1 (q * pow10Z m)); [lia|].
    specialize (IH (m + 1)%Z). lia.
Qed.

(** a value of 10 or more has a negative precision *)
Lemma floor_log10_of_ten_up (q : Q) : 10 <= q -> (1 <= floor_log10 q)%Z.
Proof.
  intro H. unfold floor_log10.
  replace (Qle_bool 1 q) with true by (symmetry; apply Qle_bool_iff; lra).
  cbn [log10_up].
  change (pow10Z (0 + 1)) with 10.
  replace (Qle_bool 10 q) with true by (symmetry; apply Qle_bool_iff; exact H).
  apply log10_up_ge.
Qed.

Lemma ceil_neg_log10_pos (t : Q) :
  0 < t -> ceil_neg_log10 (Fin t) = Fin (inject_Z (- floor_log10 t)).
Proof.
  intro H. unfold ceil_neg_log10, Qsign.
  replace (t ?= 0) with Gt by (symmetry; apply Qgt_alt; exact H).
  reflexivity.
Qed.

Lemma to_fixed_number_negative_digits (x : num) (p : Z) :
  (p < 0)%Z -> is_throw (to_fixed_number x (Fin (inject_Z p))) = true.
Proof.
  intro H. unfold to_fixed_number.
  replace (Qle_bool 0 (inject_Z p)) with false.
  - rewrite Qceiling_Z.
    replace (p <? 0)%Z with true by (symmetry; apply Z.ltb_lt; exact H).
    reflexivity.
  - symmetry. apply Qle_bool_gt. change 0 with (inject_Z 0).
    rewrite <- Zlt_Qlt. exact H.
Qed.

(** ** Price rounding *)

(** X1.  [round_to_tick_size] throws for every price and every rounding
    mode when the tick size is 10 or more: the precision it derives,
    [Math.ceil(-Math.log10(tickSize))], is negative and [toFixed] refuses
    it ([round_to_qty_step] clamps its precision at 0 and has no such
    case). *)
Theorem round_to_tick_size_large_tick_throws :
  forall (price : num) (t : Q) (mode : Utils.RoundingMode),
    10 <= t ->
    is_throw (MarketStatistics.round_to_tick_size price (Fin t) mode) = true.
Proof.
  intros price t mode H10.
  assert (Ht : 0 < t) by lra.
  unfold MarketStatistics.round_to_tick_size. cbn [leb].
  replace (Qle_bool t 0) with false by (symmetry; apply Qle_bool_gt; exact Ht).
  rewrite (ceil_neg_log10_pos t Ht).
  apply to_fixed_number_negative_digits.
  pose proof (floor_log10_of_ten_up t H10). lia.
Qed.

Lemma round_to_tick_size_large_tick_throws_witness :
  is_throw (MarketStatistics.round_to_tick_size (Fin 50000) (Fin 10) Utils.Nearest)
  = true.
Proof.
  apply (round_to_tick_size_large_tick_throws (Fin 50000) 10 Utils.Nearest).
  discriminate.
Defined.

(** the same step size is accepted by the quantity rounding *)
Example round_to_qty_step_step_of_ten :
  exists r, Utils.round_to_qty_step (Fin 1234) (Fin 10) Utils.Down = Ok (Fin r)
            /\ r == 1230.
Proof. eexists. vm_compute. split; reflexivity. Qed.

(** ** Moving averages *)

Lemma slice_from_last_app {A} (earlier window : list A) (p : Z) :
  (1 <= p)%Z -> Z.of_nat (List.length window) = p ->
  MarketStatistics.slice_from (earlier ++ window) (- p) = window.
Proof.
  intros Hp Hlen. unfold MarketStatistics.slice_from.
  replace (- p <? 0)%Z with true by (symmetry; apply Z.ltb_lt; lia).
  rewrite length_app.
  replace (Z.to_nat (Z.max 0 (Z.of_nat (List.length earlier + List.length window)
                              + - p)))
    with (List.length earlier) by lia.
  rewrite skipn_app, skipn_all, Nat.sub_diag. reflexivity.
Qed.

(** X5.  [calculate_sma] averages the last [period] values and nothing
    else: for an array that ends in [period] values the result is the sum
    of those values, added up in array order from 0, divided by [period],
    whatever precedes them in the array, numbers or not. *)
Theorem calculate_sma_uses_last_values :
  forall (earlier window : list num) (period : Z),
    (1 <= period)%Z ->
    Z.of_nat (List.length window) = period ->
    MarketStatistics.calculate_sma (earlier ++ window) period
    = div (MarketStatistics.sum_of window) (Fin (inject_Z period)) /\
    MarketStatistics.calculate_sma (earlier ++ window) period
    = MarketStatistics.calculate_sma window period.
Proof.
  intros earlier window period Hp Hlen.
  unfold MarketStatistics.calculate_sma.
  replace (Z.of_nat (List.length (earlier ++ window)) <? period)%Z with false
    by (symmetry; apply Z.ltb_ge; rewrite length_app; lia).
  replace (Z.of_nat (List.length window) <? period)%Z with false
    by (symmetry; apply Z.ltb_ge; lia).
  rewrite (slice_from_last_app earlier window period Hp Hlen).
  pose proof (slice_from_last_app [] window period Hp Hlen) as Hwindow.
  cbn [app] in Hwindow. rewrite Hwindow. split; reflexivity.
Qed.

(** the NaN and the 7 in front of the window leave the mean of 1, 3 and 2
    as it is *)
Lemma calculate_sma_uses_last_values_witness :
  MarketStatistics.calculate_sma ([NaN; Fin 7] ++ [Fin 1; Fin 3; Fin 2]) 3
  = div (MarketStatistics.sum_of [Fin 1; Fin 3; Fin 2]) (Fin (inject_Z 3)) /\
  MarketStatistics.calculate_sma ([NaN; Fin 7] ++ [Fin 1; Fin 3; Fin 2]) 3
  = MarketStatistics.calculate_sma [Fin 1; Fin 3; Fin 2] 3.
Proof.
  apply (calculate_sma_uses_last_values [NaN; Fin 7] [Fin 1; Fin 3; Fin 2] 3).
  - lia.
  - reflexivity.
Defined.

(** ** Average true range *)

Lemma true_ranges_not_negative (previous : Utils.Candle)
      (rest : list Utils.Candle) :
  Forall not_negative (Utils.true_ranges previous rest).
Proof.
  revert previous.
  induction rest as [|current rest' IH]; intro previous;
    cbn [Utils.true_ranges]; constructor.
  - apply ltb_max_r. apply not_negative_abs.
  - apply IH.
Qed.

Lemma sum_not_negative (l : list num) (a : num) :
  not_negative a -> Forall not_negative l ->
  not_negative (fold_left (fun sum tr => add sum tr) l a).
Proof.
  intros Ha H. revert a Ha.
  induction H as [|v l Hv _ IH]; intros a Ha; cbn [fold_left].
  - exact Ha.
  - apply IH. apply not_negative_add; assumption.
Qed.

Lemma Forall_firstn {A} (P : A -> Prop) (n : nat) (l : list A) :
  Forall P l -> Forall P (firstn n l).
Proof.
  intro H. revert n. induction H as [|x l Hx _ IH]; intro n.
  - rewrite firstn_nil. constructor.
  - destruct n as [|n]; cbn [firstn]; constructor; [exact Hx | apply IH].
Qed.

Lemma index_num_not_negative (trs : list num) (i : Z) :
  Forall not_negative trs -> not_negative (Utils.index_num trs i).
Proof.
  intro H. unfold Utils.index_num.
  destruct (i <? 0)%Z; [reflexivity|].
  generalize (Z.to_nat i). induction H as [|v l Hv _ IH]; intro n.
  - destruct n; reflexivity.
  - destruct n as [|n]; [exact Hv | apply IH].
Qed.

Lemma wilder_not_negative (fuel : nat) (trs : list num) (period i : Z)
      (atr : num) :
  (1 <= period)%Z ->
  Forall not_negative trs -> not_negative atr ->
  not_negative (Utils.wilder fuel trs period i atr).
Proof.
  intros Hp Htrs. revert i atr.
  induction fuel as [|f IH]; intros i atr Hatr; cbn [Utils.wilder].
  - exact Hatr.
  - destruct (i <? Z.of_nat (List.length trs))%Z; [|exact Hatr].
    apply IH.
    assert (Hpos : 0 < inject_Z period).
    { change 0 with (inject_Z 0). rewrite <- Zlt_Qlt. lia. }
    assert (Hp1 : 0 <= inject_Z (period - 1)).
    { change 0 with (inject_Z 0). rewrite <- Zle_Qle. lia. }
    apply not_negative_div_const; [exact Hpos|].
    apply not_negative_add.
    + apply not_negative_mul_const; assumption.
    + apply index_num_not_negative. exact Htrs.
Qed.

(** X7.  With a period of at least 1, [calculate_atr] never returns a
    negative number, whatever the candles hold: highs below lows, gaps,
    infinite or missing values.  Every true range is the maximum of
    three terms of which two are absolute values, and the smoothing only
    adds such terms, scales them by [period - 1] and divides by the
    period; where the arithmetic has no answer the result is NaN, not a
    negative number. *)
Theorem calculate_atr_never_negative :
  forall (candles : list Utils.Candle) (period : Z),
    (1 <= period)%Z ->
    ltb (Utils.calculate_atr candles period) (Fin 0) = false.
Proof.
  intros candles period Hp.
  change (not_negative (Utils.calculate_atr candles period)).
  unfold Utils.calculate_atr.
  destruct (Z.of_nat (List.length candles) <? period + 1)%Z; [reflexivity|].
  assert (Htrs : Forall not_negative
                   match candles with
                   | [] => []
                   | c :: rest => Utils.true_ranges c rest
                   end).
  { destruct candles as [|c rest]; [constructor|].
    apply true_ranges_not_negative. }
  set (trueRanges := match candles with
                     | [] => []
                     | c :: rest => Utils.true_ranges c rest
                     end) in *.
  cbv zeta.
  destruct (Z.of_nat (List.length trueRanges) <? period)%Z; [reflexivity|].
  apply wilder_not_negative; [exact Hp | exact Htrs |].
  apply not_negative_div_const.
  - change 0 with (inject_Z 0). rewrite <- Zlt_Qlt. lia.
  - apply sum_not_negative; [reflexivity|].
    unfold Utils.slice0. destruct (period <? 0)%Z; apply Forall_firstn;
      exact Htrs.
Qed.

Lemma calculate_atr_never_negative_witness :
  ltb (Utils.calculate_atr
         (Utils.mkCandle 0 (Fin 100) (Fin 90) (Fin 110) NaN (Fin 1)
            :: fourteen_candles) 14) (Fin 0) = false.
Proof.
  apply (calculate_atr_never_negative
           (Utils.mkCandle 0 (Fin 100) (Fin 90) (Fin 110) NaN (Fin 1)
              :: fourteen_candles) 14).
  lia.
Defined.

(** ** Risk Physics: validation of a sized position *)

Lemma ltb_irrefl (a : num) : ltb a a = false.
Proof.
  destruct a as [q| | |]; try reflexivity.
  cbn [ltb]. apply Qltb_ge. apply Qle_refl.
Qed.

Lemma leb_not_gtb (a b : num) : leb a b = true -> gtb a b = false.
Proof.
  unfold gtb.
  destruct a as [x| | |], b as [y| | |]; cbn [leb ltb]; try congruence.
  intro H. apply Qle_bool_iff in H. apply Qltb_ge. exact H.
Qed.

(** [Math.min(a, b)] never compares above [b] *)
Lemma min_not_above (a b : num) : gtb (min a b) b = false.
Proof.
  unfold min.
  destruct (is_nan a || is_nan b) eqn:En.
  - unfold gtb. destruct b; reflexivity.
  - destruct (leb a b) eqn:E.
    + apply leb_not_gtb. exact E.
    + unfold gtb. apply ltb_irrefl.
Qed.

(** X8.  [validate_trade] never finds an error in a sizing that
    [calculate_position_size] produced with the same configuration: the
    only error it knows is a leverage above [maxLeverage], and
    [calculate_position_size] has already capped the leverage there.
    Such a trade is always reported valid, whatever the signal and the
    risk levels. *)
Theorem validate_trade_accepts_sized_position :
  forall (config : RiskPhysicsConfig.t) (signal : Signal.t)
         (riskLevels : RiskLevels.t) (tickSize qtyStep : num)
         (sizing : PositionSizing.t)
         (evaluated : EvaluatedSignal.t) (levels : RiskLevels.t),
    RiskPhysics.calculate_position_size config signal riskLevels tickSize qtyStep
    = Ok sizing ->
    let v := RiskPhysicsTrade.validate_trade config evaluated levels sizing in
    TradeValidation.valid v = true /\ TradeValidation.errors v = [].
Proof.
  intros config signal riskLevels tickSize qtyStep sizing evaluated levels H v.
  assert (Hlev : gtb (PositionSizing.leverage sizing)
                     (RiskPhysicsConfig.maxLeverage config) = false).
  { unfold RiskPhysics.calculate_position_size in H.
    destruct (eqb _ (Fin 0)); [discriminate|].
    cbv zeta in H.
    destruct (Utils.round_to_qty_step _ qtyStep Utils.Down); [|discriminate].
    injection H as <-. cbn [PositionSizing.leverage].
    apply min_not_above. }
  unfold v, RiskPhysicsTrade.validate_trade.
  cbn [TradeValidation.valid TradeValidation.errors].
  rewrite Hlev. split; reflexivity.
Qed.

Lemma validate_trade_accepts_sized_position_witness :
  exists sizing,
    RiskPhysics.calculate_position_size DEFAULT_RISK_PHYSICS_CONFIG
      signal_at_40 levels_at_40 RiskPhysics.default_tickSize (Fin (1 # 8))
    = Ok sizing /\
    let v := RiskPhysicsTrade.validate_trade DEFAULT_RISK_PHYSICS_CONFIG
               (AlphaRanker.evaluate_signal DEFAULT_ALPHA_RANKER_CONFIG
                  signal_at_40 tight_book)
               levels_at_40 sizing in
    TradeValidation.valid v = true /\ TradeValidation.errors v = [].
Proof.
  eexists. split.
  - vm_compute. reflexivity.
  - apply (validate_trade_accepts_sized_position DEFAULT_RISK_PHYSICS_CONFIG
             signal_at_40 levels_at_40 RiskPhysics.default_tickSize
             (Fin (1 # 8))).
    vm_compute. reflexivity.
Defined.

(** ** Risk Physics: maximum drawdown *)

Lemma drawdown_fold_bounds (results : list num) (peak dd cum : num) :
  not_negative peak -> not_negative dd -> ltb dd (neg cum) = false ->
  forall peak' dd' cum',
    fold_left RiskPhysicsTrade.drawdown_step results (peak, dd, cum)
    = (peak', dd', cum') ->
    not_negative dd' /\ ltb dd' (neg cum') = false /\
    cum' = fold_left (fun sum v => add sum v) results cum.
Proof.
  revert peak dd cum.
  induction results as [|r rest IH]; intros peak dd cum Hp Hd Hc peak' dd' cum' E.
  - cbn [fold_left] in *. injection E as <- <- <-. repeat split; assumption.
  - cbn [fold_left RiskPhysicsTrade.drawdown_step] in E.
    apply IH in E; [exact E | | |].
    + apply ltb_max_l. exact Hp.
    + apply ltb_max_r. apply not_negative_sub_max.
    + apply ltb_max_r. apply sub_not_below_neg. apply ltb_max_l. exact Hp.
Qed.

(** X12.  For every series of trade results [calculate_max_drawdown]
    returns a value that is never negative and never less than the loss
    of the whole series (the peak starts at 0, so losses before any gain
    count).  Where the running total has no numeric value the result is
    NaN, which is below nothing. *)
Theorem calculate_max_drawdown_bounds :
  forall tradeResults : list num,
    let d := RiskPhysicsTrade.calculate_max_drawdown tradeResults in
    ltb d (Fin 0) = false /\
    ltb d (neg (MarketStatistics.sum_of tradeResults)) = false.
Proof.
  intro tradeResults. cbv zeta.
  unfold RiskPhysicsTrade.calculate_max_drawdown, MarketStatistics.sum_of.
  destruct tradeResults as [|r rest]; [split; reflexivity|].
  cbn [List.length Nat.eqb].
  destruct (fold_left RiskPhysicsTrade.drawdown_step (r :: rest)
                      (Fin 0, Fin 0, Fin 0)) as [[peak' dd'] cum'] eqn:E.
  destruct (drawdown_fold_bounds (r :: rest) (Fin 0) (Fin 0) (Fin 0)
              eq_refl eq_refl eq_refl peak' dd' cum' E) as [H1 [H2 H3]].
  rewrite <- H3. split; assumption.
Qed.

(** losses before any gain count: two losses of 10 give a drawdown of 20 *)
Example calculate_max_drawdown_of_losses :
  same_number
    (RiskPhysicsTrade.calculate_max_drawdown [Fin (-10); Fin (-10); Fin 5])
    (Fin 20).
Proof. vm_compute. reflexivity. Qed.

(** ** Alpha Ranker: the apex signal *)





(** ** Alpha Ranker: helper functions *)

(** X16.  The leverage that [calculate_optimal_leverage] derives from a
    Kelly fraction of [calculate_kelly_fraction], at the default account
    risk of 2%, lies between 1 and 12.5 for all finite inputs: its cap of
    20 is never reached from a Kelly fraction. *)
Theorem calculate_optimal_leverage_of_kelly_fraction :
  forall (winProbability rewardToRisk : Q),
  exists leverage,
    AlphaRankerHelpers.calculate_optimal_leverage
      (AlphaRanker.calculate_kelly_fraction (Fin winProbability)
                                            (Fin rewardToRisk))
      AlphaRankerHelpers.default_maxAccountRisk = Fin leverage /\
    1 <= leverage <= 25 # 2.
Proof.
  intros w r.
  destruct (calculate_kelly_fraction_value w r) as [k [Ek [Hk0 Hk1]]].
  rewrite Ek.
  unfold AlphaRankerHelpers.calculate_optimal_leverage,
         AlphaRankerHelpers.default_maxAccountRisk.
  cbn [div]. replace (Qeq_bool (2 # 100) 0) with false by reflexivity.
  assert (Hl : k / (2 # 100) == 50 * k) by (field; discriminate).
  unfold min, max. cbn [is_nan orb leb].
  destruct (Qle_bool 1 (k / (2 # 100))) eqn:E1; cbn [is_nan orb leb].
  - apply Qle_bool_iff in E1.
    replace (Qle_bool 20 (k / (2 # 100))) with false
      by (symmetry; apply Qle_bool_gt; rewrite Hl; lra).
    eexists. split; [reflexivity|]. rewrite Hl in *. split; lra.
  - replace (Qle_bool 20 1) with false by reflexivity.
    exists 1. split; [reflexivity|]. split; [apply Qle_refl | discriminate].
Qed.

(** ** Execution Router: risk validation *)

Lemma length_app_one_ne_0 {A} (l : list A) (x : A) :
  Nat.eqb (List.length (l ++ [x])) 0 = false.
Proof. rewrite length_app. cbn. rewrite Nat.add_comm. reflexivity. Qed.

Lemma margin_and_cap_exclude (pv : num) (l M : Q) :
  7 <= l -> M <= 100 ->
  geb (div pv (Fin l)) (Fin 15) = true -> gtb pv (Fin M) = true.
Proof.
  intros Hl HM H. unfold geb, gtb in *.
  assert (Hpos : 0 < l) by lra.
  destruct pv as [v| | |]; cbn [div leb ltb] in *.
  - rewrite (Qeq_bool_false_of_pos l Hpos) in H. cbn [leb] in H.
    apply Qle_bool_iff in H. apply Qltb_lt.
    assert (Hv : v == v / l * l) by (field; lra).
    rewrite Hv. nra.
  - reflexivity.
  - replace (Qltb l 0) with false in H by (symmetry; apply Qltb_ge; lra).
    discriminate.
  - discriminate.
Qed.

Lemma calculateRiskPhysics_invalid router signal currentPrice atr walletBalance
      leverage riskPercent rewardRiskRatio (l M : Q) :
  nullish leverage
          (ExecutionRouterConfig.defaultLeverage (ExecutionRouter.config router))
  = Fin l ->
  ExecutionRouterConfig.minCapitalRequired (ExecutionRouter.config router)
  = Fin 15 ->
  ExecutionRouterConfig.maxCapitalPerTrade (ExecutionRouter.config router)
  = Fin M ->
  7 <= l -> M <= 100 ->
  RouterRisk.isValid
    (ExecutionRouter.calculateRiskPhysics router signal currentPrice atr
       walletBalance leverage riskPercent rewardRiskRatio) = false.
Proof.
  intros HL Hm HM Hl Hcap.
  unfold ExecutionRouter.calculateRiskPhysics.
  rewrite HL, Hm, HM.
  set (pv := mul (div _ (mul atr (Fin (15 # 10)))) currentPrice).
  pose proof (margin_and_cap_exclude pv l M Hl Hcap) as Hex.
  destruct (TradeSignal.is_buy signal);
    match goal with
    | |- context [leb ?x (Fin 0)] => destruct (leb x (Fin 0))
    end;
    (destruct (gtb pv (Fin M)) eqn:Ecap; cbn [RouterRisk.isValid];
     [ rewrite length_app_one_ne_0; reflexivity
     | destruct (geb (div pv (Fin l)) (Fin 15)) eqn:Emargin;
       [ specialize (Hex eq_refl); congruence
       | rewrite andb_false_r; reflexivity ] ]).
Qed.

(** X17.  With a minimum capital of 15 (the constructor's default, and
    what the routes pass) and a maximum capital per trade of at most 100
    (the constructor's default is 100, the routes pass 15 or 100), a
    trade request at a leverage of 7 or more, the default leverage of 10
    included, never passes the router's risk validation: a margin of at
    least 15 needs a position value of at least 105, and a position value
    above the maximum is itself recorded as a validation error.  Every
    such request is answered with [REJECTED], "Risk validation failed",
    and nothing is sent to the venue. *)
Theorem executeTrade_rejects_when_margin_floor_exceeds_cap :
  forall (venue : Venue.t) (router : ExecutionRouter.t)
         (params : TradeParams.t) (s : Sys.t) (l M : Q),
    nullish (TradeParams.leverage params)
            (ExecutionRouterConfig.defaultLeverage (ExecutionRouter.config router))
    = Fin l ->
    ExecutionRouterConfig.minCapitalRequired (ExecutionRouter.config router)
    = Fin 15 ->
    ExecutionRouterConfig.maxCapitalPerTrade (ExecutionRouter.config router)
    = Fin M ->
    7 <= l -> M <= 100 ->
    exists r,
      ExecutionRouter.executeTrade venue router params s = (Ok r, s) /\
      TradeResult.success r = false /\
      TradeResult.status r = "REJECTED"%string /\
      TradeResult.message r = "Risk validation failed"%string.
Proof.
  intros venue router params s l M HL Hm HM Hl Hcap.
  unfold ExecutionRouter.executeTrade. cbv zeta.
  rewrite (calculateRiskPhysics_invalid router (TradeParams.signal params)
             (TradeParams.currentPrice params) (TradeParams.atr params)
             (TradeParams.walletBalance params) (TradeParams.leverage params)
             (TradeParams.riskPercent params)
             (TradeParams.rewardRiskRatio params) l M HL Hm HM Hl Hcap).
  cbn [negb]. eexists. split; [reflexivity|]. repeat split.
Qed.

Lemma executeTrade_rejects_when_margin_floor_exceeds_cap_witness :
  exists r,
    ExecutionRouter.executeTrade venue_btc_klines_down router_bybit
      oversized_trade sys0 = (Ok r, sys0) /\
    TradeResult.success r = false /\
    TradeResult.status r = "REJECTED"%string /\
    TradeResult.message r = "Risk validation failed"%string.
Proof.
  apply (executeTrade_rejects_when_margin_floor_exceeds_cap
           venue_btc_klines_down router_bybit oversized_trade sys0 10 100);
    try reflexivity; discriminate.
Defined.

(** ** Execution Router: rounding to the instrument precision *)

(** the grid of [roundQty] is decimal: with a step of 0.5 a quantity of
    0.7 is left as it is, although it is not a multiple of the step *)
Example roundQty_keeps_non_multiple_of_step :
  same_number (ExecutionRouter.roundQty (Fin (7 # 10)) (Fin (1 # 2)))
              (Fin (7 # 10)).
Proof. vm_compute. reflexivity. Qed.

(** ** Execution Router: the instrument cache *)

Lemma cache_key_eqb_refl (key : Exchange * string) :
  ExecutionRouter.cache_key_eqb key key = true.
Proof.
  destruct key as [e symbol]. unfold ExecutionRouter.cache_key_eqb.
  cbn [fst snd]. rewrite String.eqb_refl.
  destruct e; reflexivity.
Qed.

(** X19.  A lookup of instrument precision that returns has done one of
    three things.  On a cache hit it returned the cached record and
    changed nothing.  On a miss that the venue answered it made that one
    call, put exactly the venue's answer in front of the cache, and every
    further lookup of the same instrument returns the answer without
    asking again.  On a miss without an answer (no client for the
    exchange, or no record at the venue) it returned the default values
    (tick 0.01, step 0.001, notional 5) and left the cache as it was: the
    instrument is still missing from it, so the next lookup asks again.
    A lookup therefore never adds anything to the cache but an answer of
    the venue. *)
Theorem getInstrumentInfo_cache_round_trip :
  forall (venue : Venue.t) (router : ExecutionRouter.t)
         (exchange : Exchange) (symbol : string)
         (s s1 : Sys.t) (info : InstrumentInfo.t),
    ExecutionRouter.getInstrumentInfo venue router exchange symbol s
    = (Ok info, s1) ->
    (ExecutionRouter.cache_get (exchange, symbol) (Sys.instrumentCache s)
     = Some info /\
     s1 = s)
    \/
    (ExecutionRouter.cache_get (exchange, symbol) (Sys.instrumentCache s) = None /\
     Venue.getInstrumentInfo venue (Sys.calls s) exchange symbol
     = Ok (Some info) /\
     Sys.calls s1 = Sys.calls s ++ [CGetInstrumentInfo exchange symbol] /\
     Sys.instrumentCache s1 = ((exchange, symbol), info) :: Sys.instrumentCache s /\
     ExecutionRouter.getInstrumentInfo venue router exchange symbol s1
     = (Ok info, s1))
    \/
    (ExecutionRouter.cache_get (exchange, symbol) (Sys.instrumentCache s) = None /\
     info = ExecutionRouter.default_instrument /\
     Sys.instrumentCache s1 = Sys.instrumentCache s /\
     ExecutionRouter.cache_get (exchange, symbol) (Sys.instrumentCache s1) = None).
Proof.
  intros venue router exchange symbol s s1 info H.
  unfold ExecutionRouter.getInstrumentInfo in H.
  destruct (ExecutionRouter.cache_get (exchange, symbol) (Sys.instrumentCache s))
    as [cached|] eqn:Ecache.
  - injection H as <- <-. left. split; reflexivity.
  - right.
    assert (Hhit : forall s0 : Sys.t,
               ExecutionRouter.cache_get (exchange, symbol)
                 (((exchange, symbol), info) :: Sys.instrumentCache s0)
               = Some info).
    { intro s0. cbn [ExecutionRouter.cache_get].
      rewrite cache_key_eqb_refl. reflexivity. }
    destruct (Exchange_eqb exchange mexc && ExecutionRouter.mexcClient router)
      eqn:Em;
      [| destruct (Exchange_eqb exchange bybit
                   && ExecutionRouter.bybitClient router) eqn:Eb];
      unfold bind, perform, ret, ExecutionRouter.cache_set in H;
      cbn [Sys.calls Sys.instrumentCache Sys.botState Sys.activity] in H.
    + assert (exchange = mexc) as ->.
      { destruct exchange; [reflexivity | discriminate Em]. }
      destruct (Venue.getInstrumentInfo venue (Sys.calls s) mexc symbol)
        as [[found|]|msg]; try discriminate.
      * injection H as <- <-. left.
        cbn [Sys.instrumentCache Sys.calls].
        repeat (split; [reflexivity|]).
        unfold ExecutionRouter.getInstrumentInfo.
        cbn [Sys.instrumentCache]. rewrite Hhit. reflexivity.
      * injection H as <- <-. right.
        cbn [Sys.instrumentCache]. repeat split. exact Ecache.
    + assert (exchange = bybit) as ->.
      { destruct exchange; [discriminate Eb | reflexivity]. }
      destruct (Venue.getInstrumentInfo venue (Sys.calls s) bybit symbol)
        as [[found|]|msg]; try discriminate.
      * injection H as <- <-. left.
        cbn [Sys.instrumentCache Sys.calls].
        repeat (split; [reflexivity|]).
        unfold ExecutionRouter.getInstrumentInfo.
        cbn [Sys.instrumentCache]. rewrite Hhit. reflexivity.
      * injection H as <- <-. right.
        cbn [Sys.instrumentCache]. repeat split. exact Ecache.
    + injection H as <- <-. right. repeat split. exact Ecache.
Qed.

(** the first lookup on the scenario venue is a miss that the venue
    answers: the middle case *)
Lemma getInstrumentInfo_cache_round_trip_witness :
  let info := InstrumentInfo.mk (Fin (1 # 100)) (Fin (1 # 1000)) (Fin 1000) in
  ExecutionRouter.cache_get (bybit, "BTCUSDT"%string) (Sys.instrumentCache sys0)
  = None /\
  Sys.instrumentCache sys_after_lookup
  = ((bybit, "BTCUSDT"%string), info) :: Sys.instrumentCache sys0 /\
  ExecutionRouter.getInstrumentInfo venue_btc_klines_down router_bybit
    bybit "BTCUSDT" sys_after_lookup = (Ok info, sys_after_lookup).
Proof.
  intro info.
  destruct (getInstrumentInfo_cache_round_trip venue_btc_klines_down
              router_bybit bybit "BTCUSDT" sys0 sys_after_lookup info eq_refl)
    as [[Hhit _] | [[Hmiss [_ [_ [Hcache Hagain]]]] | [_ [Hdefault _]]]].
  - discriminate Hhit.
  - split; [exact Hmiss|]. split; [exact Hcache | exact Hagain].
  - discriminate Hdefault.
Defined.

(** ** Execution Router: positions and protective levels *)

(** X20.  [updateTpSl] never throws.  It asks the venue only on Bybit
    with a Bybit client, with exactly one [setTradingStop] call, and
    reports success exactly when that call was answered without an
    error; for MEXC, and for an exchange without client, it reports a
    failure and leaves calls, cache, store and log untouched. *)
Theorem updateTpSl_outcome :
  forall (venue : Venue.t) (router : ExecutionRouter.t) (symbol : string)
         (takeProfit stopLoss : option num) (exchange : Exchange) (s : Sys.t),
  exists (success : bool) (message : string) (s' : Sys.t),
    ExecutionRouter.updateTpSl venue router symbol takeProfit stopLoss exchange s
    = (Ok (success, message), s') /\
    (if Exchange_eqb exchange bybit && ExecutionRouter.bybitClient router
     then
       s' = Sys.mk (Sys.calls s ++ [CSetTradingStop symbol takeProfit stopLoss])
                   (Sys.instrumentCache s) (Sys.botState s) (Sys.activity s) /\
       success = negb (is_throw (Venue.setTradingStop venue (Sys.calls s) symbol
                                   takeProfit stopLoss))
     else s' = s /\ success = false).
Proof.
  intros venue router symbol takeProfit stopLoss exchange s.
  unfold ExecutionRouter.updateTpSl.
  destruct (Exchange_eqb exchange bybit && ExecutionRouter.bybitClient router).
  - unfold try_catch, bind, perform, ret.
    destruct (Venue.setTradingStop venue (Sys.calls s) symbol takeProfit stopLoss)
      as [[]|msg]; cbn [is_throw negb];
      eexists; eexists; eexists; (split; [reflexivity|]); split; reflexivity.
  - destruct (Exchange_eqb exchange mexc && ExecutionRouter.mexcClient router);
      unfold try_catch, throw, ret;
      eexists; eexists; eexists; (split; [reflexivity|]); split; reflexivity.
Qed.

Lemma abs_nonzero (a : num) : eqb a (Fin 0) = false -> eqb (abs a) (Fin 0) = false.
Proof.
  destruct a as [q| | |]; cbn [abs eqb]; try reflexivity.
  intro H. destruct (Qeq_bool (Qabs q) 0) eqn:E; [|reflexivity].
  apply Qeq_bool_iff in E.
  assert (Hq : q == 0).
  { destruct (Qlt_le_dec q 0) as [Hneg|Hpos].
    - rewrite Qabs_neg in E by lra. lra.
    - rewrite Qabs_pos in E by exact Hpos. exact E. }
  apply Qeq_bool_iff in Hq. congruence.
Qed.

(** what a call of the router's [getPositions] amounts to *)
Lemma getPositions_shape venue router exchange s :
  exists ps s',
    ExecutionRouter.getPositions venue router exchange s = (Ok ps, s') /\
    Forall (fun p => eqb (ClientPosition.amount p) (Fin 0) = false) ps /\
    Sys.instrumentCache s' = Sys.instrumentCache s /\
    Sys.botState s' = Sys.botState s /\
    Sys.activity s' = Sys.activity s /\
    (Sys.calls s' = Sys.calls s \/
     Sys.calls s' = Sys.calls s ++ [CGetPositions exchange]) /\
    (is_throw (Venue.getPositions venue (Sys.calls s) exchange) = true -> ps = []).
Proof.
  unfold ExecutionRouter.getPositions.
  destruct (Exchange_eqb exchange mexc && ExecutionRouter.mexcClient router)
    eqn:Em;
    [| destruct (Exchange_eqb exchange bybit && ExecutionRouter.bybitClient router)
         eqn:Eb].
  - assert (exchange = mexc) as ->
      by (destruct exchange; [reflexivity | discriminate Em]).
    unfold try_catch, bind, perform, ret.
    destruct (Venue.getPositions venue (Sys.calls s) mexc) as [l|msg].
    + eexists. eexists. split; [reflexivity|].
      split.
      { apply Forall_forall. intros p Hp. apply in_map_iff in Hp.
        destruct Hp as [p0 [<- Hp0]]. apply filter_In in Hp0.
        cbn [ClientPosition.amount]. apply abs_nonzero.
        apply negb_true_iff. apply Hp0. }
      cbn [Sys.calls Sys.instrumentCache Sys.botState Sys.activity is_throw].
      repeat split; try (right; reflexivity). discriminate.
    + eexists. eexists. split; [reflexivity|]. split; [constructor|].
      cbn [Sys.calls Sys.instrumentCache Sys.botState Sys.activity].
      repeat split; right; reflexivity.
  - assert (exchange = bybit) as ->
      by (destruct exchange; [discriminate Eb | reflexivity]).
    unfold try_catch, bind, perform, ret.
    destruct (Venue.getPositions venue (Sys.calls s) bybit) as [l|msg].
    + eexists. eexists. split; [reflexivity|].
      split.
      { apply Forall_forall. intros p Hp. apply filter_In in Hp.
        apply negb_true_iff. apply Hp. }
      cbn [Sys.calls Sys.instrumentCache Sys.botState Sys.activity is_throw].
      repeat split; try (right; reflexivity). discriminate.
    + eexists. eexists. split; [reflexivity|]. split; [constructor|].
      cbn [Sys.calls Sys.instrumentCache Sys.botState Sys.activity].
      repeat split; right; reflexivity.
  - unfold try_catch, ret. exists [], s. split; [reflexivity|].
    split; [constructor|]. repeat split. left. reflexivity.
Qed.

(** X21.  The router's [getPositions] never throws: it makes at most one
    call, a position request on the exchange asked for, and touches
    nothing else; every position it returns has a non-zero size; and when
    the venue answers with an error, or the exchange has no client, it
    returns the empty list, so that a caller cannot tell a failure from
    an account without positions. *)
Theorem getPositions_never_throws :
  forall (venue : Venue.t) (router : ExecutionRouter.t)
         (exchange : Exchange) (s : Sys.t),
  exists (positions : list ClientPosition.t) (s' : Sys.t),
    ExecutionRouter.getPositions venue router exchange s = (Ok positions, s') /\
    Forall (fun p => eqb (ClientPosition.amount p) (Fin 0) = false) positions /\
    Sys.instrumentCache s' = Sys.instrumentCache s /\
    Sys.botState s' = Sys.botState s /\
    Sys.activity s' = Sys.activity s /\
    (Sys.calls s' = Sys.calls s \/
     Sys.calls s' = Sys.calls s ++ [CGetPositions exchange]) /\
    (is_throw (Venue.getPositions venue (Sys.calls s) exchange) = true ->
     positions = []) /\
    ((match exchange with
      | mexc => ExecutionRouter.mexcClient router
      | bybit => ExecutionRouter.bybitClient router
      end) = false ->
     positions = [] /\ s' = s).
Proof.
  intros venue router exchange s.
  destruct (getPositions_shape venue router exchange s)
    as [ps [s' [E [H1 [H2 [H3 [H4 [H5 H6]]]]]]]].
  exists ps, s'.
  split; [exact E|]. split; [exact H1|]. split; [exact H2|].
  split; [exact H3|]. split; [exact H4|]. split; [exact H5|].
  split; [exact H6|].
  intro Hc. unfold ExecutionRouter.getPositions in E.
  destruct exchange; rewrite Hc in E; cbn [Exchange_eqb andb] in E;
    rewrite ?andb_false_r in E; unfold try_catch, ret in E;
    injection E as <- <-; split; reflexivity.
Qed.

(** ** The calls of an execution *)

Lemma only_calls_ret {A} allowed (a : A) : only_calls allowed (ret a).
Proof. intro s. exists []. cbn. rewrite app_nil_r. split; reflexivity. Qed.

Lemma only_calls_throw {A} allowed msg : only_calls allowed (@throw A msg).
Proof. intro s. exists []. cbn. rewrite app_nil_r. split; reflexivity. Qed.

Lemma only_calls_on_store allowed f : only_calls allowed (on_store f).
Proof. intro s. exists []. cbn. rewrite app_nil_r. split; reflexivity. Qed.

Lemma only_calls_get_store allowed : only_calls allowed get_store.
Proof. intro s. exists []. cbn. rewrite app_nil_r. split; reflexivity. Qed.

Lemma only_calls_log_activity allowed e : only_calls allowed (log_activity e).
Proof. intro s. exists []. cbn. rewrite app_nil_r. split; reflexivity. Qed.

Lemma only_calls_perform {A} allowed c (answer : list Call -> result A) :
  allowed c = true -> only_calls allowed (perform c answer).
Proof.
  intros Hc s. exists [c]. cbn. rewrite Hc. split; reflexivity.
Qed.

Lemma only_calls_bind {A B} allowed (m : M A) (k : A -> M B) :
  only_calls allowed m -> (forall a, only_calls allowed (k a)) ->
  only_calls allowed (bind m k).
Proof.
  intros Hm Hk s. unfold bind.
  destruct (Hm s) as [made1 [E1 F1]].
  destruct (m s) as [[a|msg] s1]; cbn [snd] in *.
  - destruct (Hk a s1) as [made2 [E2 F2]].
    exists (made1 ++ made2). rewrite E2, E1, app_assoc. split; [reflexivity|].
    rewrite forallb_app, F1, F2. reflexivity.
  - exists made1. split; assumption.
Qed.

Lemma only_calls_try_catch {A} allowed (m : M A) (h : string -> M A) :
  only_calls allowed m -> (forall msg, only_calls allowed (h msg)) ->
  only_calls allowed (try_catch m h).
Proof.
  intros Hm Hh s. unfold try_catch.
  destruct (Hm s) as [made1 [E1 F1]].
  destruct (m s) as [[a|msg] s1]; cbn [snd] in *.
  - exists made1. split; assumption.
  - destruct (Hh msg s1) as [made2 [E2 F2]].
    exists (made1 ++ made2). rewrite E2, E1, app_assoc. split; [reflexivity|].
    rewrite forallb_app, F1, F2. reflexivity.
Qed.

Create HintDb calls.

#[local] Hint Resolve only_calls_ret only_calls_throw only_calls_on_store
  only_calls_get_store only_calls_log_activity : calls.

Section CallsOfShutdown.
Variable venue : Venue.t.
Variable this : ImmortalExitProtocol.t.
Variable allowed : Call -> bool.
Hypothesis allowed_positions : forall e, allowed (CGetPositions e) = true.
Hypothesis allowed_klines : forall e symbol, allowed (CGetKlines e symbol) = true.
Hypothesis allowed_message : forall text, allowed (CSendMessage text) = true.
Hypothesis allowed_stop :
  ImmortalExitConfig.exchange (ImmortalExitProtocol.config this) = bybit ->
  forall symbol tp sl, allowed (CSetTradingStop symbol tp sl) = true.

Lemma getPositions_calls exchange :
  only_calls allowed
    (ExecutionRouter.getPositions venue (ImmortalExitProtocol.router this) exchange).
Proof.
  unfold ExecutionRouter.getPositions.
  apply only_calls_try_catch; [|auto with calls].
  repeat match goal with
         | |- only_calls _ (if ?c then _ else _) => destruct c
         end;
    auto with calls;
    (apply only_calls_bind;
     [apply only_calls_perform; apply allowed_positions | auto with calls]).
Qed.

Lemma updateTpSl_calls symbol tp sl :
  only_calls allowed
    (ExecutionRouter.updateTpSl venue (ImmortalExitProtocol.router this)
       symbol tp sl
       (ImmortalExitConfig.exchange (ImmortalExitProtocol.config this))).
Proof.
  unfold ExecutionRouter.updateTpSl.
  apply only_calls_try_catch; [|auto with calls].
  destruct (Exchange_eqb _ bybit && _) eqn:E.
  - apply only_calls_bind; [|auto with calls].
    apply only_calls_perform. apply allowed_stop.
    apply andb_true_iff in E. destruct E as [E _].
    destruct (ImmortalExitConfig.exchange (ImmortalExitProtocol.config this));
      [discriminate E | reflexivity].
  - destruct (Exchange_eqb _ mexc && _); auto with calls.
Qed.

Lemma fetchOpenPositions_calls :
  only_calls allowed (ImmortalExitProtocol.fetchOpenPositions venue this).
Proof.
  unfold ImmortalExitProtocol.fetchOpenPositions.
  apply only_calls_bind.
  - induction (Z.to_nat _) as [|n IH];
      cbn [ImmortalExitProtocol.fetch_attempts]; [auto with calls|].
    apply only_calls_bind.
    + apply only_calls_try_catch; [|auto with calls].
      apply only_calls_bind; [apply getPositions_calls | auto with calls].
    + intros [ps|]; [auto with calls | exact IH].
  - intros [ps|]; [auto with calls|].
    apply only_calls_bind; auto with calls.
Qed.

Lemma fetchMarketData_calls symbol :
  only_calls allowed (ImmortalExitProtocol.fetchMarketData venue this symbol).
Proof.
  unfold ImmortalExitProtocol.fetchMarketData.
  apply only_calls_try_catch; [|auto with calls].
  repeat match goal with
         | |- only_calls _ (if ?c then _ else _) => destruct c
         end;
    auto with calls;
    (apply only_calls_bind;
     [apply only_calls_perform; apply allowed_klines
     | intro klines; destruct (_ <? _)%nat; auto with calls]).
Qed.

Lemma reevaluatePosition_calls position :
  only_calls allowed (ImmortalExitProtocol.reevaluatePosition venue this position).
Proof.
  unfold ImmortalExitProtocol.reevaluatePosition.
  apply only_calls_try_catch; [|auto with calls].
  apply only_calls_bind; [apply fetchMarketData_calls|].
  intros [[currentPrice atr]|]; [|auto with calls].
  destruct (RiskPhysics.calculate_tp_sl _ _ _ _); auto with calls.
Qed.

Lemma updatePositionOnExchange_calls position newSL newTP :
  only_calls allowed
    (ImmortalExitProtocol.updatePositionOnExchange venue this position newSL newTP).
Proof.
  unfold ImmortalExitProtocol.updatePositionOnExchange.
  generalize (@None string).
  induction (Z.to_nat _) as [|n IH]; intro lastError;
    cbn [ImmortalExitProtocol.update_attempts]; [auto with calls|].
  apply only_calls_bind.
  - apply only_calls_try_catch; [|auto with calls].
    apply only_calls_bind; [apply updateTpSl_calls|].
    intros [success message]. cbn [fst snd].
    destruct success; [|auto with calls].
    apply only_calls_bind; auto with calls.
  - intros [errorMessage|]; [apply IH | auto with calls].
Qed.

Lemma sendFinalNotification_calls positions :
  only_calls allowed
    (ImmortalExitProtocol.sendFinalNotification venue this positions).
Proof.
  unfold ImmortalExitProtocol.sendFinalNotification.
  destruct (negb _); [auto with calls|].
  apply only_calls_try_catch; [|auto with calls].
  apply only_calls_bind; [auto with calls|].
  intro store. apply only_calls_perform. apply allowed_message.
Qed.

Lemma reevaluate_all_calls positions :
  only_calls allowed (ImmortalExitProtocol.reevaluate_all venue this positions).
Proof.
  induction positions as [|position rest IH];
    cbn [ImmortalExitProtocol.reevaluate_all]; [auto with calls|].
  apply only_calls_bind.
  - apply only_calls_try_catch; [apply reevaluatePosition_calls|].
    intro msg. apply only_calls_bind; auto with calls.
  - intro r. apply only_calls_bind; [exact IH | auto with calls].
Qed.

Lemma update_all_calls reevaluated :
  only_calls allowed (ImmortalExitProtocol.update_all venue this reevaluated).
Proof.
  induction reevaluated as [|r rest IH];
    cbn [ImmortalExitProtocol.update_all]; [auto with calls|].
  apply only_calls_bind.
  - destruct (ReevaluatedPosition.updated r); [|auto with calls].
    apply only_calls_try_catch.
    + apply only_calls_bind; [apply updatePositionOnExchange_calls|].
      intros _. apply only_calls_bind; auto with calls.
    + intro msg. apply only_calls_bind; auto with calls.
  - intro r'. apply only_calls_bind; [exact IH | auto with calls].
Qed.

Lemma run_protocol_calls reason :
  only_calls allowed (ImmortalExitProtocol.run_protocol venue this reason).
Proof.
  unfold ImmortalExitProtocol.run_protocol, ImmortalExitProtocol.logShutdown.
  apply only_calls_bind; [auto with calls|]. intros _.
  apply only_calls_bind; [auto with calls|]. intros _.
  apply only_calls_try_catch.
  - apply only_calls_bind; [apply fetchOpenPositions_calls|]. intro positions.
    apply only_calls_bind; [auto with calls|]. intros _.
    destruct (Nat.eqb _ 0).
    + apply only_calls_bind; [apply sendFinalNotification_calls|]. intros _.
      apply only_calls_bind; auto with calls.
    + apply only_calls_bind; [apply reevaluate_all_calls|]. intro rs.
      apply only_calls_bind; [apply update_all_calls|]. intro rs'.
      apply only_calls_bind; [apply sendFinalNotification_calls|]. intros _.
      apply only_calls_bind; auto with calls.
  - intro msg.
    apply only_calls_bind; [auto with calls|]. intros _.
    apply only_calls_bind; [auto with calls|]. intros _.
    apply only_calls_bind; [apply sendFinalNotification_calls|]. intros _.
    auto with calls.
Qed.

Lemma execute_calls reason :
  only_calls allowed (ImmortalExitProtocol.execute venue this reason).
Proof.
  unfold ImmortalExitProtocol.execute.
  destruct (ImmortalExitProtocol.isShuttingDown this); [auto with calls|].
  apply only_calls_bind; [apply run_protocol_calls | auto with calls].
Qed.
End CallsOfShutdown.

(** ** Immortal Exit: what the shutdown never does *)

(** X22.  Whatever the venue answers and whatever the store holds,
    [execute] only reads positions and klines, sets protective levels and
    sends the notification: it never places an order, never changes the
    leverage and never asks for instrument precision, so a shutdown
    neither opens nor closes a position. *)
Theorem execute_never_trades :
  forall (venue : Venue.t) (this : ImmortalExitProtocol.t)
         (reason : string) (s : Sys.t),
  exists made,
    Sys.calls (snd (ImmortalExitProtocol.execute venue this reason s))
    = Sys.calls s ++ made /\
    Forall (fun c => is_shutdown_call c = true /\ is_order_call c = false) made.
Proof.
  intros venue this reason s.
  destruct (execute_calls venue this is_shutdown_call
              (fun _ => eq_refl) (fun _ _ => eq_refl) (fun _ => eq_refl)
              (fun _ _ _ _ => eq_refl) reason s) as [made [E F]].
  exists made. split; [exact E|].
  rewrite forallb_forall in F. apply Forall_forall. intros c Hc.
  specialize (F c Hc). split; [exact F|].
  destruct c; try reflexivity; discriminate F.
Qed.

(** ** Immortal Exit: fetching the open positions *)

(** with at least one attempt allowed, [fetchOpenPositions] is one call
    of the router's [getPositions] followed by the conversion *)
Lemma fetchOpenPositions_shape venue this s :
  (1 <= ImmortalExitConfig.maxRetries (ImmortalExitProtocol.config this))%Z ->
  exists ps s',
    ExecutionRouter.getPositions venue (ImmortalExitProtocol.router this)
      (ImmortalExitConfig.exchange (ImmortalExitProtocol.config this)) s
    = (Ok ps, s') /\
    ImmortalExitProtocol.fetchOpenPositions venue this s
    = (Ok (ImmortalExitProtocol.convert_positions venue this 0 ps), s').
Proof.
  intro Hretries.
  destruct (getPositions_shape venue (ImmortalExitProtocol.router this)
              (ImmortalExitConfig.exchange (ImmortalExitProtocol.config this)) s)
    as [ps [s' [E _]]].
  exists ps, s'. split; [exact E|].
  unfold ImmortalExitProtocol.fetchOpenPositions.
  destruct (Z.to_nat (ImmortalExitConfig.maxRetries
                        (ImmortalExitProtocol.config this))) as [|n] eqn:En;
    [lia|].
  cbn [ImmortalExitProtocol.fetch_attempts].
  unfold bind, try_catch, ret. rewrite E. reflexivity.
Qed.

(** X23.  With [maxRetries] of at least 1, [fetchOpenPositions] makes a
    single attempt and never reads the positions held in the Bot State
    Store: the router's [getPositions] swallows every error, so the
    retry loop and the fallback on the locally cached positions are never
    reached.  When the venue answers the position request with an error
    the result is the empty list. *)
Theorem fetchOpenPositions_single_attempt :
  forall (venue : Venue.t) (this : ImmortalExitProtocol.t) (s : Sys.t),
    (1 <= ImmortalExitConfig.maxRetries (ImmortalExitProtocol.config this))%Z ->
    let exchange :=
      ImmortalExitConfig.exchange (ImmortalExitProtocol.config this) in
    exists (fetched : list ClientPosition.t) (s' : Sys.t),
      ImmortalExitProtocol.fetchOpenPositions venue this s
      = (Ok (ImmortalExitProtocol.convert_positions venue this 0 fetched), s') /\
      ExecutionRouter.getPositions venue (ImmortalExitProtocol.router this)
        exchange s = (Ok fetched, s') /\
      Sys.botState s' = Sys.botState s /\
      (Sys.calls s' = Sys.calls s \/
       Sys.calls s' = Sys.calls s ++ [CGetPositions exchange]) /\
      (is_throw (Venue.getPositions venue (Sys.calls s) exchange) = true ->
       fetched = []).
Proof.
  intros venue this s Hretries exchange.
  destruct (fetchOpenPositions_shape venue this s Hretries)
    as [ps [s' [E Ef]]].
  destruct (getPositions_shape venue (ImmortalExitProtocol.router this)
              exchange s)
    as [ps' [s'' [E' [_ [_ [Hstore [_ [Hcalls Hthrow]]]]]]]].
  fold exchange in E. rewrite E in E'. injection E' as <- <-.
  exists ps, s'. repeat split; assumption.
Qed.

Lemma fetchOpenPositions_single_attempt_witness :
  exists (fetched : list ClientPosition.t) (s' : Sys.t),
    ImmortalExitProtocol.fetchOpenPositions venue_btc_klines_down
      engine_protocol sys0
    = (Ok (ImmortalExitProtocol.convert_positions venue_btc_klines_down
             engine_protocol 0 fetched), s') /\
    ExecutionRouter.getPositions venue_btc_klines_down
      (ImmortalExitProtocol.router engine_protocol) bybit sys0
    = (Ok fetched, s') /\
    Sys.botState s' = Sys.botState sys0 /\
    (Sys.calls s' = Sys.calls sys0 \/
     Sys.calls s' = Sys.calls sys0 ++ [CGetPositions bybit]) /\
    (is_throw (Venue.getPositions venue_btc_klines_down (Sys.calls sys0) bybit)
     = true -> fetched = []).
Proof.
  apply (fetchOpenPositions_single_attempt venue_btc_klines_down
           engine_protocol sys0).
  vm_compute. discriminate.
Defined.

Lemma sendFinalNotification_keeps_store venue this positions :
  keeps_store (ImmortalExitProtocol.sendFinalNotification venue this positions).
Proof.
  unfold ImmortalExitProtocol.sendFinalNotification.
  destruct (negb _); [apply keeps_store_ret|].
  apply keeps_store_try_catch; [|intro; apply keeps_store_ret].
  apply keeps_store_bind; [intro s; reflexivity|].
  intro store. apply keeps_store_perform.
Qed.

(** X24.  When the venue answers the position request of a shutdown with
    an error (and at least one attempt is allowed), [execute] finishes as
    a shutdown without positions: the store ends with an empty error
    list, an empty list of positions before shutdown and
    [shutdownComplete = true], and no kline or protective-level call is
    made; the positions held in the store are not used.  The venue's
    failure leaves no trace in the shutdown state. *)
Theorem execute_hides_position_fetch_failure :
  forall (venue : Venue.t) (this : ImmortalExitProtocol.t)
         (reason : string) (s : Sys.t),
    ImmortalExitProtocol.isShuttingDown this = false ->
    (1 <= ImmortalExitConfig.maxRetries (ImmortalExitProtocol.config this))%Z ->
    is_throw (Venue.getPositions venue (Sys.calls s)
                (ImmortalExitConfig.exchange (ImmortalExitProtocol.config this)))
    = true ->
    let s' := snd (ImmortalExitProtocol.execute venue this reason s) in
    shutdown_errors s' = [] /\
    ShutdownState.positionsBeforeShutdown
      (BotStateManager.shutdownState (Sys.botState s')) = [] /\
    shutdown_done s' /\
    exists made,
      Sys.calls s' = Sys.calls s ++ made /\
      Forall (fun c => match c with
                       | CGetPositions _ | CSendMessage _ => True
                       | _ => False
                       end) made.
Proof.
  intros venue this reason s Hflag Hretries Hthrow s'.
  set (s1 := Sys.mk (Sys.calls s) (Sys.instrumentCache s)
                    (BotStateManager.initiateShutdown (Venue.now venue) reason
                                                      (Sys.botState s))
                    ("IMMORTAL_EXIT_STARTED"%string :: Sys.activity s)).
  destruct (fetchOpenPositions_shape venue this s1 Hretries)
    as [ps [s2 [Eg Ef]]].
  destruct (getPositions_shape venue (ImmortalExitProtocol.router this)
              (ImmortalExitConfig.exchange (ImmortalExitProtocol.config this)) s1)
    as [ps' [s2' [Eg' [_ [_ [Hstore [_ [Hcalls Hnone]]]]]]]].
  rewrite Eg in Eg'. injection Eg' as <- <-.
  rewrite (Hnone Hthrow) in Ef. cbn [ImmortalExitProtocol.convert_positions] in Ef.
  set (s3 := Sys.mk (Sys.calls s2) (Sys.instrumentCache s2)
                    (BotStateManager.setShutdownPositionsFetched []
                                                                 (Sys.botState s2))
                    (Sys.activity s2)).
  destruct (sendFinalNotification_returns venue this [] s3) as [[] [s4 E4]].
  pose proof (sendFinalNotification_keeps_store venue this [] s3) as K4.
  destruct (sendFinalNotification_calls venue this
              (fun c => match c with CSendMessage _ => true | _ => false end)
              (fun _ => eq_refl) [] s3) as [sent [Esent Fsent]].
  rewrite E4 in K4, Esent. cbn [snd] in K4, Esent.
  assert (E : ImmortalExitProtocol.execute venue this reason s
              = (Ok (ImmortalExitProtocol.mark_shutting_down this),
                 Sys.mk (Sys.calls s4) (Sys.instrumentCache s4)
                        (BotStateManager.completeShutdown (Sys.botState s4))
                        ("IMMORTAL_EXIT_COMPLETE"%string :: Sys.activity s4))).
  { unfold ImmortalExitProtocol.execute. rewrite Hflag.
    unfold ImmortalExitProtocol.run_protocol, ImmortalExitProtocol.logShutdown.
    unfold bind at 1. unfold bind at 1. cbn [on_store].
    unfold bind at 1. cbn [log_activity].
    cbn [Sys.calls Sys.instrumentCache Sys.botState Sys.activity]. fold s1.
    unfold try_catch. unfold bind at 1. rewrite Ef.
    unfold bind at 1. cbn [on_store List.length Nat.eqb]. fold s3.
    unfold bind at 1. rewrite E4.
    reflexivity. }
  unfold s'. rewrite E. clear E.
  unfold shutdown_errors, shutdown_done.
  cbn [snd Sys.botState Sys.calls]. rewrite K4. unfold s3. cbn [Sys.botState].
  rewrite Hstore. unfold s1. cbn [Sys.botState].
  split; [reflexivity|]. split; [reflexivity|]. split; [split; reflexivity|].
  rewrite Esent. unfold s3. cbn [Sys.calls].
  assert (Hmsgs : Forall (fun c => match c with
                                   | CGetPositions _ | CSendMessage _ => True
                                   | _ => False
                                   end) sent).
  { rewrite forallb_forall in Fsent. apply Forall_forall. intros c Hc.
    specialize (Fsent c Hc). destruct c; try discriminate Fsent. exact I. }
  destruct Hcalls as [Hc | Hc]; rewrite Hc; unfold s1; cbn [Sys.calls].
  - exists sent. split; [reflexivity | exact Hmsgs].
  - exists (CGetPositions
              (ImmortalExitConfig.exchange (ImmortalExitProtocol.config this))
            :: sent).
    split; [rewrite <- app_assoc; reflexivity|].
    constructor; [exact I | exact Hmsgs].
Qed.

Lemma execute_hides_position_fetch_failure_witness :
  let s' := snd (ImmortalExitProtocol.execute venue_positions_down
                   engine_protocol "SIGTERM (kill command)" sys_with_position) in
  shutdown_errors s' = [] /\
  ShutdownState.positionsBeforeShutdown
    (BotStateManager.shutdownState (Sys.botState s')) = [] /\
  shutdown_done s' /\
  exists made,
    Sys.calls s' = Sys.calls sys_with_position ++ made /\
    Forall (fun c => match c with
                     | CGetPositions _ | CSendMessage _ => True
                     | _ => False
                     end) made.
Proof.
  apply (execute_hides_position_fetch_failure venue_positions_down
           engine_protocol "SIGTERM (kill command)" sys_with_position).
  - reflexivity.
  - vm_compute. discriminate.
  - reflexivity.
Defined.

(** ** Immortal Exit: protective levels on MEXC *)

Lemma keeps_updated_ret {A} (a : A) : keeps_updated (ret a).
Proof. intro s. reflexivity. Qed.

Lemma keeps_updated_throw {A} msg : keeps_updated (@throw A msg).
Proof. intro s. reflexivity. Qed.

Lemma keeps_updated_log_activity e : keeps_updated (log_activity e).
Proof. intro s. reflexivity. Qed.

Lemma keeps_updated_of_keeps_store {A} (m : M A) :
  keeps_store m -> keeps_updated m.
Proof. intros H s. unfold positions_updated. rewrite H. reflexivity. Qed.

Lemma keeps_updated_bind {A B} (m : M A) (k : A -> M B) :
  keeps_updated m -> (forall a, keeps_updated (k a)) -> keeps_updated (bind m k).
Proof.
  intros Hm Hk s. unfold bind. specialize (Hm s).
  destruct (m s) as [[a|msg] s1]; cbn [snd] in *.
  - rewrite Hk. assumption.
  - assumption.
Qed.

Lemma keeps_updated_try_catch {A} (m : M A) (h : string -> M A) :
  keeps_updated m -> (forall msg, keeps_updated (h msg)) ->
  keeps_updated (try_catch m h).
Proof.
  intros Hm Hh s. unfold try_catch. specialize (Hm s).
  destruct (m s) as [[a|msg] s1]; cbn [snd] in *.
  - assumption.
  - rewrite Hh. assumption.
Qed.

Lemma keeps_updated_initiateShutdown now reason :
  keeps_updated (on_store (BotStateManager.initiateShutdown now reason)).
Proof. intro s. reflexivity. Qed.

Lemma keeps_updated_positionsFetched positions :
  keeps_updated (on_store (BotStateManager.setShutdownPositionsFetched positions)).
Proof. intro s. reflexivity. Qed.

Lemma keeps_updated_addShutdownError msg :
  keeps_updated (on_store (BotStateManager.addShutdownError msg)).
Proof. intro s. reflexivity. Qed.

Lemma keeps_updated_completeShutdown :
  keeps_updated (on_store BotStateManager.completeShutdown).
Proof. intro s. reflexivity. Qed.

Create HintDb updated.

#[local] Hint Resolve keeps_updated_ret keeps_updated_throw
  keeps_updated_log_activity keeps_updated_initiateShutdown
  keeps_updated_positionsFetched keeps_updated_addShutdownError
  keeps_updated_completeShutdown : updated.

Section ShutdownOnMexc.
Variable venue : Venue.t.
Variable this : ImmortalExitProtocol.t.
Hypothesis on_mexc :
  ImmortalExitConfig.exchange (ImmortalExitProtocol.config this) = mexc.

(** on MEXC an update of the protective levels fails without a call *)
Lemma updateTpSl_on_mexc symbol tp sl s :
  exists message,
    ExecutionRouter.updateTpSl venue (ImmortalExitProtocol.router this)
      symbol tp sl
      (ImmortalExitConfig.exchange (ImmortalExitProtocol.config this)) s
    = (Ok (false, message), s).
Proof.
  rewrite on_mexc. unfold ExecutionRouter.updateTpSl.
  cbn [Exchange_eqb andb].
  destruct (ExecutionRouter.mexcClient (ImmortalExitProtocol.router this));
    eexists; reflexivity.
Qed.

Lemma updatePositionOnExchange_on_mexc position newSL newTP s :
  exists message,
    ImmortalExitProtocol.updatePositionOnExchange venue this position newSL newTP s
    = (Throw message, s).
Proof.
  unfold ImmortalExitProtocol.updatePositionOnExchange.
  generalize (@None string).
  induction (Z.to_nat _) as [|n IH]; intro lastError;
    cbn [ImmortalExitProtocol.update_attempts].
  - eexists. reflexivity.
  - destruct (updateTpSl_on_mexc (Position.symbol position) (Some newTP)
                (Some newSL) s) as [message E].
    unfold bind at 1. unfold try_catch. unfold bind at 1. rewrite E.
    cbn [fst snd]. unfold throw, ret. apply IH.
Qed.

Lemma update_all_on_mexc reevaluated :
  keeps_updated (ImmortalExitProtocol.update_all venue this reevaluated).
Proof.
  induction reevaluated as [|r rest IH];
    cbn [ImmortalExitProtocol.update_all]; [auto with updated|].
  apply keeps_updated_bind.
  - destruct (ReevaluatedPosition.updated r); [|auto with updated].
    intro s. unfold try_catch. unfold bind at 1.
    destruct (updatePositionOnExchange_on_mexc
                (ReevaluatedPosition.position r) (ReevaluatedPosition.newSL r)
                (ReevaluatedPosition.newTP r) s) as [message E].
    rewrite E. reflexivity.
  - intro r'. apply keeps_updated_bind; [exact IH | auto with updated].
Qed.

Lemma reevaluate_all_keeps_updated positions :
  keeps_updated (ImmortalExitProtocol.reevaluate_all venue this positions).
Proof.
  apply keeps_updated_of_keeps_store.
  intro s. destruct (reevaluate_all_outcome venue this positions s)
    as [rs [s' [E [Hs _]]]].
  rewrite E. exact Hs.
Qed.
End ShutdownOnMexc.

Lemma getPositions_keeps_store venue router exchange :
  keeps_store (ExecutionRouter.getPositions venue router exchange).
Proof.
  intro s.
  destruct (getPositions_shape venue router exchange s)
    as [ps [s' [E [_ [_ [Hstore _]]]]]].
  rewrite E. exact Hstore.
Qed.

Lemma fetchOpenPositions_keeps_store venue this :
  keeps_store (ImmortalExitProtocol.fetchOpenPositions venue this).
Proof.
  unfold ImmortalExitProtocol.fetchOpenPositions.
  apply keeps_store_bind.
  - induction (Z.to_nat _) as [|n IH];
      cbn [ImmortalExitProtocol.fetch_attempts]; [apply keeps_store_ret|].
    apply keeps_store_bind.
    + apply keeps_store_try_catch; [|intro; apply keeps_store_ret].
      apply keeps_store_bind; [apply getPositions_keeps_store|].
      intro. apply keeps_store_ret.
    + intros [ps|]; [apply keeps_store_ret | exact IH].
  - intros [ps|]; [apply keeps_store_ret|].
    apply keeps_store_bind; [intro s; reflexivity|].
    intro. apply keeps_store_ret.
Qed.

(** X25.  A shutdown configured for MEXC never sets a protective level:
    the router has no MEXC implementation of [updateTpSl], so [execute]
    makes no [setTradingStop] call and the list of positions recorded as
    updated is after the run what it was before, whatever the venue
    answers and however many positions need new levels. *)
Theorem execute_on_mexc_updates_nothing :
  forall (venue : Venue.t) (this : ImmortalExitProtocol.t)
         (reason : string) (s : Sys.t),
    ImmortalExitConfig.exchange (ImmortalExitProtocol.config this) = mexc ->
    let s' := snd (ImmortalExitProtocol.execute venue this reason s) in
    positions_updated s' = positions_updated s /\
    exists made,
      Sys.calls s' = Sys.calls s ++ made /\
      Forall (fun c => is_trading_stop_call c = false) made.
Proof.
  intros venue this reason s Hmexc s'. split.
  - unfold s'.
    assert (K : keeps_updated (ImmortalExitProtocol.execute venue this reason)).
    { unfold ImmortalExitProtocol.execute.
      destruct (ImmortalExitProtocol.isShuttingDown this); [auto with updated|].
      apply keeps_updated_bind; [|auto with updated].
      unfold ImmortalExitProtocol.run_protocol, ImmortalExitProtocol.logShutdown.
      apply keeps_updated_bind; [auto with updated|]. intros _.
      apply keeps_updated_bind; [auto with updated|]. intros _.
      assert (Hsend : forall positions,
                 keeps_updated
                   (ImmortalExitProtocol.sendFinalNotification venue this positions)).
      { intro positions. apply keeps_updated_of_keeps_store.
        apply sendFinalNotification_keeps_store. }
      apply keeps_updated_try_catch.
      - apply keeps_updated_bind.
        { apply keeps_updated_of_keeps_store. apply fetchOpenPositions_keeps_store. }
        intro positions.
        apply keeps_updated_bind; [auto with updated|]. intros _.
        destruct (Nat.eqb _ 0).
        + apply keeps_updated_bind; [apply Hsend|]. intros _.
          apply keeps_updated_bind; auto with updated.
        + apply keeps_updated_bind; [apply reevaluate_all_keeps_updated|].
          intro rs.
          apply keeps_updated_bind; [apply update_all_on_mexc; exact Hmexc|].
          intro rs'.
          apply keeps_updated_bind; [apply Hsend|]. intros _.
          apply keeps_updated_bind; auto with updated.
      - intro msg.
        apply keeps_updated_bind; [auto with updated|]. intros _.
        apply keeps_updated_bind; [auto with updated|]. intros _.
        apply keeps_updated_bind; [apply Hsend|]. intros _.
        auto with updated. }
    apply K.
  - destruct (execute_calls venue this
                (fun c => negb (is_trading_stop_call c))
                (fun _ => eq_refl) (fun _ _ => eq_refl) (fun _ => eq_refl))
      with (reason := reason) (s := s) as [made [E F]].
    + intro Hbybit. rewrite Hmexc in Hbybit. discriminate Hbybit.
    + exists made. split; [exact E|].
      rewrite forallb_forall in F. apply Forall_forall. intros c Hc.
      apply negb_true_iff. apply F. exact Hc.
Qed.

Lemma execute_on_mexc_updates_nothing_witness :
  let s' := snd (ImmortalExitProtocol.execute venue_btc_klines_down
                   mexc_protocol "SIGINT (Ctrl+C)" sys0) in
  positions_updated s' = positions_updated sys0 /\
  exists made,
    Sys.calls s' = Sys.calls sys0 ++ made /\
    Forall (fun c => is_trading_stop_call c = false) made.
Proof.
  apply (execute_on_mexc_updates_nothing venue_btc_klines_down mexc_protocol
           "SIGINT (Ctrl+C)" sys0).
  reflexivity.
Defined.

(** the same run in figures: two positions are fetched on MEXC; the one
    whose levels could be recomputed (the klines of the other fail) ends
    as a recorded error, and none is recorded as updated *)
Example execute_on_mexc_records_errors :
  let s' := snd (ImmortalExitProtocol.execute venue_btc_klines_down
                   mexc_protocol "SIGINT (Ctrl+C)" sys0) in
  List.length (ShutdownState.positionsBeforeShutdown
                 (BotStateManager.shutdownState (Sys.botState s'))) = 2%nat /\
  shutdown_errors s'
  = ["MEXC TP/SL update requires separate orders"%string] /\
  positions_updated s' = [].
Proof. vm_compute. repeat split; reflexivity. Qed.

(** ** Signal generation *)

Lemma slice_from_last_le {A} (l : list A) (n : Z) :
  (0 < n)%Z ->
  (Z.of_nat (List.length (MarketStatistics.slice_from l (- n))) <= n)%Z.
Proof.
  intro Hn. unfold MarketStatistics.slice_from.
  replace (- n <? 0)%Z with true by (symmetry; apply Z.ltb_lt; lia).
  rewrite length_skipn. lia.
Qed.

(** the ATR of the last 14 candles at period 14 is the insufficient-data
    value *)
Lemma calculate_atr_of_last_14 (candles : list Utils.Candle) :
  Utils.calculate_atr (MarketStatistics.slice_from candles (- 14)) 14 = Fin 0.
Proof.
  unfold Utils.calculate_atr.
  pose proof (slice_from_last_le candles 14 eq_refl) as H.
  cbn [Z.opp] in H.
  replace (Z.of_nat (List.length (MarketStatistics.slice_from candles (- 14)))
           <? 14 + 1)%Z with true by (symmetry; apply Z.ltb_lt; lia).
  reflexivity.
Qed.

Lemma gains_and_losses_length (previous : num) (rest : list num) :
  List.length (fst (Sentinels.gains_and_losses previous rest)) = List.length rest /\
  List.length (snd (Sentinels.gains_and_losses previous rest)) = List.length rest.
Proof.
  revert previous. induction rest as [|current rest IH]; intro previous;
    cbn [Sentinels.gains_and_losses]; [split; reflexivity|].
  specialize (IH current).
  destruct (Sentinels.gains_and_losses current rest) as [gains losses].
  cbn [fst snd] in IH. destruct IH as [Hg Hl].
  destruct (gtb _ (Fin 0)); cbn [fst snd List.length]; split; congruence.
Qed.

(** the two averages of the RSI step are taken over at most 13 changes
    at period 14, so both are the insufficient-data value *)
Lemma rsi_averages_are_zero (candles : list Utils.Candle) :
  let '(gains, losses) :=
    match map Utils.close (MarketStatistics.slice_from candles (- 14)) with
    | [] => ([], [])
    | first :: rest => Sentinels.gains_and_losses first rest
    end in
  MarketStatistics.calculate_sma gains 14 = Fin 0 /\
  MarketStatistics.calculate_sma losses 14 = Fin 0.
Proof.
  pose proof (slice_from_last_le candles 14 eq_refl) as H.
  cbn [Z.opp] in H.
  rewrite <- (length_map Utils.close) in H.
  destruct (map Utils.close (MarketStatistics.slice_from candles (- 14)))
    as [|first rest].
  - split; reflexivity.
  - destruct (gains_and_losses_length first rest) as [Hg Hl].
    destruct (Sentinels.gains_and_losses first rest) as [gains losses].
    cbn [fst snd] in Hg, Hl. cbn [List.length] in H.
    unfold MarketStatistics.calculate_sma.
    replace (Z.of_nat (List.length gains) <? 14)%Z with true
      by (symmetry; apply Z.ltb_lt; lia).
    replace (Z.of_nat (List.length losses) <? 14)%Z with true
      by (symmetry; apply Z.ltb_lt; lia).
    split; reflexivity.
Qed.

Lemma mul_zero_is_zero_or_nan (x : Q) (m : num) :
  x == 0 -> zero_or_nan (mul (Fin x) m).
Proof.
  intro Hx. destruct m as [z| | |]; cbn [mul zero_or_nan].
  - rewrite Hx. ring.
  - unfold Qsign. apply Qeq_alt in Hx. rewrite Hx. exact I.
  - unfold Qsign. apply Qeq_alt in Hx. rewrite Hx. exact I.
  - exact I.
Qed.

Lemma expected_move_without_atr candles direction currentPrice regimeStats :
  zero_or_nan
    (Sentinels.calculate_expected_move candles direction (Fin 0) currentPrice
                                       regimeStats).
Proof.
  unfold Sentinels.calculate_expected_move.
  set (multiplier := match RegimeStats.regime regimeStats with
                     | TRENDING => _
                     | RANGING => _
                     end).
  destruct currentPrice as [c| | |]; cbn [div].
  - destruct (Qeq_bool c 0) eqn:Ec.
    + cbn. destruct multiplier; exact I.
    + cbn [mul]. apply mul_zero_is_zero_or_nan.
      assert (Hc : ~ c == 0).
      { intro H0. apply Qeq_bool_iff in H0. congruence. }
      field. exact Hc.
  - cbn [mul]. apply mul_zero_is_zero_or_nan. reflexivity.
  - cbn [mul]. apply mul_zero_is_zero_or_nan. reflexivity.
  - cbn. destruct multiplier; exact I.
Qed.

Lemma calculate_win_probability_returns candles direction
      regimeStats volumeProfile currentPrice :
  candles <> [] ->
  exists w,
    Sentinels.calculate_win_probability candles direction regimeStats
                                        volumeProfile currentPrice = Ok w.
Proof.
  intro Hne. unfold Sentinels.calculate_win_probability.
  assert (Hlast : exists c, Sentinels.last_candle candles = Some c).
  { unfold Sentinels.last_candle. destruct (rev candles) as [|c l] eqn:E.
    - exfalso. apply Hne. rewrite <- (rev_involutive candles), E. reflexivity.
    - exists c. reflexivity. }
  destruct Hlast as [last Hlast]. rewrite Hlast.
  destruct candles as [|first rest]; [congruence|].
  destruct (RegimeStats.regime regimeStats);
    [destruct (match direction with LONG => _ | SHORT => _ end)|];
    match goal with
    | |- context [let '(gains, losses) := ?p in _] => destruct p
    end; eexists; reflexivity.
Qed.

(** what [generate_signal] returns *)
Lemma generate_signal_shape hurst profile config now symbol candles orderBook
      strategy direction :
  (List.length candles < 20)%nat /\
  Sentinels.generate_signal hurst profile config now symbol candles orderBook
                            strategy direction = Ok None
  \/
  (20 <= List.length candles)%nat /\
  exists signal,
    Sentinels.generate_signal hurst profile config now symbol candles orderBook
                              strategy direction = Ok (Some signal) /\
    Signal.atr signal = Some (Fin 0) /\
    zero_or_nan (Signal.expected_move_pct signal) /\
    Signal.symbol signal = symbol /\
    Signal.direction signal = direction.
Proof.
  unfold Sentinels.generate_signal.
  destruct (List.length candles <? 20)%nat eqn:E.
  - left. apply Nat.ltb_lt in E. split; [exact E | reflexivity].
  - right. apply Nat.ltb_ge in E. split; [exact E|].
    rewrite calculate_atr_of_last_14.
    assert (Hne : candles <> []).
    { intro H0. subst candles. cbn in E. lia. }
    match goal with
    | |- context [Sentinels.calculate_win_probability ?c ?d ?r ?v ?p] =>
        destruct (calculate_win_probability_returns c d r v p Hne)
          as [w Ew]; rewrite Ew
    end.
    eexists. split; [reflexivity|].
    cbn [Signal.atr Signal.expected_move_pct Signal.symbol Signal.direction].
    split; [reflexivity|]. split; [apply expected_move_without_atr|].
    split; reflexivity.
Qed.

(** X26.  [generate_signal] never throws and returns null exactly for
    fewer than 20 candles.  Every signal it returns carries an ATR of 0
    and an expected move that is 0 or NaN, whatever the candles, the
    order book, the Hurst exponent and the volume profile are: the ATR is
    computed on the last 14 candles at period 14, which [calculate_atr]
    treats as insufficient data. *)
Theorem generate_signal_carries_no_atr :
  forall (hurst : list num -> num)
         (profile : list Utils.Candle -> Z -> VolumeProfile.t)
         (config : SentinelsConfig.t) (now : Z) (symbol : string)
         (candles : list Utils.Candle) (orderBook : OrderBook.t)
         (strategy : string) (direction : SignalDirection),
    match Sentinels.generate_signal hurst profile config now symbol candles
                                    orderBook strategy direction with
    | Ok None => (List.length candles < 20)%nat
    | Ok (Some signal) =>
        (20 <= List.length candles)%nat /\
        Signal.atr signal = Some (Fin 0) /\
        zero_or_nan (Signal.expected_move_pct signal)
    | Throw _ => False
    end.
Proof.
  intros hurst profile config now symbol candles orderBook strategy direction.
  destruct (generate_signal_shape hurst profile config now symbol candles
              orderBook strategy direction)
    as [[Hlen E] | [Hlen [signal [E [Hatr [Hmove _]]]]]]; rewrite E.
  - exact Hlen.
  - repeat split; assumption.
Qed.

Lemma spread_penalty_nonneg (config : AlphaRankerConfig.t) (orderBook : OrderBook.t)
      (bid ask : Q) :
  AlphaRanker.best_price (OrderBook.bids orderBook) = Fin bid ->
  AlphaRanker.best_price (OrderBook.asks orderBook) = Fin ask ->
  0 <= bid -> bid <= ask ->
  exists sp,
    AlphaRanker.calculate_spread_penalty orderBook = Fin sp /\ 0 <= sp.
Proof.
  intros Hbid Hask H0 Hle. unfold AlphaRanker.calculate_spread_penalty.
  rewrite Hbid, Hask. cbn [eqb].
  destruct (Qeq_bool bid 0) eqn:Eb; cbn [orb].
  - exists 0. split; [reflexivity | lra].
  - assert (Hb : 0 < bid).
    { destruct (Qlt_le_dec 0 bid) as [H|H]; [exact H|].
      assert (Hz : bid == 0) by lra. apply Qeq_bool_iff in Hz. congruence. }
    replace (Qeq_bool ask 0) with false
      by (symmetry; apply Qeq_bool_false_of_pos; lra).
    cbn [add sub neg div mul].
    replace (Qeq_bool 2 0) with false by reflexivity.
    assert (Hmid : 0 < (bid + ask) / 2).
    { apply Qlt_shift_div_l; lra. }
    cbn [div]. rewrite (Qeq_bool_false_of_pos _ Hmid). cbn [mul].
    eexists. split; [reflexivity|].
    apply Qmult_le_0_compat; [|lra].
    apply Qle_shift_div_l; [exact Hmid|]. lra.
Qed.

Lemma factory_signal_rejected (config : AlphaRankerConfig.t)
      (orderBook : OrderBook.t) (signal : Signal.t) (fee bid ask : Q) :
  factory_signal signal ->
  AlphaRankerConfig.takerFee config = Fin fee -> 0 <= fee ->
  AlphaRanker.best_price (OrderBook.bids orderBook) = Fin bid ->
  AlphaRanker.best_price (OrderBook.asks orderBook) = Fin ask ->
  0 <= bid -> bid <= ask ->
  gtb (EvaluatedSignal.net_roi (AlphaRanker.evaluate_signal config signal orderBook))
      (Fin 0) = false.
Proof.
  intros [hurst [profile [sc [now [symbol [candles [book [strategy [direction
            Hgen]]]]]]]]] Hfee Hf Hbid Hask H0 Hle.
  destruct (generate_signal_shape hurst profile sc now symbol candles book
              strategy direction)
    as [[_ E] | [_ [signal' [E [_ [Hmove _]]]]]]; rewrite E in Hgen;
    [discriminate|].
  injection Hgen as <-.
  destruct (spread_penalty_nonneg config orderBook bid ask Hbid Hask H0 Hle)
    as [sp [Esp Hsp]].
  unfold AlphaRanker.evaluate_signal. cbn [EvaluatedSignal.net_roi].
  rewrite Esp. unfold AlphaRanker.calculate_round_trip_fees. rewrite Hfee.
  cbn [mul add div]. replace (Qeq_bool 15 0) with false by reflexivity.
  cbn [mul].
  destruct (Signal.expected_move_pct signal') as [q| | |];
    cbn [zero_or_nan] in Hmove; try contradiction; [|reflexivity].
  cbn [sub neg add]. unfold gtb. cbn [ltb]. apply Qltb_ge.
  assert (Hfees : 0 <= (15 * fee + 15 * fee) / 15 * 100).
  { assert (Hx : (15 * fee + 15 * fee) / 15 * 100 == 200 * fee) by field.
    rewrite Hx. lra. }
  lra.
Qed.

(** X27.  No signal of the Signal Generator passes the ranker: with an
    expected move of 0 the net ROI that [evaluate_signal] computes is the
    negated spread and fees, so for a non-negative taker fee and an order
    book that is not crossed [evaluate_and_sort] rejects every signal
    that [generate_signal] has produced, and [pick_apex_signal] has
    nothing to pick. *)
Theorem factory_signals_never_ranked :
  forall (config : AlphaRankerConfig.t) (signals : list Signal.t)
         (orderBook : OrderBook.t) (fee bid ask : Q),
    Forall factory_signal signals ->
    AlphaRankerConfig.takerFee config = Fin fee -> 0 <= fee ->
    AlphaRanker.best_price (OrderBook.bids orderBook) = Fin bid ->
    AlphaRanker.best_price (OrderBook.asks orderBook) = Fin ask ->
    0 <= bid -> bid <= ask ->
    AlphaRanker.evaluate_and_sort config signals orderBook = [] /\
    AlphaRanker.pick_apex_signal
      (AlphaRanker.evaluate_and_sort config signals orderBook) = None.
Proof.
  intros config signals orderBook fee bid ask Hall Hfee Hf Hbid Hask H0 Hle.
  assert (E : AlphaRanker.evaluate_and_sort config signals orderBook = []).
  { unfold AlphaRanker.evaluate_and_sort. cbv zeta.
    match goal with
    | |- js_sort _ ?kept = [] => assert (Hkept : kept = [])
    end.
    { induction Hall as [|signal rest Hs _ IH]; [reflexivity|].
      cbn [map filter].
      rewrite (factory_signal_rejected config orderBook signal fee bid ask
                 Hs Hfee Hf Hbid Hask H0 Hle).
      rewrite andb_false_r. exact IH. }
    rewrite Hkept. reflexivity. }
  rewrite E. split; reflexivity.
Qed.

Lemma factory_signals_never_ranked_witness :
  AlphaRanker.evaluate_and_sort DEFAULT_ALPHA_RANKER_CONFIG [generated_signal]
                                tight_book = [] /\
  AlphaRanker.pick_apex_signal
    (AlphaRanker.evaluate_and_sort DEFAULT_ALPHA_RANKER_CONFIG [generated_signal]
                                   tight_book) = None.
Proof.
  apply (factory_signals_never_ranked DEFAULT_ALPHA_RANKER_CONFIG
           [generated_signal] tight_book (55 # 100000) 100 (1001 # 10)).
  - constructor; [|constructor].
    exists flat_hurst, flat_profile, DEFAULT_SENTINELS_CONFIG, 0%Z,
           "BTCUSDT"%string, twenty_candles, tight_book, "MOMENTUM"%string, LONG.
    vm_compute. reflexivity.
  - reflexivity.
  - discriminate.
  - reflexivity.
  - reflexivity.
  - discriminate.
  - discriminate.
Defined.

(** X28.  [calculate_win_probability] reads of the candles at most the
    close of the first and the close of the last one: its RSI step
    averages at most 13 changes at period 14, so both averages are 0, the
    RSI is 0 and the step adds 0.08 for a long and subtracts it for a
    short signal whatever the prices did.  Two candle arrays that agree
    on those two closes (or are both empty) give the same probability, or
    the same error, however they differ otherwise; in a ranging regime
    the candles have no influence at all. *)
Theorem calculate_win_probability_ignores_candles :
  forall (candles candles' : list Utils.Candle) (direction : SignalDirection)
         (regimeStats : RegimeStats.t) (volumeProfile : VolumeProfile.t)
         (currentPrice : num),
    RegimeStats.regime regimeStats = RANGING \/
    (option_map Utils.close (hd_error candles)
     = option_map Utils.close (hd_error candles') /\
     option_map Utils.close (Sentinels.last_candle candles)
     = option_map Utils.close (Sentinels.last_candle candles')) ->
    Sentinels.calculate_win_probability candles direction regimeStats
                                        volumeProfile currentPrice
    = Sentinels.calculate_win_probability candles' direction regimeStats
                                          volumeProfile currentPrice.
Proof.
  intros candles candles' direction regimeStats volumeProfile currentPrice H.
  unfold Sentinels.calculate_win_probability.
  assert (Htrend :
            match RegimeStats.regime regimeStats with
            | TRENDING =>
                match Sentinels.last_candle candles, candles with
                | Some last, first :: _ =>
                    if match direction with
                       | LONG => gtb (sub (Utils.close last) (Utils.close first))
                                     (Fin 0)
                       | SHORT => negb (gtb (sub (Utils.close last)
                                                 (Utils.close first)) (Fin 0))
                       end
                    then Ok (add (Fin (1 # 2))
                                 (mul (RegimeStats.trendStrength regimeStats)
                                      (Fin (15 # 100))))
                    else Ok (sub (Fin (1 # 2))
                                 (mul (RegimeStats.trendStrength regimeStats)
                                      (Fin (1 # 10))))
                | _, _ =>
                    Throw "Cannot read properties of undefined (reading 'close')"
                end
            | RANGING => Ok (Fin (1 # 2))
            end
            =
            match RegimeStats.regime regimeStats with
            | TRENDING =>
                match Sentinels.last_candle candles', candles' with
                | Some last, first :: _ =>
                    if match direction with
                       | LONG => gtb (sub (Utils.close last) (Utils.close first))
                                     (Fin 0)
                       | SHORT => negb (gtb (sub (Utils.close last)
                                                 (Utils.close first)) (Fin 0))
                       end
                    then Ok (add (Fin (1 # 2))
                                 (mul (RegimeStats.trendStrength regimeStats)
                                      (Fin (15 # 100))))
                    else Ok (sub (Fin (1 # 2))
                                 (mul (RegimeStats.trendStrength regimeStats)
                                      (Fin (1 # 10))))
                | _, _ =>
                    Throw "Cannot read properties of undefined (reading 'close')"
                end
            | RANGING => Ok (Fin (1 # 2))
            end).
  { destruct H as [Hr | [Hhd Hlast]].
    - rewrite Hr. reflexivity.
    - destruct (Sentinels.last_candle candles) as [last|],
               (Sentinels.last_candle candles') as [last'|];
        cbn [option_map] in Hlast; try discriminate Hlast;
        destruct candles as [|c l], candles' as [|c' l'];
        cbn [hd_error option_map] in Hhd; try discriminate Hhd;
        try reflexivity.
      injection Hlast as Hlast. injection Hhd as Hhd.
      rewrite Hlast, Hhd. reflexivity. }
  cbv zeta. rewrite Htrend. clear Htrend.
  match goal with
  | |- match ?t with Ok _ => _ | Throw _ => _ end = _ =>
      destruct t as [probability|msg]; [|reflexivity]
  end.
  pose proof (rsi_averages_are_zero candles) as R.
  pose proof (rsi_averages_are_zero candles') as R'.
  destruct (match map Utils.close (MarketStatistics.slice_from candles (-14)) with
            | [] => ([], [])
            | first :: rest => Sentinels.gains_and_losses first rest
            end) as [gains losses].
  destruct (match map Utils.close (MarketStatistics.slice_from candles' (-14)) with
            | [] => ([], [])
            | first :: rest => Sentinels.gains_and_losses first rest
            end) as [gains' losses'].
  destruct R as [Rg Rl]. destruct R' as [Rg' Rl'].
  rewrite Rg, Rl, Rg', Rl'. reflexivity.
Qed.

(** a trending regime, and two arrays of different length that share
    nothing but the close of their first and of their last candle *)
Lemma calculate_win_probability_ignores_candles_witness :
  Sentinels.calculate_win_probability rising_candles LONG
    (RegimeStats.mk TRENDING (Fin (7 # 10)) (Fin (1 # 2)) LOW)
    (flat_profile [] 24) (Fin 100)
  = Sentinels.calculate_win_probability other_rising_candles LONG
      (RegimeStats.mk TRENDING (Fin (7 # 10)) (Fin (1 # 2)) LOW)
      (flat_profile [] 24) (Fin 100).
Proof.
  apply (calculate_win_probability_ignores_candles
           rising_candles other_rising_candles LONG).
  right. split; reflexivity.
Defined.

(** X29.  [calculate_regime_stats] never reports a high or a normal
    volatility for 20 candles or more: its ATR is taken on the last 14
    candles at period 14 and is therefore 0, so the volatility state is
    LOW whatever the prices are; for fewer than 20 candles it is the
    default NORMAL. *)
Theorem calculate_regime_stats_volatility :
  forall (hurst : list num -> num) (candles : list Utils.Candle) (lookback : Z),
    RegimeStats.volatilityState
      (Sentinels.calculate_regime_stats hurst candles lookback)
    = if (List.length candles <? 20)%nat then NORMAL else LOW.
Proof.
  intros hurst candles lookback.
  unfold Sentinels.calculate_regime_stats.
  destruct (List.length candles <? 20)%nat; [reflexivity|].
  rewrite calculate_atr_of_last_14.
  assert (Hlow : forall currentPrice,
             ltb (if gtb currentPrice (Fin 0)
                  then mul (div (Fin 0) currentPrice) (Fin 100)
                  else Fin 0) (Fin 1) = true).
  { intros [c| | |]; cbn [gtb ltb div]; try reflexivity.
    destruct (Qltb 0 c) eqn:Ec; [|reflexivity].
    apply Qltb_lt in Ec. rewrite (Qeq_bool_false_of_pos c Ec).
    cbn [mul ltb]. apply Qltb_lt.
    assert (H0 : 0 / c * 100 == 0) by (field; lra).
    rewrite H0. reflexivity. }
  destruct (gtb (hurst _) (Fin (55 # 100)));
    [| destruct (ltb (hurst _) (Fin (45 # 100)))];
    cbn [RegimeStats.volatilityState]; rewrite Hlow; reflexivity.
Qed.

(** ** The shutdown route after a shutdown *)

Lemma ends_with_try_catch {A} P (m : M A) (h : string -> M A) :
  ends_with P m -> (forall msg, ends_with P (h msg)) ->
  ends_with P (try_catch m h).
Proof.
  intros Hm Hh s a s' E. unfold try_catch in E.
  destruct (m s) as [[a0|msg] s1] eqn:Em.
  - injection E as <- <-. eapply Hm. exact Em.
  - eapply Hh. exact E.
Qed.

Lemma completeShutdown_idle :
  ends_with store_idle (on_store BotStateManager.completeShutdown).
Proof. intros s a s' E. inversion E; subst. reflexivity. Qed.

Lemma run_protocol_ends_idle venue this reason :
  ends_with store_idle (ImmortalExitProtocol.run_protocol venue this reason).
Proof.
  unfold ImmortalExitProtocol.run_protocol.
  apply ends_with_bind. intros _.
  apply ends_with_bind. intros _.
  apply ends_with_try_catch.
  - apply ends_with_bind. intro positions.
    apply ends_with_bind. intros _.
    destruct (Nat.eqb (List.length positions) 0);
      repeat (apply ends_with_bind; intro);
      apply completeShutdown_idle.
  - intro msg. repeat (apply ends_with_bind; intro).
    apply completeShutdown_idle.
Qed.

(** X30.  A run of [execute] leaves the store's status [idle] (through
    [completeShutdown]; the status during the run is [stopping], and no
    code sets [shutting_down]).  A request to the shutdown route that
    follows the run is therefore answered as already stopped, without a
    call to the venue or a change of the store, never as a conflict. *)
Theorem shutdown_route_after_execute :
  forall (venue : Venue.t) (this : ImmortalExitProtocol.t) (reason : string)
         (s : Sys.t) (tradingEngineInstance : option TradingEngine.t)
         (router : ExecutionRouter.t) (telegramBot : bool)
         (exchange : Exchange) (reason' : string),
    ImmortalExitProtocol.isShuttingDown this = false ->
    let s' := snd (ImmortalExitProtocol.execute venue this reason s) in
    BotStateManager.status (Sys.botState s') = idle /\
    ShutdownRoute.POST venue tradingEngineInstance router telegramBot exchange
                       reason' s'
    = (Ok (ShutdownRoute.AlreadyStopped, tradingEngineInstance), s').
Proof.
  intros venue this reason s engine router telegramBot exchange reason' Hflag s'.
  assert (Hidle : BotStateManager.status (Sys.botState s') = idle).
  { unfold s', ImmortalExitProtocol.execute. rewrite Hflag.
    destruct (run_protocol_completes venue this reason s) as [s1 [E _]].
    unfold bind. rewrite E. cbn [snd ret].
    apply (run_protocol_ends_idle venue this reason s tt s1 E). }
  split; [exact Hidle|].
  unfold ShutdownRoute.POST, try_catch, bind, get_store. rewrite Hidle.
  reflexivity.
Qed.

Lemma shutdown_route_after_execute_witness :
  let s' := snd (ImmortalExitProtocol.execute venue_btc_klines_down
                   engine_protocol "SIGINT (Ctrl+C)" sys0) in
  BotStateManager.status (Sys.botState s') = idle /\
  ShutdownRoute.POST venue_btc_klines_down None router_bybit false bybit
                     "API request" s'
  = (Ok (ShutdownRoute.AlreadyStopped, None), s').
Proof.
  apply (shutdown_route_after_execute venue_btc_klines_down engine_protocol
           "SIGINT (Ctrl+C)" sys0 None router_bybit false bybit "API request").
  reflexivity.
Defined.
